(** * brainio: catalog lookup and leveled assemblies

    A shallow embedding of [brainio/lookup.py] (module [Lookup]) and a model
    of the array engine exercised by [tests/test_assemblies.py] (module
    [Assemblies]), with the properties of the specification stated and
    proved over them. *)

From Stdlib Require Import String List Bool Arith ZArith QArith Lia Permutation.
From Stdlib Require Import Sorted.
From Stdlib.Strings Require Import Byte.
Import ListNotations.
Open Scope string_scope.

(** ** Python values shared by both modules *)

Definition option_eqb {A} (eqb : A -> A -> bool) (x y : option A) : bool :=
  match x, y with
  | Some a, Some b => eqb a b
  | None, None => true
  | _, _ => false
  end.

(** [str.endswith] *)
Definition endswith (s suffix : string) : bool :=
  (String.length suffix <=? String.length s)%nat &&
  String.eqb
    (substring (String.length s - String.length suffix) (String.length suffix) s)
    suffix.

(** Python exceptions, with their messages where the message is built from
    strings only (the printed frame in the duplicate message of
    [lookup.append] is left out). *)
Inductive exn :=
| StimulusSetLookupError (msg : string)
| AssemblyLookupError (msg : string)
| RuntimeError (msg : string)
| ValueError (msg : string)
| KeyError (key : string)
| IndexError
| AssertionError.

Inductive result (A : Type) :=
| Ok (a : A)
| Raise (e : exn).
Arguments Ok {A} a.
Arguments Raise {A} e.

Module Lookup.

(** *** Module constants of lookup.py *)

Definition LOOKUP_SOURCE := "lookup_source".
Definition ENTRYPOINT := "brainio_lookups".
Definition TYPE_ASSEMBLY := "assembly".
Definition TYPE_STIMULUS_SET := "stimulus_set".
Definition CATALOG_PATH_KEY := "catalog_path".

(** *** Data model

    A catalog is a pandas DataFrame; one row of it is a [Row].  The columns
    are the keys of [object_lookup] in [append].  A missing value of the
    column [stimulus_set_identifier] ([None] or a NaN, which nothing in the
    module tells apart) is [None]. *)

(** A cell of the column [class].  The source tests it with
    [in [None, np.nan]], and Python's [in] compares by identity, then by
    equality: [None] and the object [np.nan] itself are found in the list,
    any other NaN is not, a NaN being unequal to every float, itself
    included.  Such a NaN is what a row carries when its frame was read
    from a file in which no row has a class: the column is then a float
    column, and its cells are NaN floats that are not the object [np.nan].
    In a column that also holds class names the missing cells are the
    object [np.nan]. *)
Inductive class_cell :=
| ClassName (name : string)
| ClassNone
| ClassNaN.

(** [cell in [None, np.nan]] *)
Definition in_none_nan (c : class_cell) : bool :=
  match c with
  | ClassNone => true
  | ClassName _ | ClassNaN => false
  end.

(** Equality of two class cells as [drop_duplicates] sees it: pandas counts
    every missing value, [None] or NaN, as one and the same value. *)
Definition class_cell_eqb (c1 c2 : class_cell) : bool :=
  match c1, c2 with
  | ClassName a, ClassName b => a =? b
  | ClassName _, _ | _, ClassName _ => false
  | _, _ => true
  end.

(** The text [to_csv] writes for a class cell; a missing value is written
    as the empty field, [None] here. *)
Definition class_text (c : class_cell) : option string :=
  match c with
  | ClassName name => Some name
  | ClassNone | ClassNaN => None
  end.

Record Row := mkRow {
  identifier : string;
  lookup_type : string;
  class : class_cell;
  location_type : string;
  location : string;
  sha1 : string;
  stimulus_set_identifier : option string;
  lookup_source : string
}.

(** The frame's columns, in the order of [object_lookup]. *)
Definition columns : list string :=
  ["identifier"; "lookup_type"; "class"; "location_type"; "location"; "sha1";
   "stimulus_set_identifier"; "lookup_source"].

(** [row[col]] rendered as a cell of the delimited file; a missing value is
    [None]. *)
Definition cell (r : Row) (col : string) : option string :=
  if col =? "identifier" then Some (identifier r)
  else if col =? "lookup_type" then Some (lookup_type r)
  else if col =? "class" then class_text (class r)
  else if col =? "location_type" then Some (location_type r)
  else if col =? "location" then Some (location r)
  else if col =? "sha1" then Some (sha1 r)
  else if col =? "stimulus_set_identifier" then stimulus_set_identifier r
  else if col =? "lookup_source" then Some (lookup_source r)
  else None.

(** A DataFrame with its [attrs] entry for [CATALOG_PATH_KEY]. *)
Record Catalog := mkCatalog {
  rows : list Row;
  attrs_catalog_path : option string
}.

(** What [DataFrame.to_csv(path, index=False)] writes: the header line and
    one line of cells per row. *)
Record CsvFile := mkCsv {
  header : list string;
  lines : list (list (option string))
}.

Definition to_csv (cols : list string) (rs : list Row) : CsvFile :=
  {| header := cols; lines := map (fun r => map (cell r) cols) rs |}.

(** Python dicts keep insertion order; [pd.concat(catalogs.values())] depends
    on it, so a dict is an association list. *)
Definition dict (V : Type) := list (string * V).

Fixpoint dict_get {V} (k : string) (d : dict V) : option V :=
  match d with
  | [] => None
  | (k', v) :: t => if k' =? k then Some v else dict_get k t
  end.

(** [d[k] = v]: replaces in place, or adds at the end. *)
Fixpoint dict_set {V} (k : string) (v : V) (d : dict V) : dict V :=
  match d with
  | [] => [(k, v)]
  | (k', v') :: t => if k' =? k then (k', v) :: t else (k', v') :: dict_set k v t
  end.

Definition dict_values {V} (d : dict V) : list V := map snd d.

(** The module globals [_catalogs] and [_concat_catalogs], and the files
    written by [to_csv], by path. *)
Record State := mkState {
  _catalogs : dict Catalog;
  _concat_catalogs : option (list Row);
  files : dict CsvFile
}.

(** State and exception monad: a raise keeps the state reached so far, as a
    Python exception keeps the globals already assigned. *)
Definition M (A : Type) := State -> result A * State.

Definition ret {A} (a : A) : M A := fun st => (Ok a, st).
Definition raise {A} (e : exn) : M A := fun st => (Raise e, st).
Definition bind {A B} (m : M A) (k : A -> M B) : M B :=
  fun st =>
    match m st with
    | (Ok a, st') => k a st'
    | (Raise e, st') => (Raise e, st')
    end.
Definition lift {A} (r : result A) : M A := fun st => (r, st).

Notation "x <- m ;; k" := (bind m (fun x => k))
  (at level 61, m at next level, right associativity).
Notation "m ;;; k" := (bind m (fun _ => k))
  (at level 61, right associativity).

(** *** DataFrame operations *)

(** [df[mask]] *)
Fixpoint boolean_index (df : list Row) (mask : list bool) : list Row :=
  match df, mask with
  | r :: df', b :: mask' =>
      if b then r :: boolean_index df' mask' else boolean_index df' mask'
  | _, _ => []
  end.

(** [m1 & m2] *)
Fixpoint mask_and (m1 m2 : list bool) : list bool :=
  match m1, m2 with
  | a :: m1', b :: m2' => (a && b) :: mask_and m1' m2'
  | _, _ => []
  end.

(** Equality of two rows on [cols = [n for n in columns if n != LOOKUP_SOURCE]];
    pandas counts two missing values as equal. *)
Definition same_record (r1 r2 : Row) : bool :=
  (identifier r1 =? identifier r2) &&
  (lookup_type r1 =? lookup_type r2) &&
  class_cell_eqb (class r1) (class r2) &&
  (location_type r1 =? location_type r2) &&
  (location r1 =? location r2) &&
  (sha1 r1 =? sha1 r2) &&
  option_eqb String.eqb (stimulus_set_identifier r1) (stimulus_set_identifier r2).

(** [drop_duplicates(subset=cols)]: a row is kept unless an earlier row
    equals it on [cols]. *)
Fixpoint drop_duplicates_from (seen : list Row) (df : list Row) : list Row :=
  match df with
  | [] => []
  | r :: df' =>
      if existsb (same_record r) seen then drop_duplicates_from seen df'
      else r :: drop_duplicates_from (r :: seen) df'
  end.

Definition drop_duplicates (df : list Row) : list Row :=
  drop_duplicates_from [] df.

(** The rows a lookup selects from the merged view: those of the identifier
    and of the lookup type. *)
Definition candidates (identifier0 t : string) (d : list Row) : list Row :=
  filter (fun r => (identifier r =? identifier0) && (lookup_type r =? t)) d.

(** *** _is_csv_lookup, _is_zip_lookup *)

Definition _is_csv_lookup (data_row : Row) : bool :=
  (lookup_type data_row =? TYPE_STIMULUS_SET) &&
  endswith (location data_row) ".csv" &&
  negb (in_none_nan (class data_row)).

Definition _is_zip_lookup (data_row : Row) : bool :=
  (lookup_type data_row =? TYPE_STIMULUS_SET) &&
  endswith (location data_row) ".zip" &&
  in_none_nan (class data_row).

(** *** sorted(list(set(...)))

    The iteration order of a Python set is unspecified; [sorted] of it is
    not: it is the ascending list of the distinct elements.  Strings are
    compared character by character, as Python compares [str]. *)

Definition py_set (l : list string) : list string := nodup string_dec l.

Fixpoint insert_sorted (x : string) (l : list string) : list string :=
  match l with
  | [] => [x]
  | y :: t => if (x <=? y)%string then x :: y :: t else y :: insert_sorted x t
  end.

Definition sorted (l : list string) : list string :=
  fold_right insert_sorted [] l.

Section Entrypoints.

(** The entry-point group [ENTRYPOINT]: for each catalog name, the frame its
    loader returns ([entry_point.load()()]). *)
Variable entrypoints : dict Catalog.

Definition list_catalogs : list string := map fst entrypoints.

Definition load_lookup (name : string) (df : Catalog) : Catalog :=
  {| rows := map (fun r => mkRow (identifier r) (lookup_type r) (class r)
                              (location_type r) (location r) (sha1 r)
                              (stimulus_set_identifier r) name) (rows df);
     attrs_catalog_path := attrs_catalog_path df |}.

Definition get_lookups : dict Catalog :=
  fold_left (fun dfs kv => dict_set (fst kv) (load_lookup (fst kv) (snd kv)) dfs)
            entrypoints [].

Definition get_catalogs : M (dict Catalog) :=
  fun st =>
    match _catalogs st with
    | [] =>
        let loaded := get_lookups in
        (Ok loaded, mkState loaded (_concat_catalogs st) (files st))
    | _ :: _ => (Ok (_catalogs st), st)
    end.

(** [pd.concat] of no frames raises ValueError. *)
Definition pd_concat (dfs : list Catalog) : result (list Row) :=
  match dfs with
  | [] => Raise (ValueError "No objects to concatenate")
  | _ => Ok (concat (map rows dfs))
  end.

Definition data : M (list Row) :=
  fun st =>
    match _concat_catalogs st with
    | Some d => (Ok d, st)
    | None =>
        (catalogs <- get_catalogs ;;
         d <- lift (pd_concat (dict_values catalogs)) ;;
         fun st' => (Ok d, mkState (_catalogs st') (Some d) (files st'))) st
    end.

(** [data()[(data()['identifier'] == identifier) & (data()['lookup_type'] == t)]] *)
Definition select_lookup (identifier0 t : string) : M (list Row) :=
  d <- data ;;
  d1 <- data ;;
  d2 <- data ;;
  ret (boolean_index d
         (mask_and (map (fun r => identifier r =? identifier0) d1)
                   (map (fun r => lookup_type r =? t) d2))).

Definition _lookup_stimulus_set_filtered
    (lookup : list Row) (filter_func : Row -> bool) (label : string)
  : result Row :=
  let filtered_rows :=
    drop_duplicates (boolean_index lookup (map filter_func lookup)) in
  match lookup with
  | [] => Raise IndexError
  | r0 :: _ =>
      let identifier0 := identifier r0 in
      match filtered_rows with
      | [] => Raise (StimulusSetLookupError
                       (label ++ " for stimulus set " ++ identifier0 ++ " not found"))
      | [r] => Ok r
      | _ :: _ :: _ =>
          Raise (RuntimeError
                   ("Internal data inconsistency: Found more than 2 lookup rows for stimulus_set "
                      ++ label ++ " for identifier " ++ identifier0))
      end
  end.

Definition lookup_stimulus_set (identifier0 : string) : M (Row * Row) :=
  lookup <- select_lookup identifier0 TYPE_STIMULUS_SET ;;
  match lookup with
  | [] => raise (StimulusSetLookupError
                   ("stimulus_set " ++ identifier0 ++ " not found"))
  | _ :: _ =>
      csv_lookup <- lift (_lookup_stimulus_set_filtered lookup _is_csv_lookup "CSV") ;;
      zip_lookup <- lift (_lookup_stimulus_set_filtered lookup _is_zip_lookup "zip") ;;
      ret (csv_lookup, zip_lookup)
  end.

Definition lookup_assembly (identifier0 : string) : M Row :=
  lookup <- select_lookup identifier0 TYPE_ASSEMBLY ;;
  match lookup with
  | [] => raise (AssemblyLookupError ("assembly " ++ identifier0 ++ " not found"))
  | _ :: _ =>
      match drop_duplicates lookup with
      | [r] => ret r
      | [] => raise AssertionError
      | _ :: _ :: _ =>
          raise (RuntimeError
                   ("Internal data inconsistency: Found multiple lookup rows for identifier "
                      ++ identifier0))
      end
  end.

(** *** append *)

Definition object_lookup_of
    (catalog_name object_identifier : string) (cls : class_cell)
    (lookup_type0 bucket_name sha1_0 s3_key : string)
    (stimulus_set_identifier0 : option string) : Row :=
  {| identifier := object_identifier;
     lookup_type := lookup_type0;
     class := cls;
     location_type := "S3";
     location := "https://" ++ bucket_name ++ ".s3.amazonaws.com/" ++ s3_key;
     sha1 := sha1_0;
     stimulus_set_identifier := stimulus_set_identifier0;
     lookup_source := catalog_name |}.

Definition duplicate_msg (object_identifier : string) : string :=
  "Trying to add duplicate identifier " ++ object_identifier.

(** The rows of the named catalog that [append] calls [duplicates]. *)
Definition duplicates_of (catalog : Catalog) (object_lookup : Row) : list Row :=
  boolean_index (rows catalog)
    (mask_and
       (map (fun r => identifier r =? identifier object_lookup) (rows catalog))
       (map (fun r => lookup_type r =? lookup_type object_lookup) (rows catalog))).

(** The duplicate check of [append]. *)
Definition check_duplicates (duplicates : list Row) (object_lookup : Row)
  : result unit :=
  if (0 <? length duplicates)%nat then
    if lookup_type object_lookup =? TYPE_ASSEMBLY then
      Raise (ValueError (duplicate_msg (identifier object_lookup)))
    else if lookup_type object_lookup =? TYPE_STIMULUS_SET then
      match duplicates with
      | [d] =>
          if (identifier d =? identifier object_lookup) &&
             ((_is_csv_lookup d && _is_zip_lookup object_lookup) ||
              (_is_zip_lookup d && _is_csv_lookup object_lookup))
          then Ok tt
          else Raise (ValueError (duplicate_msg (identifier object_lookup)))
      | _ => Raise (ValueError (duplicate_msg (identifier object_lookup)))
      end
    else Ok tt
  else Ok tt.

Definition append
    (catalog_name object_identifier : string) (cls : class_cell)
    (lookup_type0 bucket_name sha1_0 s3_key : string)
    (stimulus_set_identifier0 : option string) : M unit :=
  catalogs <- get_catalogs ;;
  match dict_get catalog_name catalogs with
  | None => raise (KeyError catalog_name)
  | Some catalog =>
      match attrs_catalog_path catalog with
      | None => raise (KeyError CATALOG_PATH_KEY)
      | Some catalog_path =>
          let object_lookup :=
            object_lookup_of catalog_name object_identifier cls lookup_type0
                             bucket_name sha1_0 s3_key stimulus_set_identifier0 in
          if negb ((lookup_type object_lookup =? TYPE_ASSEMBLY) ||
                   (lookup_type object_lookup =? TYPE_STIMULUS_SET))
          then raise AssertionError
          else
            lift (check_duplicates (duplicates_of catalog object_lookup) object_lookup) ;;;
            (* append and save *)
            let catalog' :=
              mkCatalog (rows catalog ++ [object_lookup]) (attrs_catalog_path catalog) in
            fun st =>
              (Ok tt,
               mkState (dict_set catalog_name catalog' (_catalogs st))
                       None
                       (dict_set catalog_path (to_csv columns (rows catalog')) (files st)))
      end
  end.

(** *** list_stimulus_sets, list_assemblies *)

Definition list_stimulus_sets : M (list string) :=
  d <- data ;;
  d1 <- data ;;
  let stimuli_rows :=
    boolean_index d (map (fun r => lookup_type r =? TYPE_STIMULUS_SET) d1) in
  ret (sorted (py_set (map identifier stimuli_rows))).

Definition list_assemblies : M (list string) :=
  d <- data ;;
  d1 <- data ;;
  let assembly_rows :=
    boolean_index d (map (fun r => lookup_type r =? TYPE_ASSEMBLY) d1) in
  ret (sorted (py_set (map identifier assembly_rows))).

End Entrypoints.

(** *** sha1_hash

    [hashlib.sha1] is taken as an interface: the fresh hash object, [update]
    and [hexdigest].  The file is a binary file opened for buffered reading
    ([open(path, "rb")], an [io.BufferedReader]).  [read(n)] converts [n] to
    a C [ssize_t] and raises [OverflowError] when it does not fit; it raises
    [ValueError] for [n < -1]; [read(-1)] returns all the remaining bytes,
    [read(0)] none, and [read(n)] for a positive [n] the next [n] bytes,
    fewer at the end of the file.  The bytes object returned is allocated
    first, [n] bytes of it for a positive [n], and [MemoryError] is raised
    when that fails. *)

(** [PY_SSIZE_T_MAX] of a 64-bit CPython. *)
Definition PY_SSIZE_T_MAX : Z := (2 ^ 63 - 1)%Z.

Inductive read_error :=
| ReadValueError
| ReadOverflowError
| ReadMemoryError.

(** The outcome of [sha1_hash]: the digest, [FileNotFoundError] from
    [open], an exception of [read], or the loop cut short. *)
Inductive hash_outcome :=
| Digest (hexdigest : string)
| FileNotFoundError
| ReadError (e : read_error)
| OutOfFuel.

Section Hashlib.

Variable sha1_state : Type.
Variable sha1_new : sha1_state.
Variable sha1_update : sha1_state -> list byte -> sha1_state.
Variable sha1_hexdigest : sha1_state -> string.

(** The largest bytes object the process can allocate. *)
Variable alloc_limit : Z.

(** [f.read(n)] on the bytes not read yet: the buffer returned and the
    bytes left, or the exception. *)
Definition read (n : Z) (rest : list byte) : list byte * list byte + read_error :=
  if ((n <? - PY_SSIZE_T_MAX - 1) || (PY_SSIZE_T_MAX <? n))%Z then inr ReadOverflowError
  else if (n <? -1)%Z then inr ReadValueError
  else if (n =? -1)%Z then
    if (alloc_limit <? Z.of_nat (length rest))%Z then inr ReadMemoryError
    else inl (rest, [])
  else if (n =? 0)%Z then inl ([], rest)
  else if (alloc_limit <? n)%Z then inr ReadMemoryError
  else inl (firstn (Z.to_nat n) rest, skipn (Z.to_nat n) rest).

(** The [while len(buffer) > 0] loop; [None] when the iterations allowed
    by [fuel] do not reach its end. *)
Fixpoint sha1_loop (fuel : nat) (sha1 : sha1_state) (buffer rest : list byte)
    (buffer_size : Z) : option (sha1_state + read_error) :=
  match fuel with
  | O => None
  | S fuel' =>
      if (0 <? length buffer)%nat then
        let sha1' := sha1_update sha1 buffer in
        match read buffer_size rest with
        | inl (buffer', rest') => sha1_loop fuel' sha1' buffer' rest' buffer_size
        | inr e => Some (inr e)
        end
      else Some (inl sha1)
  end.

(** [sha1_hash(path, buffer_size)] over the readable files [fs]; the loop
    is allowed one iteration per byte of the file and one more. *)
Definition sha1_hash (fs : dict (list byte)) (path : string) (buffer_size : Z)
  : hash_outcome :=
  match dict_get path fs with
  | None => FileNotFoundError
  | Some content =>
      match read buffer_size content with
      | inr e => ReadError e
      | inl (buffer, rest) =>
          match sha1_loop (S (length content)) sha1_new buffer rest buffer_size with
          | Some (inl sha1) => Digest (sha1_hexdigest sha1)
          | Some (inr e) => ReadError e
          | None => OutOfFuel
          end
      end
  end.

(** The default [buffer_size=64 * 2 ** 10]. *)
Definition default_buffer_size : Z := 64 * 2 ^ 10.

End Hashlib.

(** *** Invariants of the catalogs *)

(** Every row of every catalog carries the name of its catalog in the
    source column. *)
Definition tagged (catalogs : dict Catalog) : Prop :=
  forall k c, In (k, c) catalogs ->
  forall r, In r (rows c) -> lookup_source r = k.

(** The stimulus-set rows of one identifier in one catalog that the
    duplicate check of [append] lets through: none, one, or two of which
    one passes [_is_csv_lookup] and the other [_is_zip_lookup]. *)
Definition stimulus_rows_ok (l : list Row) : bool :=
  match l with
  | [] => true
  | [_] => true
  | [a; b] => (_is_csv_lookup a && _is_zip_lookup b) ||
              (_is_zip_lookup a && _is_csv_lookup b)
  | _ :: _ :: _ :: _ => false
  end.

(** A catalog holds, for every identifier, at most one assembly row and
    stimulus-set rows as [stimulus_rows_ok] allows. *)
Definition catalog_consistent (c : Catalog) : Prop :=
  forall identifier0,
    (length (candidates identifier0 TYPE_ASSEMBLY (rows c)) <= 1)%nat /\
    stimulus_rows_ok (candidates identifier0 TYPE_STIMULUS_SET (rows c)) = true.


(** The two representations of a stimulus set in the words of the
    specification: the table is the record with a delimited-text location
    and a class, the archive the record with a compressed-archive location
    and no class, a class being a class name.  They are what
    [_is_csv_lookup] and [_is_zip_lookup] compute on every row whose class
    is not [ClassNaN]. *)
Definition has_class (r : Row) : bool :=
  match class r with
  | ClassName _ => true
  | ClassNone | ClassNaN => false
  end.

Definition table_with_class (r : Row) : bool :=
  (lookup_type r =? TYPE_STIMULUS_SET) && endswith (location r) ".csv" &&
  has_class r.

Definition archive_without_class (r : Row) : bool :=
  (lookup_type r =? TYPE_STIMULUS_SET) && endswith (location r) ".zip" &&
  negb (has_class r).

(** The rows of the given lookup type. *)
Definition rows_of_type (t : string) (d : list Row) : list Row :=
  filter (fun r => lookup_type r =? t) d.

(** The cached merged view, when there is one, is the concatenation of the
    catalogs held in [_catalogs]. *)
Definition cache_coherent (st : State) : Prop :=
  forall d, _concat_catalogs st = Some d ->
    _catalogs st <> [] /\ d = concat (map rows (dict_values (_catalogs st))).


End Lookup.

(** ** The leveled array engine

    [brainio/assemblies.py] is exercised by [tests/test_assemblies.py]; the
    definitions of this module follow the specification's description of the
    engine (sections 3, 4.3 and 4.4). *)

Module Assemblies.

Open Scope nat_scope.

(** Coordinate values of the tests: strings and integers. *)
Inductive value :=
| VStr (s : string)
| VInt (z : Z).

Definition value_eqb (u v : value) : bool :=
  match u, v with
  | VStr a, VStr b => String.eqb a b
  | VInt a, VInt b => Z.eqb a b
  | _, _ => false
  end.

(** A coordinate: its name, the dimension it is bound to ([None] for a
    constant attached to the whole array), its values along that dimension,
    and whether it takes part in the index of its dimension. *)
Record Coord := mkCoord {
  cname : string;
  cdim : option string;
  cvalues : list value;
  indexed : bool
}.

(** A labeled dense array: dimension names in order, the extent of each,
    the cell at each position, and the coordinates in declaration order. *)
Record Assembly := mkAssembly {
  dims : list string;
  shape : list nat;
  values : list nat -> Q;
  coords : list Coord
}.

Fixpoint index_of {A} (eqb : A -> A -> bool) (x : A) (l : list A) : nat :=
  match l with
  | [] => 0
  | y :: t => if eqb y x then 0 else S (index_of eqb x t)
  end.

Definition axis_of (a : Assembly) (d : string) : nat :=
  index_of String.eqb d (dims a).

Definition extent (a : Assembly) (d : string) : nat :=
  nth (axis_of a d) (shape a) 0.

Definition has_dim (a : Assembly) (d : string) : bool :=
  existsb (String.eqb d) (dims a).

Definition find_coord (a : Assembly) (name : string) : option Coord :=
  find (fun c => cname c =? name)%string (coords a).

Definition on_dim (d : string) (c : Coord) : bool :=
  option_eqb String.eqb (cdim c) (Some d).

(** A coordinate is 1:1 with its dimension when that dimension exists and
    the coordinate has one value per element of it. *)
Definition one_to_one (a : Assembly) (c : Coord) : bool :=
  match cdim c with
  | Some d => has_dim a d && (length (cvalues c) =? extent a d)
  | None => false
  end.

(** All positions of an array of the given shape, in row-major order. *)
Fixpoint all_indexes (sh : list nat) : list (list nat) :=
  match sh with
  | [] => [[]]
  | n :: sh' => flat_map (fun i => map (cons i) (all_indexes sh')) (seq 0 n)
  end.

Fixpoint in_range (sh p : list nat) : bool :=
  match sh, p with
  | [], [] => true
  | n :: sh', i :: p' => (i <? n) && in_range sh' p'
  | _, _ => false
  end.

Fixpoint set_nth {A} (k : nat) (x : A) (l : list A) : list A :=
  match l, k with
  | [], _ => []
  | _ :: t, 0 => x :: t
  | y :: t, S k' => y :: set_nth k' x t
  end.

(** Structural and value equality of two arrays ([equals] of the tests). *)
Definition equals (a b : Assembly) : Prop :=
  dims a = dims b /\ shape a = shape b /\ coords a = coords b /\
  forall p, in_range (shape a) p = true -> values a p == values b p.

Definition coord_eqb (c1 c2 : Coord) : bool :=
  (cname c1 =? cname c2)%string &&
  option_eqb String.eqb (cdim c1) (cdim c2) &&
  (length (cvalues c1) =? length (cvalues c2)) &&
  forallb (fun uv => value_eqb (fst uv) (snd uv)) (combine (cvalues c1) (cvalues c2)) &&
  Bool.eqb (indexed c1) (indexed c2).

Definition equalsb (a b : Assembly) : bool :=
  (length (dims a) =? length (dims b)) &&
  forallb (fun xy => (fst xy =? snd xy)%string) (combine (dims a) (dims b)) &&
  (length (shape a) =? length (shape b)) &&
  forallb (fun xy => fst xy =? snd xy) (combine (shape a) (shape b)) &&
  (length (coords a) =? length (coords b)) &&
  forallb (fun xy => coord_eqb (fst xy) (snd xy)) (combine (coords a) (coords b)) &&
  forallb (fun p => Qeq_bool (values a p) (values b p)) (all_indexes (shape a)).

(** *** Construction *)

(** The cells of a one- and of a two-dimensional array given as nested
    lists. *)
Definition cells1 (l : list Q) : list nat -> Q :=
  fun p => match p with
           | [i] => nth i l 0%Q
           | _ => 0%Q
           end.

Definition cells2 (l : list (list Q)) : list nat -> Q :=
  fun p => match p with
           | [i; j] => nth j (nth i l []) 0%Q
           | _ => 0%Q
           end.

(** [DataArray(data, coords, dims)]: a coordinate named after its dimension
    is that dimension's index, the others are plain coordinates. *)
Definition DataArray (sh : list nat) (cells : list nat -> Q)
    (cs : list (string * (option string * list value))) (ds : list string)
  : Assembly :=
  {| dims := ds;
     shape := sh;
     values := cells;
     coords := map (fun c => mkCoord (fst c) (fst (snd c)) (snd (snd c))
                                     (option_eqb String.eqb (fst (snd c)) (Some (fst c))))
                   cs |}.

(** Modelled from the spec: [gather_indexes] of [brainio/assemblies.py]
    (the spec's [gather_levels]), which is not among the sources.  Every
    coordinate that is 1:1 with a dimension joins the index of that
    dimension; nothing else changes, and the declaration order of the
    coordinates is kept. *)
Definition gather_indexes (a : Assembly) : Assembly :=
  {| dims := dims a;
     shape := shape a;
     values := values a;
     coords := map (fun c => if one_to_one a c
                             then mkCoord (cname c) (cdim c) (cvalues c) true
                             else c)
                   (coords a) |}.

(** Modelled from the spec: the [level_names] of a dimension (the spec's
    [levels_of]), which [brainio/assemblies.py] takes from the index and
    which is not among the sources.  The indexed coordinates of the
    dimension in declaration order when there are several of them; a
    dimension with a single indexed coordinate has a plain index and no
    levels. *)
Definition levels_of (a : Assembly) (d : string) : list string :=
  let ls := map cname (filter (fun c => indexed c && on_dim d c) (coords a)) in
  if 2 <=? length ls then ls else [].

(** Modelled from the spec: [get_levels] of [brainio/assemblies.py], not
    among the sources: the levels of every dimension. *)
Definition get_levels (a : Assembly) : list string :=
  flat_map (levels_of a) (dims a).

(** Modelled from the spec: the [DataAssembly] constructor of
    [brainio/assemblies.py], not among the sources, which gathers the
    indexes of the array it wraps. *)
Definition DataAssembly (sh : list nat) (cells : list nat -> Q)
    (cs : list (string * (option string * list value))) (ds : list string)
  : Assembly :=
  gather_indexes (DataArray sh cells cs ds).

Definition default_value : value := VInt 0.

(** The sub-array at the positions [pos] of dimension [d], with the
    coordinates of [d] restricted to them. *)
Definition take (a : Assembly) (d : string) (pos : list nat) : Assembly :=
  let k := axis_of a d in
  {| dims := dims a;
     shape := set_nth k (length pos) (shape a);
     values := fun p => values a (set_nth k (nth (nth k p 0) pos 0) p);
     coords := map (fun c => if on_dim d c
                             then mkCoord (cname c) (cdim c)
                                    (map (fun i => nth i (cvalues c) default_value) pos)
                                    (indexed c)
                             else c)
                   (coords a) |}.

(** Modelled from the spec: selection by a coordinate or level name ([sel],
    the spec's [select]), not among the sources.  The name must belong to
    the index of a dimension; the result keeps the elements whose value on
    it equals the query, and no such element is a keyed-lookup failure. *)
Definition sel (a : Assembly) (name : string) (v : value) : result Assembly :=
  match find_coord a name with
  | None => Raise (KeyError name)
  | Some c =>
      match cdim c with
      | None => Raise (KeyError name)
      | Some d =>
          if indexed c then
            match filter (fun i => value_eqb (nth i (cvalues c) default_value) v)
                         (seq 0 (length (cvalues c))) with
            | [] => Raise (KeyError name)
            | pos => Ok (take a d pos)
            end
          else Raise (KeyError name)
      end
  end.

(** *** Grouping *)

(** The value of coordinate [name] at position [i] of its dimension. *)
Definition coord_at (a : Assembly) (name : string) (i : nat) : value :=
  match find_coord a name with
  | Some c => nth i (cvalues c) default_value
  | None => default_value
  end.

Definition lives_on (a : Assembly) (d : string) (name : string) : bool :=
  match find_coord a name with
  | Some c => on_dim d c
  | None => false
  end.

(** Two positions are in one group when all named coordinates are
    identical on them. *)
Definition same_key (a : Assembly) (names : list string) (i j : nat) : bool :=
  forallb (fun name => value_eqb (coord_at a name i) (coord_at a name j)) names.

(** The group of position [i] of dimension [d] (of extent [n]): the
    positions that agree with [i] on the names living on [d]. *)
Definition group_of (a : Assembly) (names : list string) (d : string) (n i : nat)
  : list nat :=
  filter (same_key a (filter (lives_on a d) names) i) (seq 0 n).

(** The first position of every group of dimension [d], in order of first
    occurrence. *)
Definition group_firsts (a : Assembly) (names : list string) (d : string) (n : nat)
  : list nat :=
  filter (fun i => negb (existsb (same_key a (filter (lives_on a d) names) i) (seq 0 i)))
         (seq 0 n).

(** The object [multi_groupby] returns: the array and the grouping names,
    waiting for a reduction. *)
Record GroupbyBridge := mkBridge {
  gb_assembly : Assembly;
  gb_names : list string
}.

(** Modelled from the spec: [multi_groupby] of [brainio/assemblies.py] (the
    spec's [group_by]), not among the sources. *)
Definition multi_groupby (a : Assembly) (names : list string) : GroupbyBridge :=
  {| gb_assembly := a; gb_names := names |}.

(** The dimension all grouping names live on. *)
Definition grouping_dim (a : Assembly) (names : list string) : result string :=
  match names with
  | [] => Raise (ValueError "no grouping names")
  | _ :: _ =>
      match find (fun d => forallb (lives_on a d) names) (dims a) with
      | Some d => Ok d
      | None => Raise (KeyError "grouping names")
      end
  end.

Definition mem_nat (i : nat) (l : list nat) : bool :=
  existsb (Nat.eqb i) l.

Definition mem (name : string) (names : list string) : bool :=
  existsb (String.eqb name) names.

(** The coordinates of a reduced array: on the grouped dimension the named
    coordinates, holding the key of each group and indexed; the other
    coordinates are kept when [keep_others] and they are bound to another
    dimension, constants always. *)
Definition reduced_coords (a : Assembly) (names : list string) (d : string)
    (firsts : list nat) (keep_others : bool) : list Coord :=
  flat_map (fun c =>
              match cdim c with
              | None => [c]
              | Some dc =>
                  if (dc =? d)%string then
                    if mem (cname c) names
                    then [mkCoord (cname c) (cdim c)
                            (map (fun i => nth i (cvalues c) default_value) firsts) true]
                    else []
                  else if keep_others then [c] else []
              end)
           (coords a).

(** Modelled from the spec: the reduction of a grouped array ([reduce] of
    the spec; [mean] and its relatives on the tests' [GroupbyBridge]), not
    among the sources.  The groups are taken in order of first occurrence.
    With [dim] the grouped dimension, each group is reduced along it; with
    no [dim], each group is reduced as a whole.  One output element per
    group along the grouped dimension. *)
Definition reduce (g : GroupbyBridge) (reduction : list Q -> Q) (dim : option string)
  : result Assembly :=
  let a := gb_assembly g in
  let names := gb_names g in
  match grouping_dim a names with
  | Raise e => Raise e
  | Ok d =>
      let k := axis_of a d in
      let n := extent a d in
      let firsts := group_firsts a names d n in
      let members := fun gi => group_of a names d n (nth gi firsts 0) in
      match dim with
      | Some d' =>
          if (d' =? d)%string then
            Ok {| dims := dims a;
                  shape := set_nth k (length firsts) (shape a);
                  values := fun p =>
                    reduction (map (fun i => values a (set_nth k i p))
                                   (members (nth k p 0)));
                  coords := reduced_coords a names d firsts true |}
          else Raise (ValueError "reduction over a dimension that is not grouped")
      | None =>
          Ok {| dims := [d];
                shape := [length firsts];
                values := fun p =>
                  reduction (map (values a)
                                 (filter (fun q => mem_nat (nth k q 0) (members (nth 0 p 0)))
                                         (all_indexes (shape a))));
                coords := reduced_coords a names d firsts false |}
      end
  end.

(** The arithmetic mean, in lowest terms. *)
Definition mean_of (l : list Q) : Q :=
  Qred (fold_right Qplus 0%Q l / inject_Z (Z.of_nat (length l))).

(** [bridge.mean(dim=...)] *)
Definition mean (g : GroupbyBridge) (dim : option string) : result Assembly :=
  reduce g mean_of dim.

(** A name can be grouped by when it is a coordinate bound to a dimension
    of the array. *)
Definition is_dim_coord (a : Assembly) (name : string) : bool :=
  match find_coord a name with
  | Some c =>
      match cdim c with
      | Some d => has_dim a d
      | None => false
      end
  | None => false
  end.

(** The group of every component of position [p], dimension by dimension. *)
Fixpoint groups_at (a : Assembly) (names : list string)
    (ds : list string) (sh p : list nat) : list (list nat) :=
  match ds, sh, p with
  | d :: ds', n :: sh', i :: p' =>
      group_of a names d n i :: groups_at a names ds' sh' p'
  | _, _, _ => []
  end.

(** The position in the whole array of position [q] of the sub-array cut
    out by the groups [gs]. *)
Fixpoint global_index (gs : list (list nat)) (q : list nat) : list nat :=
  match gs, q with
  | g :: gs', j :: q' => nth j g 0 :: global_index gs' q'
  | _, _ => []
  end.

(** The position inside the sub-array cut out by [gs] of position [p] of
    the whole array. *)
Fixpoint local_index (gs : list (list nat)) (p : list nat) : list nat :=
  match gs, p with
  | g :: gs', i :: p' => index_of Nat.eqb i g :: local_index gs' p'
  | _, _ => []
  end.

(** The label-aware sub-array of the groups [gs]: its cells and, for every
    coordinate bound to a dimension, the values at the group's positions. *)
Definition group_array (a : Assembly) (gs : list (list nat)) : Assembly :=
  {| dims := dims a;
     shape := map (@length nat) gs;
     values := fun q => values a (global_index gs q);
     coords := map (fun c =>
                      match cdim c with
                      | Some d =>
                          mkCoord (cname c) (cdim c)
                            (map (fun i => nth i (cvalues c) default_value)
                                 (nth (axis_of a d) gs []))
                            (indexed c)
                      | None => c
                      end)
                   (coords a) |}.

(** The coordinates [multi_dim_apply] keeps: constants and the coordinates
    of every dimension, except that a dimension grouped by several of its
    levels keeps exactly those levels. *)
Definition kept_coord (a : Assembly) (names : list string) (c : Coord) : bool :=
  match cdim c with
  | None => true
  | Some d =>
      if 2 <=? length (filter (lives_on a d) names)
      then mem (cname c) names
      else true
  end.

(** Modelled from the spec: [multi_dim_apply] of [brainio/assemblies.py],
    not among the sources.  The array is partitioned, along every dimension,
    into the groups of positions on which the names living on that dimension
    agree; the function is applied to the label-aware sub-array of every
    combination of groups, and each cell of the output is the cell at the
    same place in the result for its group.  Dimensions keep their order
    and extent. *)
Definition multi_dim_apply (a : Assembly) (names : list string)
    (apply : Assembly -> Assembly) : result Assembly :=
  match find (fun name => negb (is_dim_coord a name)) names with
  | Some name => Raise (KeyError name)
  | None =>
      Ok {| dims := dims a;
            shape := shape a;
            values := fun p =>
              let gs := groups_at a names (dims a) (shape a) p in
              values (apply (group_array a gs)) (local_index gs p);
            coords := filter (kept_coord a names) (coords a) |}
  end.

(** A well-formed array: one extent per dimension, no dimension named
    twice, and every coordinate bound to a dimension is 1:1 with it. *)
Definition well_formed (a : Assembly) : Prop :=
  length (dims a) = length (shape a) /\
  NoDup (dims a) /\
  forall c, In c (coords a) -> cdim c <> None -> one_to_one a c = true.

End Assemblies.

(** ** Concrete catalogs and arrays

    The inputs the properties below are exercised on: small catalogs in the
    shape of the brainio lookups, and the arrays of
    [tests/test_assemblies.py]. *)

Module Examples.

Import Lookup.

Definition hvm_identifier : string := "dicarlo.MajajHong2015.public".

(** The assembly record of [hvm_identifier] as a loader returns it, with
    the given content hash. *)
Definition hvm_row (sha : string) : Row :=
  {| identifier := hvm_identifier;
     lookup_type := TYPE_ASSEMBLY;
     class := ClassName "NeuronRecordingAssembly";
     location_type := "S3";
     location := "https://brainio.dicarlo.s3.amazonaws.com/assy_dicarlo_MajajHong2015_public.nc";
     sha1 := sha;
     stimulus_set_identifier := Some "dicarlo.hvm-public";
     lookup_source := "" |}.

Definition hvm_csv_row : Row :=
  {| identifier := "dicarlo.hvm-public";
     lookup_type := TYPE_STIMULUS_SET;
     class := ClassName "StimulusSet";
     location_type := "S3";
     location := "https://brainio.dicarlo.s3.amazonaws.com/image_dicarlo_hvm-public.csv";
     sha1 := "5ca7a3da00d8e9c694a9cd725df5ba0ad6d735af";
     stimulus_set_identifier := None;
     lookup_source := "" |}.

Definition hvm_zip_row : Row :=
  {| identifier := "dicarlo.hvm-public";
     lookup_type := TYPE_STIMULUS_SET;
     class := ClassNone;
     location_type := "S3";
     location := "https://brainio.dicarlo.s3.amazonaws.com/image_dicarlo_hvm-public.zip";
     sha1 := "8aa44e038d7b551efa8077467622f9d48d72e473";
     stimulus_set_identifier := None;
     lookup_source := "" |}.

(** Two catalogs that register the same logical assembly record; the first
    also holds both representations of a stimulus set. *)
Definition shared_entrypoints : dict Catalog :=
  [("brainio_dicarlo",
    mkCatalog [hvm_row "13d28ca0ce88ee550b54db3004374ae19096e9b9"; hvm_csv_row; hvm_zip_row]
              (Some "/lookups/dicarlo.csv"));
   ("brainio_contrib",
    mkCatalog [hvm_row "13d28ca0ce88ee550b54db3004374ae19096e9b9"]
              (Some "/lookups/contrib.csv"))].

(** A catalog holding the assembly record, and an empty second catalog. *)
Definition two_entrypoints : dict Catalog :=
  [("brainio_dicarlo",
    mkCatalog [hvm_row "13d28ca0ce88ee550b54db3004374ae19096e9b9"]
              (Some "/lookups/dicarlo.csv"));
   ("brainio_contrib", mkCatalog [] (Some "/lookups/contrib.csv"))].

(** The module's globals before anything is loaded. *)
Definition initial : State := mkState [] None [].

(** [append] of a different record under the identifier that
    [brainio_dicarlo] already registers, into [brainio_contrib]. *)
Definition append_conflicting : M unit :=
  append two_entrypoints "brainio_contrib" hvm_identifier
         (ClassName "NeuronRecordingAssembly") TYPE_ASSEMBLY
         "brainio.contrib" "ffffffffffffffffffffffffffffffffffffffff"
         "assy_other.nc" None.

(** [append] of the table representation of a new stimulus set. *)
Definition append_table : M unit :=
  append two_entrypoints "brainio_contrib" "contrib.images"
         (ClassName "StimulusSet") TYPE_STIMULUS_SET
         "brainio.contrib" "0123456789012345678901234567890123456789"
         "image_contrib_images.csv" None.

(** [append] of a new assembly. *)
Definition append_new_assembly : M unit :=
  append two_entrypoints "brainio_contrib" "contrib.Recording2020"
         (ClassName "NeuronRecordingAssembly") TYPE_ASSEMBLY
         "brainio.contrib" "abcdefabcdefabcdefabcdefabcdefabcdefabcd"
         "assy_contrib_Recording2020.nc" (Some "contrib.images").

(** [append] into a catalog that does not exist. *)
Definition append_unknown : M unit :=
  append two_entrypoints "brainio_missing" "contrib.Recording2020"
         (ClassName "NeuronRecordingAssembly") TYPE_ASSEMBLY
         "brainio.contrib" "abcdefabcdefabcdefabcdefabcdefabcdefabcd"
         "assy_contrib_Recording2020.nc" None.

(** [append] of the archive representation of the same stimulus set. *)
Definition append_archive : M unit :=
  append two_entrypoints "brainio_contrib" "contrib.images"
         ClassNone TYPE_STIMULUS_SET
         "brainio.contrib" "9876543210987654321098765432109876543210"
         "image_contrib_images.zip" None.

(** [append] of a stimulus-set record that is neither a table nor an
    archive. *)
Definition append_notes : M unit :=
  append two_entrypoints "brainio_contrib" "contrib.images"
         (ClassName "StimulusSet") TYPE_STIMULUS_SET
         "brainio.contrib" "5555555555555555555555555555555555555555"
         "image_contrib_images.txt" None.

(** [append], into [brainio_contrib], of a table for the stimulus set of
    which [brainio_dicarlo] registers another table. *)
Definition append_conflicting_table : M unit :=
  append shared_entrypoints "brainio_contrib" "dicarlo.hvm-public"
         (ClassName "StimulusSet") TYPE_STIMULUS_SET
         "brainio.contrib" "ffffffffffffffffffffffffffffffffffffffff"
         "image_dicarlo_hvm-public.csv" None.

(** A catalog as a loader reads it from a file in which no row has a
    class: the class column is a float column and each of its cells a NaN
    that is not the object [np.nan]. *)
Definition classless_row (key : string) : Row :=
  {| identifier := "contrib.images";
     lookup_type := TYPE_STIMULUS_SET;
     class := ClassNaN;
     location_type := "S3";
     location := "https://brainio.contrib.s3.amazonaws.com/" ++ key;
     sha1 := "0123456789012345678901234567890123456789";
     stimulus_set_identifier := None;
     lookup_source := "" |}.

(** The file holds a row under a .csv key and a row under a .zip key. *)
Definition classless_entrypoints : dict Catalog :=
  [("brainio_contrib",
    mkCatalog [classless_row "image_contrib_images.csv";
               classless_row "image_contrib_images.zip"]
              (Some "/lookups/contrib.csv"))].

(** The file holds the archive alone, as [append] of the archive wrote
    it in an earlier process. *)
Definition archive_only_entrypoints : dict Catalog :=
  [("brainio_contrib",
    mkCatalog [classless_row "image_contrib_images.zip"]
              (Some "/lookups/contrib.csv"))].

Import Assemblies.

Definition q (z : Z) : Q := inject_Z z.

Definition six_rows : list (list Q) :=
  map (map q) [[1; 2; 3]; [4; 5; 6]; [7; 8; 9]; [10; 11; 12]; [13; 14; 15]; [16; 17; 18]]%Z.

Definition up_down_coords : list (string * (option string * list value)) :=
  [("up", (Some "a", map VStr ["alpha"; "alpha"; "beta"; "beta"; "beta"; "beta"]));
   ("down", (Some "a", map VInt [1; 1; 1; 1; 2; 2]%Z));
   ("sideways", (Some "b", map VStr ["x"; "y"; "z"]))].

(** The array of [test_get_levels] and [test_two_coord]. *)
Definition assy : Assembly :=
  DataAssembly [6; 3]%nat (cells2 six_rows) up_down_coords ["a"; "b"].

(** The same array as a plain [DataArray] ([test_wrap_dataarray]). *)
Definition da : Assembly :=
  DataArray [6; 3]%nat (cells2 six_rows) up_down_coords ["a"; "b"].

(** [assy_2] of [test_two_coord]. *)
Definition assy_2 : Assembly :=
  DataAssembly [3; 3]%nat
    (cells2 [[5 # 2; 7 # 2; 9 # 2]; [17 # 2; 19 # 2; 21 # 2]; [29 # 2; 31 # 2; 33 # 2]])
    [("up", (Some "a", map VStr ["alpha"; "beta"; "beta"]));
     ("down", (Some "a", map VInt [1; 1; 2]%Z));
     ("sideways", (Some "b", map VStr ["x"; "y"; "z"]))]
    ["a"; "b"].

Definition four_rows : list (list Q) :=
  map (map q) [[1; 2; 3]; [4; 5; 6]; [7; 8; 9]; [10; 11; 12]]%Z.

(** The array of [test_nonindex_coord]: [c] has no index values. *)
Definition d_remnant : Assembly :=
  DataAssembly [4; 3]%nat (cells2 four_rows)
    [("a", (Some "a", map VStr ["a"; "b"; "c"; "d"]));
     ("b", (Some "b", map VStr ["x"; "y"; "z"]));
     ("c", (None, [VStr "remnant"]))]
    ["a"; "b"].

End Examples.

(** * Properties of the catalog lookup *)

Section LookupFacts.
Import Lookup.

Lemma boolean_index_map (p : Row -> bool) (df : list Row) :
  boolean_index df (map p df) = filter p df.
Proof.
  induction df as [|r df IH]; simpl; [reflexivity|].
  rewrite IH. reflexivity.
Qed.

Lemma mask_and_map (p q : Row -> bool) (df : list Row) :
  mask_and (map p df) (map q df) = map (fun r => p r && q r) df.
Proof.
  induction df as [|r df IH]; simpl; congruence.
Qed.

Lemma option_eqb_string_eq (x y : option string) :
  option_eqb String.eqb x y = true <-> x = y.
Proof.
  destruct x as [a|], y as [b|]; simpl; split; intros H;
    try discriminate; try reflexivity.
  - apply String.eqb_eq in H. congruence.
  - inversion H. apply String.eqb_refl.
Qed.

Lemma class_cell_eqb_refl c : class_cell_eqb c c = true.
Proof. destruct c; simpl; auto using String.eqb_refl. Qed.

Lemma class_cell_eqb_sym c1 c2 :
  class_cell_eqb c1 c2 = true -> class_cell_eqb c2 c1 = true.
Proof.
  destruct c1, c2; simpl; auto. rewrite !String.eqb_eq. congruence.
Qed.

Lemma class_cell_eqb_trans c1 c2 c3 :
  class_cell_eqb c1 c2 = true -> class_cell_eqb c2 c3 = true ->
  class_cell_eqb c1 c3 = true.
Proof.
  destruct c1, c2, c3; simpl; auto; try discriminate.
  rewrite !String.eqb_eq. congruence.
Qed.

(** [same_record] is agreement on the seven columns other than the
    source, two missing classes agreeing whatever their kind. *)
Lemma same_record_iff (r1 r2 : Row) :
  same_record r1 r2 = true <->
  identifier r1 = identifier r2 /\ lookup_type r1 = lookup_type r2 /\
  class_cell_eqb (class r1) (class r2) = true /\
  location_type r1 = location_type r2 /\
  location r1 = location r2 /\ sha1 r1 = sha1 r2 /\
  stimulus_set_identifier r1 = stimulus_set_identifier r2.
Proof.
  unfold same_record.
  rewrite !andb_true_iff, !String.eqb_eq, !option_eqb_string_eq.
  tauto.
Qed.

Lemma same_record_refl r : same_record r r = true.
Proof. apply same_record_iff. repeat split. apply class_cell_eqb_refl. Qed.

Lemma same_record_sym r1 r2 :
  same_record r1 r2 = true -> same_record r2 r1 = true.
Proof.
  rewrite !same_record_iff. intros (H1 & H2 & H3 & H4 & H5 & H6 & H7).
  apply class_cell_eqb_sym in H3. intuition congruence.
Qed.

Lemma same_record_trans r1 r2 r3 :
  same_record r1 r2 = true -> same_record r2 r3 = true ->
  same_record r1 r3 = true.
Proof.
  rewrite !same_record_iff.
  intros (H1 & H2 & H3 & H4 & H5 & H6 & H7) (G1 & G2 & G3 & G4 & G5 & G6 & G7).
  pose proof (class_cell_eqb_trans _ _ _ H3 G3). intuition congruence.
Qed.

(** Every row of a frame is represented in its duplicate-free frame. *)
Lemma drop_duplicates_from_covers (df seen : list Row) (x : Row) :
  In x df ->
  existsb (same_record x) seen = true \/
  exists y, In y (drop_duplicates_from seen df) /\ same_record x y = true.
Proof.
  revert seen. induction df as [|r df IH]; intros seen Hin; [destruct Hin|].
  simpl. destruct Hin as [->|Hin].
  - destruct (existsb (same_record x) seen) eqn:E; [now left|].
    right. exists x. split; [now left | apply same_record_refl].
  - destruct (existsb (same_record r) seen) eqn:E.
    + apply IH; assumption.
    + destruct (IH (r :: seen) Hin) as [H|[y [Hy Hs]]].
      * simpl in H. apply orb_true_iff in H. destruct H as [H|H].
        -- right. exists r. split; [now left | assumption].
        -- now left.
      * right. exists y. split; [now right | assumption].
Qed.

Lemma drop_duplicates_covers (df : list Row) (x : Row) :
  In x df ->
  exists y, In y (drop_duplicates df) /\ same_record x y = true.
Proof.
  intros H. destruct (drop_duplicates_from_covers df [] x H) as [E|E];
    [discriminate | exact E].
Qed.

Lemma drop_duplicates_nonempty (df : list Row) :
  df <> [] -> drop_duplicates df <> [].
Proof.
  destruct df as [|r df]; [congruence|]. intros _. discriminate.
Qed.

(** Rows that all agree with an already seen row leave nothing. *)
Lemma drop_duplicates_from_all_seen (df seen : list Row) :
  (forall x, In x df -> existsb (same_record x) seen = true) ->
  drop_duplicates_from seen df = [].
Proof.
  induction df as [|r df IH]; intros H; simpl; [reflexivity|].
  rewrite (H r (or_introl eq_refl)). apply IH.
  intros x Hx. apply H. now right.
Qed.

(** Copies of one logical record collapse to the first of them. *)
Lemma drop_duplicates_copies (r : Row) (rest : list Row) :
  (forall x, In x rest -> same_record x r = true) ->
  drop_duplicates (r :: rest) = [r].
Proof.
  intros H. unfold drop_duplicates. simpl. f_equal.
  apply drop_duplicates_from_all_seen.
  intros x Hx. simpl. rewrite (H x Hx). reflexivity.
Qed.

(** What [drop_duplicates] keeps is in the frame, and differs from every
    row seen before it. *)
Lemma drop_duplicates_from_incl seen df x :
  In x (drop_duplicates_from seen df) -> In x df.
Proof.
  revert seen. induction df as [|r df IH]; intros seen; simpl; [auto|].
  destruct (existsb (same_record r) seen).
  - intros H. right. eapply IH; eassumption.
  - intros [H|H]; [now left|]. right. eapply IH; eassumption.
Qed.




(** No location ends both in .csv and in .zip. *)
Lemma endswith_csv_zip s :
  endswith s ".csv" = true -> endswith s ".zip" = false.
Proof.
  unfold endswith. cbn [String.length].
  destruct (4 <=? String.length s)%nat; [|discriminate]. cbn [andb].
  intros H. apply String.eqb_eq in H. rewrite H. reflexivity.
Qed.

(** A table and an archive are different records: their locations
    differ. *)
Lemma csv_zip_distinct t z :
  _is_csv_lookup t = true -> _is_zip_lookup z = true -> same_record t z = false.
Proof.
  unfold _is_csv_lookup, _is_zip_lookup. rewrite !andb_true_iff.
  intros [[_ Ht] _] [[_ Hz] _].
  destruct (same_record t z) eqn:E; [|reflexivity].
  apply same_record_iff in E. destruct E as (_ & _ & _ & _ & El & _).
  rewrite El in Ht. apply endswith_csv_zip in Ht. congruence.
Qed.

Lemma csv_zip_exclusive r :
  _is_csv_lookup r = true -> _is_zip_lookup r = false.
Proof.
  unfold _is_csv_lookup, _is_zip_lookup.
  destruct (in_none_nan (class r)); rewrite ?andb_false_r;
    [discriminate | reflexivity].
Qed.


Variable entrypoints : dict Catalog.

(** The merged view, once computed, is served from the cache. *)
Lemma data_cached st d st1 :
  data entrypoints st = (Ok d, st1) ->
  _concat_catalogs st1 = Some d /\ data entrypoints st1 = (Ok d, st1).
Proof.
  unfold data. destruct (_concat_catalogs st) as [c|] eqn:Ec.
  - intros H. inversion H; subst. rewrite Ec. auto.
  - unfold bind, get_catalogs, lift.
    destruct (_catalogs st) as [|kv cs] eqn:Es;
      [destruct (pd_concat (dict_values (get_lookups entrypoints))) eqn:Ep
      |destruct (pd_concat (dict_values (kv :: cs))) eqn:Ep];
      simpl; intros H; inversion H; subst; simpl; auto.
Qed.

Lemma select_lookup_ok st d st1 identifier0 t :
  data entrypoints st = (Ok d, st1) ->
  select_lookup entrypoints identifier0 t st = (Ok (candidates identifier0 t d), st1).
Proof.
  intros H. destruct (data_cached _ _ _ H) as [_ H1].
  unfold select_lookup, bind. rewrite H, H1, H1. unfold ret.
  rewrite mask_and_map, boolean_index_map. reflexivity.
Qed.

Lemma candidates_identifier identifier0 t d r :
  In r (candidates identifier0 t d) ->
  identifier r = identifier0 /\ lookup_type r = t.
Proof.
  unfold candidates. rewrite filter_In, andb_true_iff, !String.eqb_eq. tauto.
Qed.

Lemma select_lookup_raise st identifier0 t e st1 :
  data entrypoints st = (Raise e, st1) ->
  select_lookup entrypoints identifier0 t st = (Raise e, st1).
Proof. intros H. unfold select_lookup, bind. now rewrite H. Qed.

(** [lookup_assembly] once the merged view is there. *)
Lemma lookup_assembly_eq st identifier0 d st1 :
  data entrypoints st = (Ok d, st1) ->
  lookup_assembly entrypoints identifier0 st =
  (match candidates identifier0 TYPE_ASSEMBLY d with
   | [] => Raise (AssemblyLookupError ("assembly " ++ identifier0 ++ " not found"))
   | _ :: _ =>
       match drop_duplicates (candidates identifier0 TYPE_ASSEMBLY d) with
       | [r] => Ok r
       | [] => Raise AssertionError
       | _ :: _ :: _ =>
           Raise (RuntimeError
                    ("Internal data inconsistency: Found multiple lookup rows for identifier "
                       ++ identifier0))
       end
   end, st1).
Proof.
  intros H. unfold lookup_assembly, bind.
  rewrite (select_lookup_ok _ _ _ _ _ H).
  destruct (candidates identifier0 TYPE_ASSEMBLY d) as [|r0 rest]; [reflexivity|].
  destruct (drop_duplicates (r0 :: rest)) as [|a [|b l]]; reflexivity.
Qed.

(** [lookup_stimulus_set] once the merged view is there. *)
Lemma lookup_stimulus_set_eq st identifier0 d st1 :
  data entrypoints st = (Ok d, st1) ->
  lookup_stimulus_set entrypoints identifier0 st =
  (match candidates identifier0 TYPE_STIMULUS_SET d with
   | [] => Raise (StimulusSetLookupError ("stimulus_set " ++ identifier0 ++ " not found"))
   | _ :: _ =>
       match _lookup_stimulus_set_filtered
               (candidates identifier0 TYPE_STIMULUS_SET d) _is_csv_lookup "CSV" with
       | Raise e => Raise e
       | Ok csv_lookup =>
           match _lookup_stimulus_set_filtered
                   (candidates identifier0 TYPE_STIMULUS_SET d) _is_zip_lookup "zip" with
           | Raise e => Raise e
           | Ok zip_lookup => Ok (csv_lookup, zip_lookup)
           end
       end
   end, st1).
Proof.
  intros H. unfold lookup_stimulus_set, bind at 1.
  rewrite (select_lookup_ok _ _ _ _ _ H).
  destruct (candidates identifier0 TYPE_STIMULUS_SET d) as [|r0 rest]; [reflexivity|].
  unfold bind, lift, ret.
  destruct (_lookup_stimulus_set_filtered (r0 :: rest) _is_csv_lookup "CSV");
    [|reflexivity].
  destruct (_lookup_stimulus_set_filtered (r0 :: rest) _is_zip_lookup "zip");
    reflexivity.
Qed.



(** One representation of a stimulus set: the rows that pass the filter,
    without their duplicates. *)
Lemma _lookup_stimulus_set_filtered_eq lookup filter_func label identifier0 :
  (forall r, In r lookup -> identifier r = identifier0) ->
  lookup <> [] ->
  _lookup_stimulus_set_filtered lookup filter_func label =
  match drop_duplicates (filter filter_func lookup) with
  | [] => Raise (StimulusSetLookupError
                   (label ++ " for stimulus set " ++ identifier0 ++ " not found"))
  | [r] => Ok r
  | _ :: _ :: _ =>
      Raise (RuntimeError
               ("Internal data inconsistency: Found more than 2 lookup rows for stimulus_set "
                  ++ label ++ " for identifier " ++ identifier0))
  end.
Proof.
  intros Hid Hne. unfold _lookup_stimulus_set_filtered.
  rewrite boolean_index_map.
  destruct lookup as [|r0 rest]; [congruence|].
  rewrite (Hid r0 (or_introl eq_refl)). reflexivity.
Qed.

Lemma _lookup_stimulus_set_filtered_ok lookup filter_func label r :
  _lookup_stimulus_set_filtered lookup filter_func label = Ok r ->
  In r lookup /\ filter_func r = true /\
  drop_duplicates (filter filter_func lookup) = [r].
Proof.
  unfold _lookup_stimulus_set_filtered. rewrite boolean_index_map.
  destruct lookup as [|r0 rest]; [discriminate|].
  destruct (drop_duplicates (filter filter_func (r0 :: rest))) as [|a [|b l]] eqn:E;
    try discriminate.
  intros H. inversion H; subst a.
  assert (Hin : In r (filter filter_func (r0 :: rest))).
  { apply (drop_duplicates_from_incl [] _). unfold drop_duplicates in E.
    rewrite E. now left. }
  apply filter_In in Hin. tauto.
Qed.

(** A representation resolves when it is registered and all the rows that
    pass its filter are copies of one record. *)
Lemma representation_resolves lookup filter_func label identifier0 r0 :
  (forall r, In r lookup -> identifier r = identifier0) ->
  In r0 lookup -> filter_func r0 = true ->
  (forall x, In x lookup -> filter_func x = true -> same_record x r0 = true) ->
  exists r, _lookup_stimulus_set_filtered lookup filter_func label = Ok r /\
            In r lookup /\ filter_func r = true /\ same_record r r0 = true.
Proof.
  intros Hid Hin Hf Hall.
  assert (Hne : lookup <> []) by (intros E; rewrite E in Hin; destruct Hin).
  rewrite (_lookup_stimulus_set_filtered_eq _ _ _ identifier0 Hid Hne).
  assert (Hin' : In r0 (filter filter_func lookup)) by (apply filter_In; auto).
  assert (Hfl : forall x, In x (filter filter_func lookup) ->
                          In x lookup /\ filter_func x = true).
  { intros x Hx. now apply filter_In in Hx. }
  destruct (filter filter_func lookup) as [|r rest]; [destruct Hin'|].
  destruct (Hfl r (or_introl eq_refl)) as [Hrl Hrf].
  assert (Hrest : forall x, In x rest -> same_record x r = true).
  { intros x Hx. destruct (Hfl x (or_intror Hx)) as [Hxl Hxp].
    apply same_record_trans with r0; [now apply Hall|].
    apply same_record_sym. now apply Hall. }
  rewrite (drop_duplicates_copies _ _ Hrest).
  exists r. repeat split; auto.
Qed.

(** The record a representation resolves to stands for every row that
    passes its filter. *)
Lemma representation_covers lookup filter_func label r x :
  _lookup_stimulus_set_filtered lookup filter_func label = Ok r ->
  In x lookup -> filter_func x = true -> same_record x r = true.
Proof.
  intros H Hx Hf. apply _lookup_stimulus_set_filtered_ok in H.
  destruct H as (_ & _ & E).
  assert (Hin : In x (filter filter_func lookup)) by (apply filter_In; auto).
  destruct (drop_duplicates_covers _ _ Hin) as (y & Hy & Hs).
  rewrite E in Hy. destruct Hy as [<-|[]]. exact Hs.
Qed.

(** *** append *)

Lemma get_catalogs_spec st :
  exists catalogs,
    get_catalogs entrypoints st =
      (Ok catalogs, mkState catalogs (_concat_catalogs st) (files st)) /\
    (_catalogs st <> [] -> catalogs = _catalogs st) /\
    (_catalogs st = [] -> catalogs = get_lookups entrypoints).
Proof.
  unfold get_catalogs. destruct st as [cs cache fs]. simpl.
  destruct cs as [|kv cs].
  - exists (get_lookups entrypoints). repeat split; congruence.
  - exists (kv :: cs). repeat split; congruence.
Qed.

Lemma get_catalogs_state st catalogs st1 :
  get_catalogs entrypoints st = (Ok catalogs, st1) ->
  st1 = mkState catalogs (_concat_catalogs st) (files st).
Proof.
  destruct (get_catalogs_spec st) as (cs & E & _). rewrite E.
  intros H. inversion H. reflexivity.
Qed.

Lemma duplicates_of_candidates catalog object_lookup :
  duplicates_of catalog object_lookup =
  candidates (identifier object_lookup) (lookup_type object_lookup) (rows catalog).
Proof.
  unfold duplicates_of. rewrite mask_and_map, boolean_index_map. reflexivity.
Qed.

(** What [append] does once the catalog and its path are found and the
    lookup type passes the assertion. *)
Lemma append_eq st catalog_name object_identifier cls lookup_type0 bucket_name
      sha1_0 s3_key stimulus_set_identifier0 catalogs st1 catalog catalog_path :
  get_catalogs entrypoints st = (Ok catalogs, st1) ->
  dict_get catalog_name catalogs = Some catalog ->
  attrs_catalog_path catalog = Some catalog_path ->
  lookup_type0 = TYPE_ASSEMBLY \/ lookup_type0 = TYPE_STIMULUS_SET ->
  let object_lookup :=
    object_lookup_of catalog_name object_identifier cls lookup_type0 bucket_name
                     sha1_0 s3_key stimulus_set_identifier0 in
  append entrypoints catalog_name object_identifier cls lookup_type0 bucket_name
         sha1_0 s3_key stimulus_set_identifier0 st =
  match check_duplicates
          (candidates object_identifier lookup_type0 (rows catalog)) object_lookup with
  | Raise e => (Raise e, st1)
  | Ok _ =>
      (Ok tt,
       mkState (dict_set catalog_name
                  (mkCatalog (rows catalog ++ [object_lookup]) (attrs_catalog_path catalog))
                  catalogs)
               None
               (dict_set catalog_path
                  (to_csv columns (rows catalog ++ [object_lookup])) (files st)))
  end.
Proof.
  intros Hg Hc Hp Ht object_lookup.
  pose proof (get_catalogs_state _ _ _ Hg) as Hst.
  unfold append, bind at 1. rewrite Hg, Hc, Hp.
  assert (Ha : negb ((lookup_type0 =? TYPE_ASSEMBLY) || (lookup_type0 =? TYPE_STIMULUS_SET)) = false).
  { destruct Ht as [-> | ->]; reflexivity. }
  cbn [lookup_type object_lookup_of]. rewrite Ha.
  unfold bind, lift. rewrite duplicates_of_candidates.
  cbn [lookup_type identifier object_lookup_of]. fold object_lookup.
  destruct (check_duplicates _ object_lookup); [|reflexivity].
  subst st1. reflexivity.
Qed.

Lemma append_inv st catalog_name object_identifier cls lookup_type0 bucket_name
      sha1_0 s3_key stimulus_set_identifier0 r st' :
  append entrypoints catalog_name object_identifier cls lookup_type0 bucket_name
         sha1_0 s3_key stimulus_set_identifier0 st = (r, st') ->
  exists catalogs,
    get_catalogs entrypoints st =
      (Ok catalogs, mkState catalogs (_concat_catalogs st) (files st)) /\
    ((exists e, r = Raise e /\
                st' = mkState catalogs (_concat_catalogs st) (files st)) \/
     (exists catalog catalog_path,
        r = Ok tt /\
        dict_get catalog_name catalogs = Some catalog /\
        attrs_catalog_path catalog = Some catalog_path /\
        (lookup_type0 = TYPE_ASSEMBLY \/ lookup_type0 = TYPE_STIMULUS_SET))).
Proof.
  destruct (get_catalogs_spec st) as (catalogs & Hg & _).
  intros H. exists catalogs. split; [exact Hg|].
  destruct (dict_get catalog_name catalogs) as [catalog|] eqn:Hc.
  2:{ unfold append, bind in H. rewrite Hg, Hc in H. unfold raise in H.
      inversion H; subst. left. eauto. }
  destruct (attrs_catalog_path catalog) as [catalog_path|] eqn:Hp.
  2:{ unfold append, bind in H. rewrite Hg, Hc, Hp in H. unfold raise in H.
      inversion H; subst. left. eauto. }
  destruct ((lookup_type0 =? TYPE_ASSEMBLY) || (lookup_type0 =? TYPE_STIMULUS_SET))
    eqn:Ha.
  2:{ unfold append, bind in H. rewrite Hg, Hc, Hp in H.
      cbn [lookup_type object_lookup_of] in H. rewrite Ha in H.
      unfold raise in H. simpl in H. inversion H; subst. left. eauto. }
  assert (Ht : lookup_type0 = TYPE_ASSEMBLY \/ lookup_type0 = TYPE_STIMULUS_SET).
  { apply orb_true_iff in Ha. rewrite !String.eqb_eq in Ha. exact Ha. }
  rewrite (append_eq _ _ _ _ _ _ _ _ _ _ _ _ _ Hg Hc Hp Ht) in H.
  destruct (check_duplicates _ _) as [[]|e] in H; inversion H; subst.
  - right. exists catalog, catalog_path. auto.
  - left. eauto.
Qed.

(** The second part of a stimulus set: the one row already there and the
    new record are a table with a class and an archive without one. *)
Lemma check_duplicates_spec duplicates object_lookup :
  lookup_type object_lookup = TYPE_ASSEMBLY \/
  lookup_type object_lookup = TYPE_STIMULUS_SET ->
  (forall d, In d duplicates -> identifier d = identifier object_lookup) ->
  check_duplicates duplicates object_lookup =
  match duplicates with
  | [] => Ok tt
  | [d] =>
      if (_is_csv_lookup d && _is_zip_lookup object_lookup) ||
         (_is_zip_lookup d && _is_csv_lookup object_lookup)
      then Ok tt
      else Raise (ValueError (duplicate_msg (identifier object_lookup)))
  | _ :: _ :: _ => Raise (ValueError (duplicate_msg (identifier object_lookup)))
  end.
Proof.
  intros Ht Hid. unfold check_duplicates.
  destruct duplicates as [|d [|d' ds]]; [reflexivity| |].
  - simpl length. cbn [Nat.ltb Nat.leb].
    rewrite (Hid d (or_introl eq_refl)), String.eqb_refl.
    destruct Ht as [Ht|Ht].
    + assert (Hz : _is_zip_lookup object_lookup = false)
        by (unfold _is_zip_lookup; rewrite Ht; reflexivity).
      assert (Hv : _is_csv_lookup object_lookup = false)
        by (unfold _is_csv_lookup; rewrite Ht; reflexivity).
      rewrite Ht, Hz, Hv, !andb_false_r. reflexivity.
    + rewrite Ht. reflexivity.
  - simpl length. cbn [Nat.ltb Nat.leb].
    destruct Ht as [Ht|Ht]; rewrite Ht; reflexivity.
Qed.

Lemma _is_csv_lookup_table r :
  class r <> ClassNaN -> _is_csv_lookup r = table_with_class r.
Proof.
  unfold _is_csv_lookup, table_with_class, has_class.
  destruct (class r); [reflexivity | reflexivity | congruence].
Qed.

Lemma _is_zip_lookup_archive r :
  class r <> ClassNaN -> _is_zip_lookup r = archive_without_class r.
Proof.
  unfold _is_zip_lookup, archive_without_class, has_class.
  destruct (class r); [reflexivity | reflexivity | congruence].
Qed.

(** Claim C4, as amended.  For a catalog that exists, has a path, and a
    lookup type that is assembly or stimulus_set, and with no class that
    is a NaN other than [np.nan] in the new record or in the rows it is
    compared with: [append] raises the duplicate [ValueError] exactly when
    the named catalog itself already holds a row with the identifier and
    the lookup type, unless there is exactly one such row and it and the
    new record are the table with a class and the archive without one; in
    every other case the record is accepted.  Rows of other catalogs play
    no part. *)
Theorem append_duplicate_error st catalog_name object_identifier cls lookup_type0
        bucket_name sha1_0 s3_key stimulus_set_identifier0
        catalogs st1 catalog catalog_path :
  get_catalogs entrypoints st = (Ok catalogs, st1) ->
  dict_get catalog_name catalogs = Some catalog ->
  attrs_catalog_path catalog = Some catalog_path ->
  lookup_type0 = TYPE_ASSEMBLY \/ lookup_type0 = TYPE_STIMULUS_SET ->
  cls <> ClassNaN ->
  let object_lookup :=
    object_lookup_of catalog_name object_identifier cls lookup_type0 bucket_name
                     sha1_0 s3_key stimulus_set_identifier0 in
  let duplicates := candidates object_identifier lookup_type0 (rows catalog) in
  (forall d, In d duplicates -> class d <> ClassNaN) ->
  let second_part :=
    match duplicates with
    | [d] => (table_with_class d && archive_without_class object_lookup) ||
             (archive_without_class d && table_with_class object_lookup)
    | _ => false
    end in
  let outcome :=
    fst (append entrypoints catalog_name object_identifier cls lookup_type0
                bucket_name sha1_0 s3_key stimulus_set_identifier0 st) in
  (outcome = Raise (ValueError (duplicate_msg object_identifier)) <->
   duplicates <> [] /\ second_part = false) /\
  (outcome = Ok tt <-> duplicates = [] \/ second_part = true).
Proof.
  intros Hg Hc Hp Ht Hcls object_lookup duplicates Hdup second_part outcome.
  assert (Ho : outcome =
               match duplicates with
               | [] => Ok tt
               | [d] => if second_part then Ok tt
                        else Raise (ValueError (duplicate_msg object_identifier))
               | _ :: _ :: _ => Raise (ValueError (duplicate_msg object_identifier))
               end).
  { subst outcome. rewrite (append_eq _ _ _ _ _ _ _ _ _ _ _ _ _ Hg Hc Hp Ht).
    fold object_lookup duplicates.
    rewrite check_duplicates_spec.
    - subst second_part.
      change (identifier object_lookup) with object_identifier.
      destruct duplicates as [|d [|d' ds]]; try reflexivity.
      rewrite (_is_csv_lookup_table d (Hdup d (or_introl eq_refl))),
              (_is_zip_lookup_archive d (Hdup d (or_introl eq_refl))),
              (_is_csv_lookup_table object_lookup Hcls),
              (_is_zip_lookup_archive object_lookup Hcls).
      destruct (_ || _); reflexivity.
    - exact Ht.
    - intros d Hd. apply candidates_identifier in Hd. apply Hd. }
  rewrite Ho. subst second_part.
  destruct duplicates as [|d [|d' ds]].
  - split; split; intros H; try discriminate; auto.
    destruct H as [H _]. congruence.
  - destruct (_ || _); split; split; intros H; try discriminate; auto.
    + destruct H; discriminate.
    + split; [discriminate | reflexivity].
    + destruct H; discriminate.
  - split; split; intros H; try discriminate; auto.
    + split; [discriminate | reflexivity].
    + destruct H; discriminate.
Qed.

Lemma dict_get_set_same {V} (k : string) (v : V) (d : dict V) :
  dict_get k (dict_set k v d) = Some v.
Proof.
  induction d as [|[k' v'] d IH]; simpl.
  - now rewrite String.eqb_refl.
  - destruct (k' =? k) eqn:E; simpl; rewrite E; [reflexivity | exact IH].
Qed.

Lemma dict_set_values_In {V} (k : string) (v : V) (d : dict V) :
  In v (dict_values (dict_set k v d)).
Proof.
  induction d as [|[k' v'] d IH]; simpl; [now left|].
  destruct (k' =? k); simpl; [now left | now right].
Qed.

Lemma dict_set_nonempty {V} (k : string) (v : V) (d : dict V) :
  dict_set k v d <> [].
Proof.
  destruct d as [|[k' v'] d]; simpl; [discriminate|].
  destruct (k' =? k); discriminate.
Qed.

(** With the cache empty and catalogs loaded, the next read recomputes the
    union of the catalogs. *)
Lemma data_recomputed catalogs fs :
  catalogs <> [] ->
  data entrypoints (mkState catalogs None fs) =
    (Ok (concat (map rows (dict_values catalogs))),
     mkState catalogs (Some (concat (map rows (dict_values catalogs)))) fs).
Proof.
  intros Hne. unfold data, bind, get_catalogs, lift. simpl.
  destruct catalogs as [|kv cs]; [congruence|]. reflexivity.
Qed.

(** The state a successful [append] leaves. *)
Lemma append_ok_state st catalog_name object_identifier cls lookup_type0 bucket_name
      sha1_0 s3_key stimulus_set_identifier0 st' :
  append entrypoints catalog_name object_identifier cls lookup_type0 bucket_name
         sha1_0 s3_key stimulus_set_identifier0 st = (Ok tt, st') ->
  exists catalogs catalog catalog_path,
    get_catalogs entrypoints st =
      (Ok catalogs, mkState catalogs (_concat_catalogs st) (files st)) /\
    dict_get catalog_name catalogs = Some catalog /\
    attrs_catalog_path catalog = Some catalog_path /\
    st' = mkState
            (dict_set catalog_name
               (mkCatalog
                  (rows catalog ++
                   [object_lookup_of catalog_name object_identifier cls lookup_type0
                      bucket_name sha1_0 s3_key stimulus_set_identifier0])
                  (attrs_catalog_path catalog))
               catalogs)
            None
            (dict_set catalog_path
               (to_csv columns
                  (rows catalog ++
                   [object_lookup_of catalog_name object_identifier cls lookup_type0
                      bucket_name sha1_0 s3_key stimulus_set_identifier0]))
               (files st)).
Proof.
  intros H. destruct (append_inv _ _ _ _ _ _ _ _ _ _ _ H) as (catalogs & Hg & Hcase).
  destruct Hcase as [(e & He & _) | (catalog & catalog_path & _ & Hc & Hp & Ht)];
    [discriminate|].
  exists catalogs, catalog, catalog_path. repeat split; try assumption.
  rewrite (append_eq _ _ _ _ _ _ _ _ _ _ _ _ _ Hg Hc Hp Ht) in H.
  destruct (check_duplicates _ _); inversion H. reflexivity.
Qed.

(** Claim C5, as amended.  A successful [append] leaves the cache of the
    merged view empty, and the next read recomputes the union of the
    catalogs, which holds the appended record.  For an assembly,
    [lookup_assembly] of the identifier then returns a row that agrees with
    the appended record on every column but the source, provided every
    assembly row of that identifier in the union does.  For a stimulus set
    of which the appended record is the table or the archive,
    [lookup_stimulus_set] of the identifier then returns a pair whose
    table and archive agree with the two records on every column but the
    source, provided the other representation is registered too and the
    rows of each representation in the union agree with its record.  And
    whenever [lookup_stimulus_set] returns a pair, the component of the
    appended record's representation agrees with the appended record. *)
Theorem append_then_resolve st catalog_name object_identifier cls lookup_type0
        bucket_name sha1_0 s3_key stimulus_set_identifier0 st' :
  append entrypoints catalog_name object_identifier cls lookup_type0 bucket_name
         sha1_0 s3_key stimulus_set_identifier0 st = (Ok tt, st') ->
  let object_lookup :=
    object_lookup_of catalog_name object_identifier cls lookup_type0 bucket_name
                     sha1_0 s3_key stimulus_set_identifier0 in
  _concat_catalogs st' = None /\
  exists d st'',
    data entrypoints st' = (Ok d, st'') /\
    d = concat (map rows (dict_values (_catalogs st'))) /\
    In object_lookup d /\
    (lookup_type0 = TYPE_ASSEMBLY ->
     (forall x, In x (candidates object_identifier TYPE_ASSEMBLY d) ->
                same_record x object_lookup = true) ->
     exists r, lookup_assembly entrypoints object_identifier st' = (Ok r, st'') /\
               In r (candidates object_identifier TYPE_ASSEMBLY d) /\
               same_record r object_lookup = true) /\
    (forall table archive,
       object_lookup = table \/ object_lookup = archive ->
       In table (candidates object_identifier TYPE_STIMULUS_SET d) ->
       In archive (candidates object_identifier TYPE_STIMULUS_SET d) ->
       _is_csv_lookup table = true ->
       _is_zip_lookup archive = true ->
       (forall x, In x (candidates object_identifier TYPE_STIMULUS_SET d) ->
                  _is_csv_lookup x = true -> same_record x table = true) ->
       (forall x, In x (candidates object_identifier TYPE_STIMULUS_SET d) ->
                  _is_zip_lookup x = true -> same_record x archive = true) ->
       exists t z,
         lookup_stimulus_set entrypoints object_identifier st' = (Ok (t, z), st'') /\
         same_record t table = true /\ same_record z archive = true) /\
    (forall t z s,
       lookup_stimulus_set entrypoints object_identifier st' = (Ok (t, z), s) ->
       (_is_csv_lookup object_lookup = true -> same_record object_lookup t = true) /\
       (_is_zip_lookup object_lookup = true -> same_record object_lookup z = true)).
Proof.
  intros H object_lookup.
  destruct (append_ok_state _ _ _ _ _ _ _ _ _ _ H)
    as (catalogs & catalog & catalog_path & Hg & Hc & Hp & Hst).
  fold object_lookup in Hst.
  set (catalog' := mkCatalog (rows catalog ++ [object_lookup]) (attrs_catalog_path catalog)) in *.
  set (catalogs' := dict_set catalog_name catalog' catalogs) in *.
  assert (Hd := data_recomputed catalogs'
                  (dict_set catalog_path (to_csv columns (rows catalog ++ [object_lookup])) (files st))
                  (dict_set_nonempty _ _ _)).
  rewrite <- Hst in Hd.
  split; [subst st'; reflexivity|].
  eexists. eexists. split; [exact Hd|].
  set (d := concat (map rows (dict_values catalogs'))) in *.
  assert (Hin : In object_lookup d).
  { subst d. apply in_concat. exists (rows catalog'). split.
    - apply in_map. apply dict_set_values_In.
    - simpl. apply in_or_app. right. now left. }
  split; [subst st'; reflexivity|].
  split; [exact Hin|].
  assert (Hid : forall r, In r (candidates object_identifier TYPE_STIMULUS_SET d) ->
                          identifier r = object_identifier).
  { intros r Hr. now apply candidates_identifier in Hr. }
  split; [|split].
  - intros Ht Hall.
    rewrite (lookup_assembly_eq _ object_identifier _ _ Hd).
    assert (Hc' : In object_lookup (candidates object_identifier TYPE_ASSEMBLY d)).
    { unfold candidates. apply filter_In. split; [exact Hin|].
      subst object_lookup. cbn [identifier lookup_type object_lookup_of].
      rewrite Ht, !String.eqb_refl. reflexivity. }
    destruct (candidates object_identifier TYPE_ASSEMBLY d) as [|r rest];
      [destruct Hc'|].
    assert (Hrest : forall x, In x rest -> same_record x r = true).
    { intros x Hx. apply same_record_trans with object_lookup.
      - apply Hall. now right.
      - apply same_record_sym. apply Hall. now left. }
    rewrite (drop_duplicates_copies _ _ Hrest).
    exists r. split; [reflexivity|]. split; [now left|]. apply Hall. now left.
  - intros table archive _ Htin Hzin Htc Hzc Htall Hzall.
    destruct (representation_resolves _ _ "CSV" _ _ Hid Htin Htc Htall)
      as (t & Et & _ & _ & Hts).
    destruct (representation_resolves _ _ "zip" _ _ Hid Hzin Hzc Hzall)
      as (z & Ez & _ & _ & Hzs).
    exists t, z. split; [|split; assumption].
    rewrite (lookup_stimulus_set_eq _ object_identifier _ _ Hd), Et, Ez.
    destruct (candidates object_identifier TYPE_STIMULUS_SET d);
      [destruct Htin | reflexivity].
  - intros t z s Hs.
    rewrite (lookup_stimulus_set_eq _ object_identifier _ _ Hd) in Hs.
    assert (Hmem : forall p, p object_lookup = true ->
              (p = _is_csv_lookup \/ p = _is_zip_lookup) ->
              In object_lookup (candidates object_identifier TYPE_STIMULUS_SET d)).
    { intros p Hpo Hp'.
      assert (Hpl : lookup_type object_lookup = TYPE_STIMULUS_SET).
      { destruct Hp' as [-> | ->]; unfold _is_csv_lookup, _is_zip_lookup in Hpo;
          apply andb_true_iff in Hpo; destruct Hpo as [Hpo _];
          apply andb_true_iff in Hpo; destruct Hpo as [Hpo _];
          now apply String.eqb_eq in Hpo. }
      unfold candidates. apply filter_In. split; [exact Hin|].
      rewrite Hpl. subst object_lookup. cbn [identifier object_lookup_of].
      rewrite !String.eqb_refl. reflexivity. }
    destruct (candidates object_identifier TYPE_STIMULUS_SET d) as [|r0 rest0];
      [discriminate|].
    destruct (_lookup_stimulus_set_filtered (r0 :: rest0) _is_csv_lookup "CSV")
      as [t'|] eqn:Et; [|discriminate].
    destruct (_lookup_stimulus_set_filtered (r0 :: rest0) _is_zip_lookup "zip")
      as [z'|] eqn:Ez; [|discriminate].
    inversion Hs; subst t' z' s.
    split; intros Hp'.
    + apply (representation_covers _ _ _ _ _ Et); [|exact Hp'].
      apply (Hmem _ Hp'). now left.
    + apply (representation_covers _ _ _ _ _ Ez); [|exact Hp'].
      apply (Hmem _ Hp'). now right.
Qed.

(** Claim C9, as amended.  After a successful [append] the file at the
    catalog's path holds the header of all eight columns, the source-catalog
    column [lookup_source] included, and one line per row of the catalog,
    the old rows followed by the new record, each line with all eight cells;
    the catalog in memory holds the same rows. *)
Theorem append_persists_catalog st catalog_name object_identifier cls lookup_type0
        bucket_name sha1_0 s3_key stimulus_set_identifier0 st' :
  append entrypoints catalog_name object_identifier cls lookup_type0 bucket_name
         sha1_0 s3_key stimulus_set_identifier0 st = (Ok tt, st') ->
  exists catalogs st1 catalog catalog_path,
    get_catalogs entrypoints st = (Ok catalogs, st1) /\
    dict_get catalog_name catalogs = Some catalog /\
    attrs_catalog_path catalog = Some catalog_path /\
    dict_get catalog_path (files st') =
      Some {| header := columns;
              lines :=
                map (fun r => [Some (identifier r); Some (lookup_type r);
                               class_text (class r);
                               Some (location_type r); Some (location r);
                               Some (sha1 r); stimulus_set_identifier r;
                               Some (lookup_source r)])
                    (rows catalog ++
                     [object_lookup_of catalog_name object_identifier cls lookup_type0
                        bucket_name sha1_0 s3_key stimulus_set_identifier0]) |} /\
    In LOOKUP_SOURCE columns /\
    dict_get catalog_name (_catalogs st') =
      Some (mkCatalog
              (rows catalog ++
               [object_lookup_of catalog_name object_identifier cls lookup_type0
                  bucket_name sha1_0 s3_key stimulus_set_identifier0])
              (Some catalog_path)).
Proof.
  intros H.
  destruct (append_ok_state _ _ _ _ _ _ _ _ _ _ H)
    as (catalogs & catalog & catalog_path & Hg & Hc & Hp & Hst).
  exists catalogs, (mkState catalogs (_concat_catalogs st) (files st)),
    catalog, catalog_path.
  repeat split; try assumption.
  - subst st'. cbn [files]. rewrite dict_get_set_same. reflexivity.
  - unfold columns, LOOKUP_SOURCE. simpl. tauto.
  - subst st'. cbn [_catalogs]. rewrite dict_get_set_same, Hp. reflexivity.
Qed.

(** Claim C10, as amended.  When [append] raises, whatever the exception
    (unknown catalog, missing path, lookup type refused, duplicate), the
    files and the cached merged view are as before, and so are the catalogs
    [get_catalogs] returns.  The catalogs held in memory are as before when
    they had been loaded before the call, and the whole state is then
    unchanged; when they had not, the rejected call leaves them loaded from
    the entry points. *)
Theorem append_atomic_on_error st catalog_name object_identifier cls lookup_type0
        bucket_name sha1_0 s3_key stimulus_set_identifier0 e st' :
  append entrypoints catalog_name object_identifier cls lookup_type0 bucket_name
         sha1_0 s3_key stimulus_set_identifier0 st = (Raise e, st') ->
  files st' = files st /\
  _concat_catalogs st' = _concat_catalogs st /\
  fst (get_catalogs entrypoints st') = fst (get_catalogs entrypoints st) /\
  (_catalogs st <> [] -> st' = st) /\
  (_catalogs st = [] -> _catalogs st' = get_lookups entrypoints).
Proof.
  intros H. destruct (append_inv _ _ _ _ _ _ _ _ _ _ _ H) as (catalogs & Hg & Hcase).
  destruct Hcase as [(e' & _ & Hst) | (catalog & catalog_path & He & _)];
    [|discriminate].
  destruct (get_catalogs_spec st) as (catalogs0 & Hg0 & Hloaded & Hempty).
  assert (catalogs0 = catalogs) by congruence. subst catalogs0.
  subst st'. cbn [files _concat_catalogs _catalogs]. repeat split.
  - rewrite Hg. unfold get_catalogs. cbn [_catalogs fst].
    destruct catalogs as [|kv cs] eqn:E; [|reflexivity].
    cbn [fst]. destruct (_catalogs st) as [|kv cs] eqn:Es.
    + now rewrite <- (Hempty eq_refl).
    + assert (Hx : [] = kv :: cs) by (apply Hloaded; discriminate). discriminate.
  - intros Hne. rewrite (Hloaded Hne). destruct st; reflexivity.
  - exact Hempty.
Qed.
End LookupFacts.

Section LookupExamples.
Import Lookup Examples.



(** Claim C2, where the code departs from it.  A catalog read from a file
    in which no row has a class holds, for one identifier, a row under a
    .csv key and a row under a .zip key.  No row is a table with a class
    and one row is an archive without a class, so that the table is the
    representation that is not found; [lookup_stimulus_set] takes the
    class-less .csv row for the table and reports the archive as not
    found. *)
Theorem lookup_stimulus_set_classless_rows :
  let lookup :=
    candidates "contrib.images" TYPE_STIMULUS_SET
      (concat (map rows (dict_values (get_lookups classless_entrypoints)))) in
  filter table_with_class (drop_duplicates lookup) = [] /\
  length (filter archive_without_class (drop_duplicates lookup)) = 1%nat /\
  fst (lookup_stimulus_set classless_entrypoints "contrib.images" initial) =
  Raise (StimulusSetLookupError "zip for stimulus set contrib.images not found").
Proof. repeat split. Qed.

(** A catalog read from a file that holds the archive alone: the table is
    refused as a duplicate, the class of the archive row being a NaN that
    [_is_zip_lookup] does not take for a missing class. *)
Lemma append_table_after_reload_refused :
  fst (append archive_only_entrypoints "brainio_contrib" "contrib.images"
         (ClassName "StimulusSet") TYPE_STIMULUS_SET
         "brainio.contrib" "0123456789012345678901234567890123456789"
         "image_contrib_images.csv" None initial) =
  Raise (ValueError (duplicate_msg "contrib.images")).
Proof. reflexivity. Qed.

(** A record that differs from the one another catalog registers under the
    same identifier is accepted, and the identifier then no longer
    resolves. *)
Lemma append_accepts_cross_catalog_conflict :
  fst (append_conflicting initial) = Ok tt /\
  (exists d, fst (data two_entrypoints (snd (append_conflicting initial))) = Ok d /\
             length (drop_duplicates (candidates hvm_identifier TYPE_ASSEMBLY d)) = 2%nat) /\
  fst (lookup_assembly two_entrypoints hvm_identifier (snd (append_conflicting initial))) =
  Raise (RuntimeError
           ("Internal data inconsistency: Found multiple lookup rows for identifier "
              ++ hvm_identifier)).
Proof.
  split; [reflexivity|]. split; [|reflexivity].
  eexists. split; reflexivity.
Qed.

(** The archive is accepted as the second part of the stimulus set whose
    table the catalog holds. *)
Lemma append_duplicate_error_witness :
  fst (append_archive (snd (append_table initial))) = Ok tt.
Proof.
  assert (Hcls : ClassNone <> ClassNaN) by discriminate.
  assert (Hdup : forall d,
            In d (candidates "contrib.images" TYPE_STIMULUS_SET
                    (rows (mkCatalog
                             [object_lookup_of "brainio_contrib" "contrib.images"
                                (ClassName "StimulusSet") TYPE_STIMULUS_SET
                                "brainio.contrib"
                                "0123456789012345678901234567890123456789"
                                "image_contrib_images.csv" None]
                             (Some "/lookups/contrib.csv")))) ->
            class d <> ClassNaN).
  { intros d [<-|[]]. discriminate. }
  destruct (append_duplicate_error two_entrypoints (snd (append_table initial))
              "brainio_contrib" "contrib.images" ClassNone TYPE_STIMULUS_SET
              "brainio.contrib" "9876543210987654321098765432109876543210"
              "image_contrib_images.zip" None
              _ _ _ _ eq_refl eq_refl eq_refl (or_intror eq_refl) Hcls Hdup)
    as [_ H].
  apply H. right. reflexivity.
Defined.

(** Four appends that succeed and after which the identifier does not
    resolve to the appended record: the table alone, the archive missing;
    an assembly that differs from the one another catalog registers; a
    stimulus-set record that is neither a table nor an archive; a table
    that differs from the one another catalog registers. *)
Lemma append_table_then_resolve_fails :
  (fst (append_table initial) = Ok tt /\
   fst (lookup_stimulus_set two_entrypoints "contrib.images" (snd (append_table initial))) =
   Raise (StimulusSetLookupError "zip for stimulus set contrib.images not found")) /\
  (fst (append_conflicting initial) = Ok tt /\
   fst (lookup_assembly two_entrypoints hvm_identifier (snd (append_conflicting initial))) =
   Raise (RuntimeError
            ("Internal data inconsistency: Found multiple lookup rows for identifier "
               ++ hvm_identifier))) /\
  (fst (append_notes initial) = Ok tt /\
   fst (lookup_stimulus_set two_entrypoints "contrib.images" (snd (append_notes initial))) =
   Raise (StimulusSetLookupError "CSV for stimulus set contrib.images not found")) /\
  (fst (append_conflicting_table initial) = Ok tt /\
   fst (lookup_stimulus_set shared_entrypoints "dicarlo.hvm-public"
          (snd (append_conflicting_table initial))) =
   Raise (RuntimeError
            "Internal data inconsistency: Found more than 2 lookup rows for stimulus_set CSV for identifier dicarlo.hvm-public")).
Proof. repeat split. Qed.

(** An appended assembly resolves, and so does a stimulus set once its
    archive is appended after its table. *)
Lemma append_then_resolve_witness :
  (exists r,
     fst (lookup_assembly two_entrypoints "contrib.Recording2020"
            (snd (append_new_assembly initial))) = Ok r /\
     same_record r
       (object_lookup_of "brainio_contrib" "contrib.Recording2020"
          (ClassName "NeuronRecordingAssembly") TYPE_ASSEMBLY
          "brainio.contrib" "abcdefabcdefabcdefabcdefabcdefabcdefabcd"
          "assy_contrib_Recording2020.nc" (Some "contrib.images")) = true) /\
  (exists t z,
     fst (lookup_stimulus_set two_entrypoints "contrib.images"
            (snd (append_archive (snd (append_table initial))))) = Ok (t, z) /\
     same_record z
       (object_lookup_of "brainio_contrib" "contrib.images"
          ClassNone TYPE_STIMULUS_SET
          "brainio.contrib" "9876543210987654321098765432109876543210"
          "image_contrib_images.zip" None) = true).
Proof.
  split.
  - destruct (append_then_resolve two_entrypoints initial "brainio_contrib"
                "contrib.Recording2020" (ClassName "NeuronRecordingAssembly")
                TYPE_ASSEMBLY
                "brainio.contrib" "abcdefabcdefabcdefabcdefabcdefabcdefabcd"
                "assy_contrib_Recording2020.nc" (Some "contrib.images")
                (snd (append_new_assembly initial)) eq_refl)
      as (_ & d & st'' & Hd & Hdeq & _ & Hassembly & _).
    destruct (Hassembly eq_refl) as (r & Hr & _ & Hsame).
    + intros x Hx. rewrite Hdeq in Hx. vm_compute in Hx.
      destruct Hx as [<-|[]]. reflexivity.
    + exists r. split; [|exact Hsame].
      rewrite Hr. reflexivity.
  - destruct (append_then_resolve two_entrypoints (snd (append_table initial))
                "brainio_contrib" "contrib.images" ClassNone TYPE_STIMULUS_SET
                "brainio.contrib" "9876543210987654321098765432109876543210"
                "image_contrib_images.zip" None
                (snd (append_archive (snd (append_table initial)))) eq_refl)
      as (_ & d & st'' & Hd & Hdeq & _ & _ & Hpair & _).
    set (table := object_lookup_of "brainio_contrib" "contrib.images"
                    (ClassName "StimulusSet") TYPE_STIMULUS_SET
                    "brainio.contrib" "0123456789012345678901234567890123456789"
                    "image_contrib_images.csv" None).
    set (archive := object_lookup_of "brainio_contrib" "contrib.images"
                      ClassNone TYPE_STIMULUS_SET
                      "brainio.contrib" "9876543210987654321098765432109876543210"
                      "image_contrib_images.zip" None).
    assert (Hl : candidates "contrib.images" TYPE_STIMULUS_SET d = [table; archive])
      by (rewrite Hdeq; reflexivity).
    destruct (Hpair table archive) as (t & z & Hs & _ & Hz).
    + now right.
    + rewrite Hl. now left.
    + rewrite Hl. right. now left.
    + reflexivity.
    + reflexivity.
    + intros x Hx Hc. rewrite Hl in Hx.
      destruct Hx as [<-|[<-|[]]]; [reflexivity | discriminate Hc].
    + intros x Hx Hc. rewrite Hl in Hx.
      destruct Hx as [<-|[<-|[]]]; [discriminate Hc | reflexivity].
    + exists t, z. rewrite Hs. split; [reflexivity | exact Hz].
Defined.

(** The file written by [append] has the source-catalog column. *)
Lemma append_writes_lookup_source :
  fst (append_new_assembly initial) = Ok tt /\
  exists f,
    dict_get "/lookups/contrib.csv" (files (snd (append_new_assembly initial))) = Some f /\
    In LOOKUP_SOURCE (header f) /\
    lines f =
      [[Some "contrib.Recording2020"; Some "assembly"; Some "NeuronRecordingAssembly";
        Some "S3";
        Some "https://brainio.contrib.s3.amazonaws.com/assy_contrib_Recording2020.nc";
        Some "abcdefabcdefabcdefabcdefabcdefabcdefabcd"; Some "contrib.images";
        Some "brainio_contrib"]].
Proof.
  split; [reflexivity|]. eexists. split; [reflexivity|].
  split; [|reflexivity]. vm_compute. tauto.
Qed.

Lemma append_persists_catalog_witness :
  exists f,
    dict_get "/lookups/contrib.csv" (files (snd (append_new_assembly initial))) = Some f /\
    header f = columns /\ length (lines f) = 1%nat.
Proof.
  destruct (append_persists_catalog two_entrypoints initial "brainio_contrib"
              "contrib.Recording2020" (ClassName "NeuronRecordingAssembly") TYPE_ASSEMBLY
              "brainio.contrib" "abcdefabcdefabcdefabcdefabcdefabcdefabcd"
              "assy_contrib_Recording2020.nc" (Some "contrib.images")
              (snd (append_new_assembly initial)) eq_refl)
    as (catalogs & st1 & catalog & catalog_path & Hg & Hc & Hp & Hf & _).
  vm_compute in Hg. inversion Hg; subst.
  vm_compute in Hc. inversion Hc; subst.
  vm_compute in Hp. inversion Hp; subst.
  eexists. split; [exact Hf|]. split; reflexivity.
Defined.

(** A rejected [append] in a process that had not loaded the catalogs
    leaves them loaded: the catalogs in memory are not as before. *)
Lemma append_rejected_loads_catalogs :
  fst (append_unknown initial) = Raise (KeyError "brainio_missing") /\
  _catalogs initial = [] /\
  _catalogs (snd (append_unknown initial)) = get_lookups two_entrypoints /\
  _catalogs (snd (append_unknown initial)) <> _catalogs initial.
Proof.
  split; [reflexivity|]. split; [reflexivity|]. split; [reflexivity|].
  vm_compute. discriminate.
Qed.

Lemma append_atomic_on_error_witness :
  fst (append_unknown initial) = Raise (KeyError "brainio_missing") /\
  files (snd (append_unknown initial)) = files initial /\
  _concat_catalogs (snd (append_unknown initial)) = _concat_catalogs initial /\
  fst (get_catalogs two_entrypoints (snd (append_unknown initial))) =
  fst (get_catalogs two_entrypoints initial).
Proof.
  split; [reflexivity|].
  destruct (append_atomic_on_error two_entrypoints initial "brainio_missing"
              "contrib.Recording2020" (ClassName "NeuronRecordingAssembly") TYPE_ASSEMBLY
              "brainio.contrib" "abcdefabcdefabcdefabcdefabcdefabcdefabcd"
              "assy_contrib_Recording2020.nc" None
              (KeyError "brainio_missing") (snd (append_unknown initial)) eq_refl)
    as (Hf & Hc & Hg & _).
  auto.
Defined.

End LookupExamples.

(** * Properties of the leveled array engine *)

Section AssemblyFacts.
Import Assemblies.
Open Scope nat_scope.

Lemma value_eqb_refl v : value_eqb v v = true.
Proof. destruct v; simpl; [apply String.eqb_refl | apply Z.eqb_refl]. Qed.

Lemma value_eqb_eq u v : value_eqb u v = true -> u = v.
Proof.
  destruct u, v; simpl; intros H; try discriminate.
  - apply String.eqb_eq in H. congruence.
  - apply Z.eqb_eq in H. congruence.
Qed.

Lemma same_key_refl a names i : same_key a names i i = true.
Proof.
  unfold same_key. apply forallb_forall. intros n _. apply value_eqb_refl.
Qed.

(** *** Order of the grouping names *)

Lemma forallb_Permutation {A} (f : A -> bool) l l' :
  Permutation l l' -> forallb f l = forallb f l'.
Proof.
  induction 1; simpl; try congruence.
  destruct (f x), (f y); reflexivity.
Qed.

Lemma existsb_Permutation {A} (f : A -> bool) l l' :
  Permutation l l' -> existsb f l = existsb f l'.
Proof.
  induction 1; simpl; try congruence.
  destruct (f x), (f y); reflexivity.
Qed.

Lemma filter_Permutation {A} (f : A -> bool) l l' :
  Permutation l l' -> Permutation (filter f l) (filter f l').
Proof.
  induction 1; simpl.
  - constructor.
  - destruct (f x); [now constructor | assumption].
  - destruct (f x), (f y); try apply Permutation_refl. apply perm_swap.
  - eapply Permutation_trans; eassumption.
Qed.

Lemma find_none_Permutation {A} (f : A -> bool) l l' :
  Permutation l l' -> find f l = None -> find f l' = None.
Proof.
  intros Hp Hn.
  destruct (find f l') as [x|] eqn:E; [|reflexivity].
  apply find_some in E. destruct E as [Hin Hf].
  apply Permutation_sym in Hp.
  pose proof (Permutation_in _ Hp Hin) as Hin'.
  pose proof (find_none _ _ Hn _ Hin') as Hx. congruence.
Qed.

Section Names.
Variables (a : Assembly) (names names' : list string).
Hypothesis Hperm : Permutation names names'.

Lemma same_key_names d i j :
  same_key a (filter (lives_on a d) names) i j =
  same_key a (filter (lives_on a d) names') i j.
Proof.
  unfold same_key. apply forallb_Permutation. now apply filter_Permutation.
Qed.

Lemma group_of_names d n i :
  group_of a names d n i = group_of a names' d n i.
Proof.
  unfold group_of. apply filter_ext. intros j. apply same_key_names.
Qed.

Lemma group_firsts_names d n :
  group_firsts a names d n = group_firsts a names' d n.
Proof.
  unfold group_firsts. apply filter_ext. intros i. f_equal.
  induction (seq 0 i) as [|j l IH]; simpl; [reflexivity|].
  now rewrite same_key_names, IH.
Qed.

Lemma groups_at_names ds sh p :
  groups_at a names ds sh p = groups_at a names' ds sh p.
Proof.
  revert sh p. induction ds as [|d ds IH]; intros [|n sh] [|i p]; simpl;
    try reflexivity.
  now rewrite group_of_names, IH.
Qed.

Lemma mem_names name : mem name names = mem name names'.
Proof. unfold mem. now apply existsb_Permutation. Qed.

Lemma kept_coord_names c : kept_coord a names c = kept_coord a names' c.
Proof.
  unfold kept_coord. destruct (cdim c) as [d|]; [|reflexivity].
  rewrite (Permutation_length (filter_Permutation (lives_on a d) _ _ Hperm)).
  now rewrite mem_names.
Qed.

Lemma reduced_coords_names d firsts keep :
  reduced_coords a names d firsts keep = reduced_coords a names' d firsts keep.
Proof.
  unfold reduced_coords.
  induction (coords a) as [|c cs IH]; simpl; [reflexivity|].
  rewrite IH. destruct (cdim c); [|reflexivity].
  now rewrite mem_names.
Qed.

Lemma grouping_dim_names : grouping_dim a names = grouping_dim a names'.
Proof.
  unfold grouping_dim.
  assert (Hf : find (fun d => forallb (lives_on a d) names) (dims a) =
               find (fun d => forallb (lives_on a d) names') (dims a)).
  { induction (dims a) as [|d ds IH]; simpl; [reflexivity|].
    rewrite (forallb_Permutation _ _ _ Hperm), IH. reflexivity. }
  destruct names as [|x l], names' as [|x' l']; try reflexivity.
  - apply Permutation_nil in Hperm. discriminate.
  - apply Permutation_sym, Permutation_nil in Hperm. discriminate.
  - now rewrite Hf.
Qed.

End Names.

(** Claim C7.  Grouping names given in two orders, one a permutation of
    the other, give the same result, for [multi_dim_apply] with any function
    and for the reduction of [multi_groupby] with any reduction: both calls
    fail, or both succeed with equal dimensions, extents, coordinates and
    cells; the dimensions of the output of [multi_dim_apply] are those of
    the input, in the input's order. *)
Theorem grouping_names_order a names names' apply reduction dim :
  Permutation names names' ->
  match multi_dim_apply a names apply, multi_dim_apply a names' apply with
  | Ok r, Ok r' => dims r = dims a /\ dims r' = dims a /\ equals r r'
  | Raise _, Raise _ => True
  | _, _ => False
  end /\
  match reduce (multi_groupby a names) reduction dim,
        reduce (multi_groupby a names') reduction dim with
  | Ok r, Ok r' => equals r r'
  | Raise _, Raise _ => True
  | _, _ => False
  end.
Proof.
  intros Hperm. split.
  - unfold multi_dim_apply.
    destruct (find (fun name => negb (is_dim_coord a name)) names) as [x|] eqn:E.
    + destruct (find (fun name => negb (is_dim_coord a name)) names') as [x'|] eqn:E';
        [exact I|].
      apply (find_none_Permutation _ _ _ (Permutation_sym Hperm)) in E'. congruence.
    + rewrite (find_none_Permutation _ _ _ Hperm E).
      split; [reflexivity|]. split; [reflexivity|].
      unfold equals. cbn [dims shape coords values].
      repeat split.
      * apply filter_ext. intros c. now apply kept_coord_names.
      * intros p _. rewrite (groups_at_names a names names' Hperm). reflexivity.
  - unfold reduce, multi_groupby. cbn [gb_assembly gb_names].
    rewrite (grouping_dim_names a names names' Hperm).
    destruct (grouping_dim a names') as [d|e]; [|exact I].
    destruct dim as [d'|].
    + destruct (d' =? d)%string; [|exact I].
      unfold equals. cbn [dims shape coords values].
      rewrite (group_firsts_names a names names' Hperm).
      repeat split.
      * now apply reduced_coords_names.
      * intros p _. rewrite (group_of_names a names names' Hperm). reflexivity.
    + unfold equals. cbn [dims shape coords values].
      rewrite (group_firsts_names a names names' Hperm).
      repeat split.
      * now apply reduced_coords_names.
      * intros p _.
        match goal with
        | |- reduction (map _ (filter ?f _)) == reduction (map _ (filter ?g _)) =>
            rewrite (filter_ext f g)
        end; [reflexivity|].
        intros q0. now rewrite (group_of_names a names names' Hperm).
Qed.


(** *** Reassembly of the groups *)

Lemma nth_index_of (i : nat) (g : list nat) :
  In i g -> nth (index_of Nat.eqb i g) g 0 = i.
Proof.
  induction g as [|x g IH]; intros Hin; [destruct Hin|].
  simpl. destruct (x =? i) eqn:E.
  - now apply Nat.eqb_eq in E.
  - apply IH. destruct Hin as [->|Hin]; [|assumption].
    rewrite Nat.eqb_refl in E. discriminate.
Qed.

Lemma group_of_self a names d n i :
  i < n -> In i (group_of a names d n i).
Proof.
  intros Hi. unfold group_of. apply filter_In. split.
  - apply in_seq. lia.
  - apply same_key_refl.
Qed.

(** A position is found again through its place in its own groups. *)
Lemma global_local_index a names ds sh p :
  length ds = length sh ->
  in_range sh p = true ->
  global_index (groups_at a names ds sh p)
               (local_index (groups_at a names ds sh p) p) = p.
Proof.
  revert sh p. induction ds as [|d ds IH]; intros [|n sh] [|i p] Hlen Hr;
    simpl in *; try discriminate; try reflexivity.
  apply andb_true_iff in Hr. destruct Hr as [Hi Hr].
  apply Nat.ltb_lt in Hi.
  rewrite nth_index_of by now apply group_of_self.
  f_equal. apply IH; [lia | assumption].
Qed.

Lemma filter_all {A} (f : A -> bool) (l : list A) :
  (forall x, In x l -> f x = true) -> filter f l = l.
Proof.
  induction l as [|x l IH]; intros H; simpl; [reflexivity|].
  rewrite (H x (or_introl eq_refl)). f_equal. apply IH.
  intros y Hy. apply H. now right.
Qed.

Lemma mem_In name names : In name names -> mem name names = true.
Proof.
  intros H. unfold mem. apply existsb_exists. exists name.
  split; [assumption | apply String.eqb_refl].
Qed.

(** Claim C6.  [multi_dim_apply] with the identity function and the full
    set of the coordinates bound to dimensions as names returns an array
    equal to the input in dimensions, extents, coordinates and cells, and
    every constant coordinate of the input, which has no index values, is
    a coordinate of the output.  The output keeps every cell at its
    position, so this holds whether or not the named coordinate tuples are
    unique. *)
Theorem multi_dim_apply_identity a names :
  well_formed a ->
  (forall name, In name names -> is_dim_coord a name = true) ->
  (forall c, In c (coords a) -> cdim c <> None -> In (cname c) names) ->
  exists r,
    multi_dim_apply a names (fun x => x) = Ok r /\
    equals r a /\
    (forall p, in_range (shape a) p = true -> values r p = values a p) /\
    (forall c, In c (coords a) -> cdim c = None -> In c (coords r)).
Proof.
  intros (Hlen & _ & _) Hnames Hfull.
  unfold multi_dim_apply.
  assert (Hfind : find (fun name => negb (is_dim_coord a name)) names = None).
  { destruct (find _ names) as [x|] eqn:E; [|reflexivity].
    apply find_some in E. destruct E as [Hin Hx].
    rewrite (Hnames x Hin) in Hx. discriminate. }
  rewrite Hfind. eexists. split; [reflexivity|].
  assert (Hcoords : filter (kept_coord a names) (coords a) = coords a).
  { apply filter_all. intros c Hc. unfold kept_coord.
    destruct (cdim c) as [d|] eqn:Ed; [|reflexivity].
    destruct (2 <=? _); [|reflexivity].
    apply mem_In, Hfull; [assumption | congruence]. }
  assert (Hvalues : forall p, in_range (shape a) p = true ->
            values (group_array a (groups_at a names (dims a) (shape a) p))
                   (local_index (groups_at a names (dims a) (shape a) p) p) =
            values a p).
  { intros p Hp. cbn [values group_array].
    now rewrite global_local_index. }
  unfold equals. cbn [dims shape coords values]. repeat split.
  - exact Hcoords.
  - intros p Hp. rewrite (Hvalues p Hp). reflexivity.
  - exact Hvalues.
  - intros c Hc _. rewrite Hcoords. exact Hc.
Qed.

(** *** Levels *)

Lemma one_to_one_gather a c :
  one_to_one (gather_indexes a) c = one_to_one a c.
Proof. reflexivity. Qed.

Lemma gather_indexes_idempotent a :
  gather_indexes (gather_indexes a) = gather_indexes a.
Proof.
  assert (H : forall c, one_to_one (gather_indexes a) c = one_to_one a c)
    by reflexivity.
  set (b := gather_indexes a) in *.
  unfold gather_indexes at 1. subst b.
  unfold gather_indexes at 2 3 4 5. cbn [dims shape values coords].
  unfold gather_indexes at 2. f_equal.
  rewrite map_map. apply map_ext. intros c. rewrite !H.
  destruct (one_to_one a c) eqn:E; rewrite ?E; [|reflexivity].
  unfold one_to_one in *. cbn [cdim cvalues]. rewrite E. reflexivity.
Qed.

(** Claim C8.  For a dimension with several 1:1 coordinates,
    [gather_indexes] makes them the levels of the dimension, named in the
    order the coordinates were declared; gathering is idempotent, and the
    levels of an array gathered twice are those of the array gathered
    once. *)
Theorem gather_indexes_levels a d :
  well_formed a ->
  2 <= length (filter (on_dim d) (coords a)) ->
  levels_of (gather_indexes a) d = map cname (filter (on_dim d) (coords a)) /\
  gather_indexes (gather_indexes a) = gather_indexes a /\
  levels_of (gather_indexes (gather_indexes a)) d = levels_of (gather_indexes a) d /\
  get_levels (gather_indexes (gather_indexes a)) = get_levels (gather_indexes a).
Proof.
  intros (_ & _ & Hone) Hseveral.
  repeat split; try now rewrite gather_indexes_idempotent.
  unfold levels_of, gather_indexes. cbn [coords].
  assert (E : map cname
                (filter (fun c => indexed c && on_dim d c)
                   (map (fun c => if one_to_one a c
                                  then mkCoord (cname c) (cdim c) (cvalues c) true
                                  else c) (coords a))) =
              map cname (filter (on_dim d) (coords a))).
  { clear Hseveral. induction (coords a) as [|c cs IH]; [reflexivity|].
    cbn [map filter].
    assert (IH' := IH (fun x Hx => Hone x (or_intror Hx))).
    destruct (on_dim d c) eqn:Ed.
    - assert (Hc : one_to_one a c = true).
      { apply Hone; [now left|]. unfold on_dim in Ed.
        destruct (cdim c); [discriminate | discriminate]. }
      rewrite Hc. unfold on_dim at 1. cbn [indexed cdim andb].
      unfold on_dim in Ed. rewrite Ed. cbn [map cname]. now rewrite IH'.
    - destruct (one_to_one a c).
      + unfold on_dim at 1. cbn [indexed cdim andb].
        unfold on_dim in Ed. rewrite Ed. exact IH'.
      + rewrite Ed, andb_false_r. exact IH'. }
  rewrite E, length_map.
  apply Nat.leb_le in Hseveral. now rewrite Hseveral.
Qed.


(** *** The boolean comparison of arrays *)

Lemma combine_eqb_eq {A} (eqb : A -> A -> bool) (l l' : list A) :
  (forall x y, eqb x y = true -> x = y) ->
  (length l =? length l') = true ->
  forallb (fun xy => eqb (fst xy) (snd xy)) (combine l l') = true ->
  l = l'.
Proof.
  intros Heq. revert l'. induction l as [|x l IH]; intros [|y l'] Hlen Hall;
    simpl in *; try discriminate; [reflexivity|].
  apply andb_true_iff in Hall. destruct Hall as [Hxy Hall].
  f_equal; [now apply Heq | now apply IH].
Qed.

Lemma coord_eqb_eq c1 c2 : coord_eqb c1 c2 = true -> c1 = c2.
Proof.
  unfold coord_eqb. rewrite !andb_true_iff.
  intros ((((Hn & Hd) & Hl) & Hv) & Hi).
  destruct c1 as [n1 d1 v1 i1], c2 as [n2 d2 v2 i2]. cbn [cname cdim cvalues indexed] in *.
  apply String.eqb_eq in Hn. apply Bool.eqb_prop in Hi.
  assert (d1 = d2).
  { destruct d1, d2; simpl in Hd; try discriminate; [|reflexivity].
    apply String.eqb_eq in Hd. congruence. }
  assert (v1 = v2) by (apply (combine_eqb_eq value_eqb); auto using value_eqb_eq).
  congruence.
Qed.

Lemma in_range_all_indexes sh p :
  in_range sh p = true -> In p (all_indexes sh).
Proof.
  revert p. induction sh as [|n sh IH]; intros [|i p] H; simpl in *;
    try discriminate; [now left|].
  apply andb_true_iff in H. destruct H as [Hi Hp].
  apply Nat.ltb_lt in Hi. apply in_flat_map. exists i. split.
  - apply in_seq. lia.
  - apply in_map. now apply IH.
Qed.

Lemma equalsb_equals a b : equalsb a b = true -> equals a b.
Proof.
  unfold equalsb, equals. rewrite !andb_true_iff.
  intros ((((((Hd1 & Hd2) & Hs1) & Hs2) & Hc1) & Hc2) & Hv).
  repeat split.
  - apply (combine_eqb_eq String.eqb); auto. intros x y. apply String.eqb_eq.
  - apply (combine_eqb_eq Nat.eqb); auto. intros x y. apply Nat.eqb_eq.
  - apply (combine_eqb_eq coord_eqb); auto using coord_eqb_eq.
  - intros p Hp. apply Qeq_bool_iff.
    rewrite forallb_forall in Hv. apply Hv. now apply in_range_all_indexes.
Qed.

End AssemblyFacts.

Section AssemblyExamples.
Import Assemblies Examples.
Open Scope nat_scope.

(** Claim C3.  The array of [test_two_coord], grouped by [up] and [down]
    and reduced with the mean over dimension [a], has three groups keyed
    (alpha, 1), (beta, 1), (beta, 2) with rows [2.5, 3.5, 4.5],
    [8.5, 9.5, 10.5], [14.5, 15.5, 16.5]; it equals [assy_2]; its dimension
    [a] carries the levels [up] and [down], and it can be selected by
    either of them, a value that does not occur being a keyed-lookup
    failure. *)
Theorem multi_groupby_two_coord :
  exists r,
    mean (multi_groupby assy ["up"; "down"]) (Some "a") = Ok r /\
    equals r assy_2 /\
    dims r = ["a"; "b"] /\ shape r = [3; 3] /\
    map (fun i => (coord_at r "up" i, coord_at r "down" i)) [0; 1; 2] =
      [(VStr "alpha", VInt 1); (VStr "beta", VInt 1); (VStr "beta", VInt 2)] /\
    map (fun i => map (fun j => values r [i; j]) [0; 1; 2]) [0; 1; 2] =
      [[5 # 2; 7 # 2; 9 # 2]; [17 # 2; 19 # 2; 21 # 2]; [29 # 2; 31 # 2; 33 # 2]]%Q /\
    levels_of r "a" = ["up"; "down"] /\
    (exists s, sel r "up" (VStr "beta") = Ok s /\ shape s = [2; 3] /\
               map (fun j => values s [0; j]) [0; 1; 2] = [17 # 2; 19 # 2; 21 # 2]%Q) /\
    (exists s, sel r "down" (VInt 1) = Ok s /\ shape s = [2; 3] /\
               map (fun j => values s [1; j]) [0; 1; 2] = [17 # 2; 19 # 2; 21 # 2]%Q) /\
    sel r "up" (VStr "gamma") = Raise (KeyError "up").
Proof.
  eexists. split; [reflexivity|].
  split; [apply equalsb_equals; vm_compute; reflexivity|].
  repeat split; try (vm_compute; reflexivity).
  - eexists. split; [vm_compute; reflexivity|]. split; vm_compute; reflexivity.
  - eexists. split; [vm_compute; reflexivity|]. split; vm_compute; reflexivity.
Qed.


Lemma well_formed_d_remnant : well_formed d_remnant.
Proof.
  split; [reflexivity|]. split.
  - repeat constructor; simpl; intuition discriminate.
  - intros c Hc Hd. vm_compute in Hc.
    destruct Hc as [<-|[<-|[<-|[]]]]; try reflexivity. now elim Hd.
Qed.

Lemma well_formed_da : well_formed da.
Proof.
  split; [reflexivity|]. split.
  - repeat constructor; simpl; intuition discriminate.
  - intros c Hc Hd. vm_compute in Hc.
    destruct Hc as [<-|[<-|[<-|[]]]]; reflexivity.
Qed.

(** The array of [test_nonindex_coord] comes back equal, constant
    coordinate included. *)
Lemma multi_dim_apply_identity_witness :
  exists r,
    multi_dim_apply d_remnant ["a"; "b"] (fun x => x) = Ok r /\
    equals r d_remnant /\
    In (mkCoord "c" None [VStr "remnant"] false) (coords r).
Proof.
  destruct (multi_dim_apply_identity d_remnant ["a"; "b"] well_formed_d_remnant)
    as (r & Hr & Heq & _ & Hconst).
  - intros name [<-|[<-|[]]]; reflexivity.
  - intros c Hc Hd. vm_compute in Hc.
    destruct Hc as [<-|[<-|[<-|[]]]]; simpl; auto; now elim Hd.
  - exists r. split; [exact Hr|]. split; [exact Heq|].
    apply Hconst; [|reflexivity]. vm_compute. auto.
Defined.

(** Grouping by [b, a] and by [a, b], and reducing by [down, up] and by
    [up, down], give equal arrays. *)
Lemma grouping_names_order_witness :
  (exists r r',
     multi_dim_apply d_remnant ["a"; "b"] (fun x => x) = Ok r /\
     multi_dim_apply d_remnant ["b"; "a"] (fun x => x) = Ok r' /\
     dims r' = ["a"; "b"] /\ equals r r') /\
  (exists r r',
     mean (multi_groupby assy ["up"; "down"]) (Some "a") = Ok r /\
     mean (multi_groupby assy ["down"; "up"]) (Some "a") = Ok r' /\
     equals r r').
Proof.
  pose proof (grouping_names_order d_remnant ["a"; "b"] ["b"; "a"] (fun x => x)
                mean_of None (perm_swap "b" "a" [])) as [H _].
  pose proof (grouping_names_order assy ["up"; "down"] ["down"; "up"] (fun x => x)
                mean_of (Some "a") (perm_swap "down" "up" [])) as [_ H'].
  split.
  - eexists. eexists. split; [reflexivity|]. split; [reflexivity|].
    split; [reflexivity|]. apply H.
  - eexists. eexists. split; [reflexivity|]. split; [reflexivity|]. exact H'.
Defined.

(** [test_wrap_dataarray]: the gathered levels of dimension [a] are
    [up, down], in declaration order, and gathering again changes nothing. *)
Lemma gather_indexes_levels_witness :
  levels_of da "a" = [] /\
  levels_of (gather_indexes da) "a" = ["up"; "down"] /\
  get_levels (gather_indexes (gather_indexes da)) = ["up"; "down"].
Proof.
  split; [reflexivity|].
  destruct (gather_indexes_levels da "a" well_formed_da) as (H1 & _ & _ & H4).
  - vm_compute. lia.
  - split; [rewrite H1; reflexivity | rewrite H4; reflexivity].
Defined.

End AssemblyExamples.

(** * Further properties of the catalog lookup *)

(** *** Ascending order of strings *)

Section Sorting.
Import Lookup.

Lemma ascii_compare_lt_trans a b c :
  Ascii.compare a b = Lt -> Ascii.compare b c = Lt -> Ascii.compare a c = Lt.
Proof.
  unfold Ascii.compare. rewrite !N.compare_lt_iff. apply N.lt_trans.
Qed.

Lemma string_compare_lt_trans s1 :
  forall s2 s3, String.compare s1 s2 = Lt -> String.compare s2 s3 = Lt ->
                String.compare s1 s3 = Lt.
Proof.
  induction s1 as [|a s1 IH]; intros [|b s2] [|c s3]; simpl; try discriminate; auto.
  destruct (Ascii.compare a b) eqn:Eab; try discriminate;
    destruct (Ascii.compare b c) eqn:Ebc; try discriminate; intros H1 H2.
  - apply Ascii.compare_eq_iff in Eab, Ebc. subst.
    assert (E : Ascii.compare c c = Eq).
    { unfold Ascii.compare. apply N.compare_refl. }
    rewrite E. eapply IH; eassumption.
  - apply Ascii.compare_eq_iff in Eab. subst. now rewrite Ebc.
  - apply Ascii.compare_eq_iff in Ebc. subst. now rewrite Eab.
  - now rewrite (ascii_compare_lt_trans _ _ _ Eab Ebc).
Qed.

Lemma string_compare_refl s : String.compare s s = Eq.
Proof.
  induction s as [|a s IH]; simpl; [reflexivity|].
  assert (E : Ascii.compare a a = Eq) by (unfold Ascii.compare; apply N.compare_refl).
  now rewrite E.
Qed.

Lemma leb_trans s1 s2 s3 :
  (s1 <=? s2) = true -> (s2 <=? s3) = true -> (s1 <=? s3) = true.
Proof.
  unfold String.leb.
  destruct (String.compare s1 s2) eqn:E12; try discriminate;
    destruct (String.compare s2 s3) eqn:E23; try discriminate; intros _ _.
  - apply String.compare_eq_iff in E12, E23. subst. now rewrite string_compare_refl.
  - apply String.compare_eq_iff in E12. subst. now rewrite E23.
  - apply String.compare_eq_iff in E23. subst. now rewrite E12.
  - now rewrite (string_compare_lt_trans _ _ _ E12 E23).
Qed.

Lemma insert_sorted_In x y l : In y (insert_sorted x l) <-> y = x \/ In y l.
Proof.
  induction l as [|z l IH]; simpl; [intuition|].
  destruct (x <=? z); simpl; [intuition|]. rewrite IH. intuition.
Qed.

Lemma insert_sorted_Permutation x l : Permutation (x :: l) (insert_sorted x l).
Proof.
  induction l as [|z l IH]; simpl; [apply Permutation_refl|].
  destruct (x <=? z); [apply Permutation_refl|].
  eapply Permutation_trans; [apply perm_swap|]. now constructor.
Qed.

Lemma sorted_Permutation l : Permutation l (sorted l).
Proof.
  induction l as [|x l IH]; simpl; [constructor|].
  eapply Permutation_trans; [|apply insert_sorted_Permutation]. now constructor.
Qed.

Lemma insert_sorted_Sorted x l :
  Sorted (fun a b => (a <=? b) = true) l ->
  Sorted (fun a b => (a <=? b) = true) (insert_sorted x l).
Proof.
  induction 1 as [|z l Hs IH Hhd]; simpl; [repeat constructor|].
  destruct (x <=? z) eqn:E.
  - constructor; [now constructor | now constructor].
  - assert (Hzx : (z <=? x) = true).
    { destruct (String.leb_total x z) as [H|H]; congruence. }
    constructor; [exact IH|].
    destruct l as [|w l]; simpl.
    + now constructor.
    + destruct (x <=? w); constructor; [assumption|].
      now inversion Hhd.
Qed.

Lemma sorted_Sorted l : Sorted (fun a b => (a <=? b) = true) (sorted l).
Proof.
  induction l as [|x l IH]; simpl; [constructor|].
  now apply insert_sorted_Sorted.
Qed.

(** An ascending list without repetition is determined by its elements. *)
Lemma ascending_unique l1 :
  forall l2,
    Sorted (fun a b => (a <=? b) = true) l1 ->
    Sorted (fun a b => (a <=? b) = true) l2 ->
    NoDup l1 -> NoDup l2 ->
    (forall x, In x l1 <-> In x l2) ->
    l1 = l2.
Proof.
  assert (Htrans : Relations_1.Transitive (fun a b => (a <=? b) = true)).
  { intros a b c. apply leb_trans. }
  induction l1 as [|x l1 IH]; intros [|y l2] S1 S2 N1 N2 Hin.
  - reflexivity.
  - destruct (proj2 (Hin y) (or_introl eq_refl)).
  - destruct (proj1 (Hin x) (or_introl eq_refl)).
  - apply Sorted_StronglySorted in S1, S2; try exact Htrans.
    inversion S1 as [|? ? S1' F1]; inversion S2 as [|? ? S2' F2]; subst.
    inversion N1 as [|? ? Hx N1']; inversion N2 as [|? ? Hy N2']; subst.
    rewrite Forall_forall in F1, F2.
    assert (Exy : x = y).
    { destruct (proj1 (Hin x) (or_introl eq_refl)) as [E|Hxl2]; [now symmetry|].
      destruct (proj2 (Hin y) (or_introl eq_refl)) as [E|Hyl1]; [exact E|].
      apply String.leb_antisym; [now apply F1 | now apply F2]. }
    subst y. f_equal. apply IH.
    + now apply StronglySorted_Sorted.
    + now apply StronglySorted_Sorted.
    + assumption.
    + assumption.
    + intros z. split; intros Hz.
      * destruct (proj1 (Hin z) (or_intror Hz)) as [E|H]; [|exact H].
        subst. contradiction.
      * destruct (proj2 (Hin z) (or_intror Hz)) as [E|H]; [|exact H].
        subst. contradiction.
Qed.

End Sorting.

Section LookupMore.
Import Lookup.

(** *** Loading *)

Lemma dict_set_In {V} (k k' : string) (v c : V) (d : dict V) :
  In (k, c) (dict_set k' v d) -> In (k, c) d \/ (k = k' /\ c = v).
Proof.
  induction d as [|[k0 v0] d IH]; simpl.
  - intros [H|[]]. inversion H. auto.
  - destruct (k0 =? k') eqn:E; simpl.
    + intros [H|H]; [|auto]. inversion H; subst.
      apply String.eqb_eq in E. auto.
    + intros [H|H]; [auto|]. destruct (IH H) as [H'|H']; auto.
Qed.

Lemma tagged_dict_set k c catalogs :
  tagged catalogs ->
  (forall r, In r (rows c) -> lookup_source r = k) ->
  tagged (dict_set k c catalogs).
Proof.
  intros Ht Hc k' c' Hin r Hr.
  destruct (dict_set_In _ _ _ _ _ Hin) as [H|[-> ->]].
  - exact (Ht _ _ H _ Hr).
  - now apply Hc.
Qed.

Lemma load_lookup_source name df r :
  In r (rows (load_lookup name df)) -> lookup_source r = name.
Proof.
  unfold load_lookup. cbn [rows]. rewrite in_map_iff.
  intros (r0 & <- & _). reflexivity.
Qed.

Lemma load_all_tagged (eps : dict Catalog) :
  forall acc, tagged acc ->
    tagged (fold_left
              (fun dfs kv => dict_set (fst kv) (load_lookup (fst kv) (snd kv)) dfs)
              eps acc).
Proof.
  induction eps as [|[k v] eps IH]; intros acc Hacc; [exact Hacc|].
  simpl. apply IH. apply tagged_dict_set; [exact Hacc|].
  intros r. apply load_lookup_source.
Qed.

(** Property X1.  After loading, every row carries the name of the entry point it came
    from, whatever the loader had put in that column. *)
Theorem get_lookups_tagged (entrypoints : dict Catalog) :
  tagged (get_lookups entrypoints).
Proof.
  unfold get_lookups. apply load_all_tagged. intros k c [].
Qed.

Lemma dict_set_fresh {V} (k : string) (v : V) (d : dict V) :
  ~ In k (map fst d) -> dict_set k v d = (d ++ [(k, v)])%list.
Proof.
  induction d as [|[k0 v0] d IH]; simpl; intros Hn; [reflexivity|].
  destruct (k0 =? k) eqn:E.
  - apply String.eqb_eq in E. tauto.
  - f_equal. apply IH. tauto.
Qed.

(** Property X2.  Entry points with distinct names are loaded in their order, one
    catalog each. *)
Theorem get_lookups_distinct_names (entrypoints : dict Catalog) :
  NoDup (map fst entrypoints) ->
  get_lookups entrypoints =
    map (fun kv => (fst kv, load_lookup (fst kv) (snd kv))) entrypoints /\
  map fst (get_lookups entrypoints) = list_catalogs entrypoints /\
  forall name df, In (name, df) entrypoints ->
    dict_get name (get_lookups entrypoints) = Some (load_lookup name df).
Proof.
  intros Hnd.
  assert (H : forall acc,
            NoDup (map fst acc ++ map fst entrypoints)%list ->
            fold_left
              (fun dfs kv => dict_set (fst kv) (load_lookup (fst kv) (snd kv)) dfs)
              entrypoints acc =
            (acc ++ map (fun kv => (fst kv, load_lookup (fst kv) (snd kv))) entrypoints)%list).
  { clear Hnd. induction entrypoints as [|[k v] eps IH]; intros acc Hacc; simpl.
    - now rewrite app_nil_r.
    - simpl in Hacc. rewrite dict_set_fresh.
      + rewrite IH.
        * now rewrite <- app_assoc.
        * rewrite map_app. simpl. rewrite <- app_assoc. exact Hacc.
      + apply NoDup_remove_2 in Hacc. intros Hin. apply Hacc.
        apply in_or_app. now left. }
  assert (E : get_lookups entrypoints =
              map (fun kv => (fst kv, load_lookup (fst kv) (snd kv))) entrypoints).
  { unfold get_lookups. now rewrite H. }
  split; [exact E|]. split.
  - rewrite E, map_map. reflexivity.
  - rewrite E. clear E H. induction entrypoints as [|[k v] eps IH];
      intros name df Hin; [destruct Hin|].
    simpl in *. inversion Hnd as [|? ? Hk Hnd']; subst.
    destruct Hin as [Hin|Hin].
    + inversion Hin; subst. now rewrite String.eqb_refl.
    + destruct (k =? name) eqn:Ek.
      * apply String.eqb_eq in Ek. subst. elim Hk.
        apply in_map_iff. exists (name, df). auto.
      * now apply IH.
Qed.


(** *** Reading *)

Variable entrypoints : dict Catalog.

(** A read of the merged view touches neither the files nor the catalogs,
    and leaves a state in which the same read gives the same again. *)
Lemma data_state st r st' :
  data entrypoints st = (r, st') ->
  files st' = files st /\
  fst (get_catalogs entrypoints st') = fst (get_catalogs entrypoints st) /\
  data entrypoints st' = (r, st').
Proof.
  unfold data. destruct (_concat_catalogs st) as [c|] eqn:Ec.
  - intros H. inversion H; subst. rewrite Ec. auto.
  - unfold bind, get_catalogs, lift.
    destruct (_catalogs st) as [|kv cs] eqn:Es.
    + destruct (get_lookups entrypoints) as [|kv' cs'] eqn:El; simpl;
        intros H; inversion H; subst; simpl; rewrite ?El; simpl;
        rewrite ?Ec; auto.
    + simpl. intros H. inversion H; subst. simpl. rewrite Es. auto.
Qed.

Lemma select_lookup_state identifier0 t st r st' :
  select_lookup entrypoints identifier0 t st = (r, st') ->
  files st' = files st /\
  fst (get_catalogs entrypoints st') = fst (get_catalogs entrypoints st) /\
  select_lookup entrypoints identifier0 t st' = (r, st').
Proof.
  unfold select_lookup, bind at 1.
  destruct (data entrypoints st) as [[d|e] st1] eqn:Hd.
  - destruct (data_state _ _ _ Hd) as (Hf & Hg & Hd1).
    unfold bind, ret. rewrite !Hd1. intros H. inversion H; subst.
    rewrite !Hd1. auto.
  - destruct (data_state _ _ _ Hd) as (Hf & Hg & Hd1).
    intros H. inversion H; subst. unfold bind. rewrite Hd1. auto.
Qed.


Lemma list_eq (t : string) st d st1 :
  data entrypoints st = (Ok d, st1) ->
  (t = TYPE_ASSEMBLY ->
   list_assemblies entrypoints st =
     (Ok (sorted (py_set (map identifier (rows_of_type t d)))), st1)) /\
  (t = TYPE_STIMULUS_SET ->
   list_stimulus_sets entrypoints st =
     (Ok (sorted (py_set (map identifier (rows_of_type t d)))), st1)).
Proof.
  intros H. destruct (data_cached _ _ _ _ H) as [_ H1].
  split; intros ->; unfold list_assemblies, list_stimulus_sets, bind, ret;
    rewrite H, H1, boolean_index_map; reflexivity.
Qed.

(** The four read operations in one: each is a read of the merged view
    followed by a computation on it. *)
Lemma reads_after_data st :
  forall r st',
    data entrypoints st = (r, st') ->
    (forall identifier0,
       snd (lookup_assembly entrypoints identifier0 st) = st' /\
       snd (lookup_stimulus_set entrypoints identifier0 st) = st') /\
    snd (list_assemblies entrypoints st) = st' /\
    snd (list_stimulus_sets entrypoints st) = st'.
Proof.
  intros [d|e] st' H.
  - destruct (list_eq TYPE_ASSEMBLY _ _ _ H) as [Ha _].
    destruct (list_eq TYPE_STIMULUS_SET _ _ _ H) as [_ Hs].
    rewrite (Ha eq_refl), (Hs eq_refl). split; [|auto].
    intros identifier0.
    now rewrite (lookup_assembly_eq entrypoints _ identifier0 _ _ H),
                (lookup_stimulus_set_eq entrypoints _ identifier0 _ _ H).
  - split; [intros identifier0; split|split].
    + unfold lookup_assembly, bind.
      now rewrite (select_lookup_raise entrypoints _ _ _ _ _ H).
    + unfold lookup_stimulus_set, bind.
      now rewrite (select_lookup_raise entrypoints _ _ _ _ _ H).
    + unfold list_assemblies, bind. now rewrite H.
    + unfold list_stimulus_sets, bind. now rewrite H.
Qed.

(** Property X3.  The read operations write nothing: [lookup_assembly],
    [lookup_stimulus_set], [list_assemblies] and [list_stimulus_sets] leave
    the files as they are and the catalogs [get_catalogs] returns as they
    are. *)
Theorem reads_write_nothing st identifier0 :
  let unchanged st' :=
    files st' = files st /\
    fst (get_catalogs entrypoints st') = fst (get_catalogs entrypoints st) in
  unchanged (snd (lookup_assembly entrypoints identifier0 st)) /\
  unchanged (snd (lookup_stimulus_set entrypoints identifier0 st)) /\
  unchanged (snd (list_assemblies entrypoints st)) /\
  unchanged (snd (list_stimulus_sets entrypoints st)).
Proof.
  intros unchanged.
  destruct (data entrypoints st) as [r st'] eqn:H.
  destruct (reads_after_data _ _ _ H) as (Hl & Ha & Hs).
  destruct (Hl identifier0) as [H1 H2].
  destruct (data_state _ _ _ H) as (Hf & Hg & _).
  rewrite H1, H2, Ha, Hs. unfold unchanged. auto.
Qed.

Lemma repeated_read st identifier0 :
  (forall r st', lookup_assembly entrypoints identifier0 st = (r, st') ->
                 lookup_assembly entrypoints identifier0 st' = (r, st')) /\
  (forall r st', lookup_stimulus_set entrypoints identifier0 st = (r, st') ->
                 lookup_stimulus_set entrypoints identifier0 st' = (r, st')) /\
  (forall r st', list_assemblies entrypoints st = (r, st') ->
                 list_assemblies entrypoints st' = (r, st')) /\
  (forall r st', list_stimulus_sets entrypoints st = (r, st') ->
                 list_stimulus_sets entrypoints st' = (r, st')).
Proof.
  destruct (data entrypoints st) as [[d|e] st1] eqn:H;
    destruct (data_state _ _ _ H) as (_ & _ & H1).
  - destruct (list_eq TYPE_ASSEMBLY _ _ _ H) as [Ha _].
    destruct (list_eq TYPE_STIMULUS_SET _ _ _ H) as [_ Hs].
    destruct (list_eq TYPE_ASSEMBLY _ _ _ H1) as [Ha1 _].
    destruct (list_eq TYPE_STIMULUS_SET _ _ _ H1) as [_ Hs1].
    repeat split; intros r st' E.
    + rewrite (lookup_assembly_eq entrypoints _ identifier0 _ _ H) in E. inversion E; subst.
      now rewrite (lookup_assembly_eq entrypoints _ identifier0 _ _ H1).
    + rewrite (lookup_stimulus_set_eq entrypoints _ identifier0 _ _ H) in E. inversion E; subst.
      now rewrite (lookup_stimulus_set_eq entrypoints _ identifier0 _ _ H1).
    + rewrite (Ha eq_refl) in E. inversion E; subst. now rewrite (Ha1 eq_refl).
    + rewrite (Hs eq_refl) in E. inversion E; subst. now rewrite (Hs1 eq_refl).
  - repeat split; intros r st' E.
    + unfold lookup_assembly, bind in E |- *.
      rewrite (select_lookup_raise entrypoints _ _ _ _ _ H) in E. inversion E; subst.
      now rewrite (select_lookup_raise entrypoints _ _ _ _ _ H1).
    + unfold lookup_stimulus_set, bind in E |- *.
      rewrite (select_lookup_raise entrypoints _ _ _ _ _ H) in E. inversion E; subst.
      now rewrite (select_lookup_raise entrypoints _ _ _ _ _ H1).
    + unfold list_assemblies, bind in E |- *. rewrite H in E. inversion E; subst.
      now rewrite H1.
    + unfold list_stimulus_sets, bind in E |- *. rewrite H in E. inversion E; subst.
      now rewrite H1.
Qed.

(** Property X4.  Asked twice, a read operation answers the same, and the second call
    changes nothing at all: running it again in the state it left returns
    the same result and the same state. *)
Theorem reads_repeatable st identifier0 :
  lookup_assembly entrypoints identifier0
    (snd (lookup_assembly entrypoints identifier0 st)) =
    lookup_assembly entrypoints identifier0 st /\
  lookup_stimulus_set entrypoints identifier0
    (snd (lookup_stimulus_set entrypoints identifier0 st)) =
    lookup_stimulus_set entrypoints identifier0 st /\
  list_assemblies entrypoints (snd (list_assemblies entrypoints st)) =
    list_assemblies entrypoints st /\
  list_stimulus_sets entrypoints (snd (list_stimulus_sets entrypoints st)) =
    list_stimulus_sets entrypoints st.
Proof.
  destruct (repeated_read st identifier0) as (H1 & H2 & H3 & H4).
  repeat split.
  - destruct (lookup_assembly entrypoints identifier0 st) as [r st'] eqn:E.
    exact (H1 _ _ eq_refl).
  - destruct (lookup_stimulus_set entrypoints identifier0 st) as [r st'] eqn:E.
    exact (H2 _ _ eq_refl).
  - destruct (list_assemblies entrypoints st) as [r st'] eqn:E.
    exact (H3 _ _ eq_refl).
  - destruct (list_stimulus_sets entrypoints st) as [r st'] eqn:E.
    exact (H4 _ _ eq_refl).
Qed.

(** Property X5.  With no catalog registered, the reads raise the [ValueError] of
    [pd.concat], not a lookup error. *)
Theorem reads_without_catalogs st identifier0 :
  entrypoints = [] ->
  _catalogs st = [] ->
  _concat_catalogs st = None ->
  fst (data entrypoints st) = Raise (ValueError "No objects to concatenate") /\
  fst (lookup_assembly entrypoints identifier0 st) =
    Raise (ValueError "No objects to concatenate") /\
  fst (lookup_stimulus_set entrypoints identifier0 st) =
    Raise (ValueError "No objects to concatenate") /\
  fst (list_assemblies entrypoints st) = Raise (ValueError "No objects to concatenate") /\
  fst (list_stimulus_sets entrypoints st) = Raise (ValueError "No objects to concatenate").
Proof.
  intros He Hc Hn.
  assert (H : data entrypoints st =
              (Raise (ValueError "No objects to concatenate"),
               mkState [] None (files st))).
  { unfold data, bind, get_catalogs, lift. rewrite Hn, Hc, He. reflexivity. }
  rewrite H. split; [reflexivity|].
  unfold lookup_assembly, lookup_stimulus_set, list_assemblies, list_stimulus_sets, bind.
  rewrite !(select_lookup_raise entrypoints _ _ _ _ _ H), H. auto.
Qed.

(** Property X6.  A record [lookup_assembly] returns is a row of the merged view, has
    the identifier asked for and the type assembly, and every assembly row
    of that identifier agrees with it on all columns but the source. *)
Theorem lookup_assembly_sound st identifier0 r st' :
  lookup_assembly entrypoints identifier0 st = (Ok r, st') ->
  identifier r = identifier0 /\ lookup_type r = TYPE_ASSEMBLY /\
  exists d,
    _concat_catalogs st' = Some d /\ In r d /\
    forall x, In x d -> identifier x = identifier0 -> lookup_type x = TYPE_ASSEMBLY ->
              same_record x r = true.
Proof.
  intros H.
  destruct (data entrypoints st) as [[d|e] st1] eqn:Hd.
  2:{ unfold lookup_assembly, bind in H.
      rewrite (select_lookup_raise entrypoints _ _ _ _ _ Hd) in H. discriminate. }
  rewrite (lookup_assembly_eq entrypoints _ identifier0 _ _ Hd) in H.
  destruct (data_cached _ _ _ _ Hd) as [Hc _].
  set (lookup := candidates identifier0 TYPE_ASSEMBLY d) in *.
  destruct lookup as [|r0 rest] eqn:El; [discriminate|]. rewrite <- El in *.
  destruct (drop_duplicates lookup) as [|a [|b l]] eqn:Edd; try discriminate.
  inversion H; subst a st'. clear H.
  assert (Hin : In r lookup).
  { apply (drop_duplicates_from_incl [] lookup). unfold drop_duplicates in Edd.
    rewrite Edd. now left. }
  destruct (candidates_identifier _ _ _ _ Hin) as [Hi Ht].
  split; [exact Hi|]. split; [exact Ht|].
  exists d. split; [exact Hc|]. split.
  - unfold lookup, candidates in Hin. now apply filter_In in Hin.
  - intros x Hx Hxi Hxt.
    assert (Hxl : In x lookup).
    { unfold lookup, candidates. apply filter_In. split; [exact Hx|].
      rewrite Hxi, Hxt, !String.eqb_refl. reflexivity. }
    destruct (drop_duplicates_covers _ _ Hxl) as (y & Hy & Hs).
    rewrite Edd in Hy. destruct Hy as [<-|[]]. exact Hs.
Qed.

(** Property X7.  The pair [lookup_stimulus_set] returns: a row that
    passes [_is_csv_lookup] and a row that passes [_is_zip_lookup], both
    rows of the merged view and of the identifier asked for, and different
    records, their locations being different. *)
Theorem lookup_stimulus_set_sound st identifier0 t z st' :
  lookup_stimulus_set entrypoints identifier0 st = (Ok (t, z), st') ->
  _is_csv_lookup t = true /\ _is_zip_lookup z = true /\
  identifier t = identifier0 /\ identifier z = identifier0 /\
  same_record t z = false /\
  exists d, _concat_catalogs st' = Some d /\ In t d /\ In z d.
Proof.
  intros H.
  destruct (data entrypoints st) as [[d|e] st1] eqn:Hd.
  2:{ unfold lookup_stimulus_set, bind in H.
      rewrite (select_lookup_raise entrypoints _ _ _ _ _ Hd) in H. discriminate. }
  rewrite (lookup_stimulus_set_eq entrypoints _ identifier0 _ _ Hd) in H.
  destruct (data_cached _ _ _ _ Hd) as [Hc _].
  set (lookup := candidates identifier0 TYPE_STIMULUS_SET d) in *.
  destruct lookup as [|r0 rest] eqn:El; [discriminate|]. rewrite <- El in *.
  destruct (_lookup_stimulus_set_filtered lookup _is_csv_lookup "CSV") as [t'|] eqn:Et;
    [|discriminate].
  destruct (_lookup_stimulus_set_filtered lookup _is_zip_lookup "zip") as [z'|] eqn:Ez;
    [|discriminate].
  inversion H; subst t' z' st'. clear H.
  destruct (_lookup_stimulus_set_filtered_ok _ _ _ _ Et) as (Htin & Htc & _).
  destruct (_lookup_stimulus_set_filtered_ok _ _ _ _ Ez) as (Hzin & Hzc & _).
  destruct (candidates_identifier _ _ _ _ Htin) as [Hti _].
  destruct (candidates_identifier _ _ _ _ Hzin) as [Hzi _].
  repeat split; try assumption.
  - now apply csv_zip_distinct.
  - exists d. unfold lookup, candidates in Htin, Hzin.
    apply filter_In in Htin, Hzin. tauto.
Qed.

(** *** Listing *)

Lemma listing_In t d x :
  In x (sorted (py_set (map identifier (rows_of_type t d)))) <->
  exists r, In r d /\ lookup_type r = t /\ identifier r = x.
Proof.
  split.
  - intros H. apply (Permutation_in _ (Permutation_sym (sorted_Permutation _))) in H.
    unfold py_set in H. apply nodup_In in H. apply in_map_iff in H.
    destruct H as (r & Hr & Hin). unfold rows_of_type in Hin.
    apply filter_In in Hin. destruct Hin as [Hin Ht]. apply String.eqb_eq in Ht.
    eauto.
  - intros (r & Hin & Ht & Hx).
    apply (Permutation_in _ (sorted_Permutation _)).
    unfold py_set. apply nodup_In. apply in_map_iff. exists r. split; [exact Hx|].
    unfold rows_of_type. apply filter_In. split; [exact Hin|].
    now apply String.eqb_eq.
Qed.

Lemma listing_NoDup t d :
  NoDup (sorted (py_set (map identifier (rows_of_type t d)))).
Proof.
  eapply Permutation_NoDup; [apply sorted_Permutation|].
  apply NoDup_nodup.
Qed.

(** Property X8.  The listings: [list_assemblies] and [list_stimulus_sets] return, in
    ascending order and without repetition, exactly the identifiers that
    have a row of their type in the merged view; no other list is
    ascending, free of repetition and made of these identifiers. *)
Theorem listings_sorted_distinct st d st1 :
  data entrypoints st = (Ok d, st1) ->
  let ascending := Sorted (fun a b => (a <=? b) = true) in
  let lists t l :=
    ascending l /\ NoDup l /\
    (forall x, In x l <-> exists r, In r d /\ lookup_type r = t /\ identifier r = x) /\
    (forall l', ascending l' -> NoDup l' ->
                (forall x, In x l' <->
                           exists r, In r d /\ lookup_type r = t /\ identifier r = x) ->
                l' = l) in
  (exists l, list_assemblies entrypoints st = (Ok l, st1) /\ lists TYPE_ASSEMBLY l) /\
  (exists l, list_stimulus_sets entrypoints st = (Ok l, st1) /\
             lists TYPE_STIMULUS_SET l).
Proof.
  intros H ascending lists.
  assert (Hl : forall t, lists t (sorted (py_set (map identifier (rows_of_type t d))))).
  { intros t. unfold lists, ascending. repeat split.
    - apply sorted_Sorted.
    - apply listing_NoDup.
    - apply listing_In.
    - apply listing_In.
    - intros l' Hs Hn Hin. apply ascending_unique; auto.
      + apply sorted_Sorted.
      + apply listing_NoDup.
      + intros x. rewrite Hin. symmetry. apply listing_In. }
  destruct (list_eq TYPE_ASSEMBLY _ _ _ H) as [Ha _].
  destruct (list_eq TYPE_STIMULUS_SET _ _ _ H) as [_ Hs].
  split; eexists; (split; [auto | apply Hl]).
Qed.

(** Property X9.  An identifier is listed exactly when its lookup does not fail with
    the not-found error of its kind. *)
Theorem listed_iff_found st d st1 identifier0 :
  data entrypoints st = (Ok d, st1) ->
  exists la ls,
    list_assemblies entrypoints st = (Ok la, st1) /\
    list_stimulus_sets entrypoints st = (Ok ls, st1) /\
    (In identifier0 la <->
     fst (lookup_assembly entrypoints identifier0 st) <>
       Raise (AssemblyLookupError ("assembly " ++ identifier0 ++ " not found"))) /\
    (In identifier0 ls <->
     fst (lookup_stimulus_set entrypoints identifier0 st) <>
       Raise (StimulusSetLookupError ("stimulus_set " ++ identifier0 ++ " not found"))).
Proof.
  intros H.
  assert (Hc : forall t, In identifier0
                 (sorted (py_set (map identifier (rows_of_type t d)))) <->
               candidates identifier0 t d <> []).
  { intros t. rewrite listing_In. split.
    - intros (r & Hin & Ht & Hi) E.
      assert (Hr : In r (candidates identifier0 t d)).
      { unfold candidates. apply filter_In. split; [exact Hin|].
        rewrite Hi, Ht, !String.eqb_refl. reflexivity. }
      rewrite E in Hr. destruct Hr.
    - intros Hne. destruct (candidates identifier0 t d) as [|r rest] eqn:E;
        [congruence|].
      assert (Hr : In r (candidates identifier0 t d)) by (rewrite E; now left).
      destruct (candidates_identifier _ _ _ _ Hr) as [Hi Ht].
      unfold candidates in Hr. apply filter_In in Hr. exists r. tauto. }
  destruct (list_eq TYPE_ASSEMBLY _ _ _ H) as [Ha _].
  destruct (list_eq TYPE_STIMULUS_SET _ _ _ H) as [_ Hs].
  eexists. eexists.
  split; [exact (Ha eq_refl)|]. split; [exact (Hs eq_refl)|].
  split.
  - rewrite Hc, (lookup_assembly_eq entrypoints _ identifier0 _ _ H). cbn [fst].
    destruct (candidates identifier0 TYPE_ASSEMBLY d) as [|r rest].
    + split; intros Hx; congruence.
    + split; [|discriminate]. intros _.
      destruct (drop_duplicates (r :: rest)) as [|a [|b l]]; discriminate.
  - rewrite Hc, (lookup_stimulus_set_eq entrypoints _ identifier0 _ _ H). cbn [fst].
    destruct (candidates identifier0 TYPE_STIMULUS_SET d) as [|r rest] eqn:E.
    + split; intros Hx; congruence.
    + split; [|discriminate]. intros _.
      unfold _lookup_stimulus_set_filtered.
      destruct (drop_duplicates (boolean_index (r :: rest) (map _is_csv_lookup (r :: rest))))
        as [|a [|b l]]; try discriminate.
      destruct (drop_duplicates (boolean_index (r :: rest) (map _is_zip_lookup (r :: rest))))
        as [|a' [|b' l']]; discriminate.
Qed.

(** *** Appending *)

Lemma dict_get_In {V} (k : string) (c : V) (d : dict V) :
  dict_get k d = Some c -> In (k, c) d.
Proof.
  induction d as [|[k0 v0] d IH]; simpl; [discriminate|].
  destruct (k0 =? k) eqn:E.
  - intros H. inversion H; subst. apply String.eqb_eq in E. subst. now left.
  - intros H. right. now apply IH.
Qed.

Lemma dict_get_set_other {V} (k k' : string) (v : V) (d : dict V) :
  k' <> k -> dict_get k' (dict_set k v d) = dict_get k' d.
Proof.
  intros Hne. induction d as [|[k0 v0] d IH]; simpl.
  - destruct (k =? k') eqn:E; [|reflexivity].
    apply String.eqb_eq in E. congruence.
  - destruct (k0 =? k) eqn:E; simpl.
    + apply String.eqb_eq in E. subst k0.
      destruct (k =? k') eqn:E'; [|reflexivity].
      apply String.eqb_eq in E'. congruence.
    + now rewrite IH.
Qed.

Lemma dict_set_keys {V} (k : string) (v c : V) (d : dict V) :
  dict_get k d = Some c -> map fst (dict_set k v d) = map fst d.
Proof.
  induction d as [|[k0 v0] d IH]; simpl; [discriminate|].
  destruct (k0 =? k) eqn:E; simpl; [reflexivity|].
  intros H. now rewrite IH.
Qed.

(** Property X10.  The exceptions of [append], each with the condition that raises it:
    [KeyError] for an unknown catalog or a catalog without a path,
    [AssertionError] for a lookup type that is neither assembly nor
    stimulus_set, the duplicate [ValueError] for rows already in the named
    catalog; nothing else is raised. *)
Theorem append_exceptions st catalog_name object_identifier cls lookup_type0
        bucket_name sha1_0 s3_key stimulus_set_identifier0 catalogs st1 e st' :
  get_catalogs entrypoints st = (Ok catalogs, st1) ->
  append entrypoints catalog_name object_identifier cls lookup_type0 bucket_name
         sha1_0 s3_key stimulus_set_identifier0 st = (Raise e, st') ->
  (e = KeyError catalog_name /\ dict_get catalog_name catalogs = None) \/
  (e = KeyError CATALOG_PATH_KEY /\
   exists c, dict_get catalog_name catalogs = Some c /\ attrs_catalog_path c = None) \/
  (e = AssertionError /\
   lookup_type0 <> TYPE_ASSEMBLY /\ lookup_type0 <> TYPE_STIMULUS_SET /\
   exists c p, dict_get catalog_name catalogs = Some c /\ attrs_catalog_path c = Some p) \/
  (e = ValueError (duplicate_msg object_identifier) /\
   (lookup_type0 = TYPE_ASSEMBLY \/ lookup_type0 = TYPE_STIMULUS_SET) /\
   exists c p, dict_get catalog_name catalogs = Some c /\
               attrs_catalog_path c = Some p /\
               candidates object_identifier lookup_type0 (rows c) <> []).
Proof.
  intros Hg H.
  destruct (dict_get catalog_name catalogs) as [c|] eqn:Hc.
  2:{ unfold append, bind in H. rewrite Hg, Hc in H. unfold raise in H.
      inversion H. left. auto. }
  destruct (attrs_catalog_path c) as [p|] eqn:Hp.
  2:{ unfold append, bind in H. rewrite Hg, Hc, Hp in H. unfold raise in H.
      inversion H. right. left. eauto. }
  destruct ((lookup_type0 =? TYPE_ASSEMBLY) || (lookup_type0 =? TYPE_STIMULUS_SET))
    eqn:Ha.
  2:{ unfold append, bind in H. rewrite Hg, Hc, Hp in H.
      cbn [lookup_type object_lookup_of] in H. rewrite Ha in H.
      unfold raise in H. simpl in H. inversion H.
      apply orb_false_iff in Ha. destruct Ha as [Ha1 Ha2].
      apply String.eqb_neq in Ha1, Ha2.
      right. right. left. repeat split; eauto. }
  assert (Ht : lookup_type0 = TYPE_ASSEMBLY \/ lookup_type0 = TYPE_STIMULUS_SET).
  { apply orb_true_iff in Ha. rewrite !String.eqb_eq in Ha. exact Ha. }
  rewrite (append_eq _ _ _ _ _ _ _ _ _ _ _ _ _ _ Hg Hc Hp Ht) in H.
  rewrite check_duplicates_spec in H.
  - cbn [identifier object_lookup_of] in H.
    right. right. right.
    destruct (candidates object_identifier lookup_type0 (rows c)) as [|d [|d' ds]] eqn:E.
    + discriminate.
    + match type of H with
      | context [if ?b then _ else _] => destruct b
      end; [discriminate|]. inversion H.
      split; [reflexivity|]. split; [exact Ht|].
      exists c, p. split; [reflexivity|]. split; [exact Hp|].
      rewrite ?E. discriminate.
    + inversion H.
      split; [reflexivity|]. split; [exact Ht|].
      exists c, p. split; [reflexivity|]. split; [exact Hp|].
      rewrite ?E. discriminate.
  - exact Ht.
  - intros d Hd. apply candidates_identifier in Hd. apply Hd.
Qed.

(** Property X11.  A successful [append] touches one catalog and one file: the catalogs
    keep their names and order, the named catalog keeps its path and rows
    and gains the new record at its end, every other catalog and every
    file at another path is as before. *)
Theorem append_frame st catalog_name object_identifier cls lookup_type0
        bucket_name sha1_0 s3_key stimulus_set_identifier0 catalogs st1 st' :
  get_catalogs entrypoints st = (Ok catalogs, st1) ->
  append entrypoints catalog_name object_identifier cls lookup_type0 bucket_name
         sha1_0 s3_key stimulus_set_identifier0 st = (Ok tt, st') ->
  map fst (_catalogs st') = map fst catalogs /\
  (forall k, k <> catalog_name ->
             dict_get k (_catalogs st') = dict_get k catalogs) /\
  exists c p,
    dict_get catalog_name catalogs = Some c /\
    attrs_catalog_path c = Some p /\
    dict_get catalog_name (_catalogs st') =
      Some (mkCatalog
              (rows c ++
               [object_lookup_of catalog_name object_identifier cls lookup_type0
                  bucket_name sha1_0 s3_key stimulus_set_identifier0])%list
              (Some p)) /\
    (forall p', p' <> p -> dict_get p' (files st') = dict_get p' (files st)).
Proof.
  intros Hg H.
  destruct (append_ok_state _ _ _ _ _ _ _ _ _ _ _ H)
    as (catalogs' & c & p & Hg' & Hc & Hp & Hst).
  assert (catalogs' = catalogs) by congruence. subst catalogs'.
  subst st'. cbn [_catalogs files]. split; [|split].
  - eapply dict_set_keys; eassumption.
  - intros k Hk. now apply dict_get_set_other.
  - exists c, p. repeat split; auto.
    + now rewrite dict_get_set_same, Hp.
    + intros p' Hp'. now apply dict_get_set_other.
Qed.

(** Property X12.  Once an assembly is appended to a catalog, appending any assembly
    under the same identifier to that catalog again is refused with the
    duplicate error, and the refusal changes nothing. *)
Theorem append_assembly_twice st catalog_name object_identifier cls
        bucket_name sha1_0 s3_key stimulus_set_identifier0 st'
        cls' bucket_name' sha1_1 s3_key' stimulus_set_identifier1 :
  append entrypoints catalog_name object_identifier cls TYPE_ASSEMBLY bucket_name
         sha1_0 s3_key stimulus_set_identifier0 st = (Ok tt, st') ->
  append entrypoints catalog_name object_identifier cls' TYPE_ASSEMBLY bucket_name'
         sha1_1 s3_key' stimulus_set_identifier1 st' =
    (Raise (ValueError (duplicate_msg object_identifier)), st').
Proof.
  intros H.
  destruct (append_ok_state _ _ _ _ _ _ _ _ _ _ _ H)
    as (catalogs & c & p & Hg & Hc & Hp & Hst).
  set (obj := object_lookup_of catalog_name object_identifier cls TYPE_ASSEMBLY
                bucket_name sha1_0 s3_key stimulus_set_identifier0) in *.
  set (c' := mkCatalog (rows c ++ [obj])%list (attrs_catalog_path c)) in *.
  assert (Hg' : get_catalogs entrypoints st' = (Ok (_catalogs st'), st')).
  { subst st'. unfold get_catalogs. cbn [_catalogs _concat_catalogs files].
    destruct (dict_set catalog_name c' catalogs) eqn:E; [|reflexivity].
    now apply dict_set_nonempty in E. }
  assert (Hc' : dict_get catalog_name (_catalogs st') = Some c').
  { subst st'. cbn [_catalogs]. apply dict_get_set_same. }
  rewrite (append_eq _ _ _ _ _ _ _ _ _ _ _ _ _ _ Hg' Hc' Hp (or_introl eq_refl)).
  rewrite check_duplicates_spec.
  - assert (Hin : In obj (candidates object_identifier TYPE_ASSEMBLY (rows c'))).
    { unfold candidates. apply filter_In. split.
      - subst c'. cbn [rows]. apply in_or_app. right. now left.
      - subst obj. cbn [identifier lookup_type object_lookup_of].
        now rewrite !String.eqb_refl. }
    destruct (candidates object_identifier TYPE_ASSEMBLY (rows c')) as [|d [|d' ds]].
    + destruct Hin.
    + unfold _is_zip_lookup at 1, _is_csv_lookup at 2.
      cbn [lookup_type object_lookup_of identifier].
      replace (TYPE_ASSEMBLY =? TYPE_STIMULUS_SET) with false by reflexivity.
      cbn [andb]. rewrite !andb_false_r. reflexivity.
    + reflexivity.
  - left. reflexivity.
  - intros d Hd. apply candidates_identifier in Hd. apply Hd.
Qed.
End LookupMore.

(** * Invariants of the catalogs *)

Section LookupInvariants.
Import Lookup.

Lemma candidates_app identifier0 t l1 l2 :
  candidates identifier0 t (l1 ++ l2) =
  (candidates identifier0 t l1 ++ candidates identifier0 t l2)%list.
Proof. unfold candidates. apply filter_app. Qed.

Lemma candidates_single identifier0 t r :
  candidates identifier0 t [r] =
  if (identifier r =? identifier0) && (lookup_type r =? t) then [r] else [].
Proof. reflexivity. Qed.

Lemma candidates_object identifier0 t catalog_name object_identifier cls lookup_type0
      bucket_name sha1_0 s3_key stimulus_set_identifier0 :
  candidates identifier0 t
    [object_lookup_of catalog_name object_identifier cls lookup_type0 bucket_name
       sha1_0 s3_key stimulus_set_identifier0] =
  if (object_identifier =? identifier0) && (lookup_type0 =? t)
  then [object_lookup_of catalog_name object_identifier cls lookup_type0 bucket_name
          sha1_0 s3_key stimulus_set_identifier0]
  else [].
Proof. reflexivity. Qed.

Variable entrypoints : dict Catalog.

Lemma get_catalogs_tagged st catalogs st1 :
  tagged (_catalogs st) ->
  get_catalogs entrypoints st = (Ok catalogs, st1) ->
  tagged catalogs.
Proof.
  intros Ht H. destruct (get_catalogs_spec entrypoints st) as (cs & E & Hne & Hnil).
  assert (catalogs = cs) by congruence. subst catalogs.
  destruct (_catalogs st) as [|kv l] eqn:Es.
  - rewrite (Hnil eq_refl). unfold get_lookups. apply load_all_tagged. intros k c [].
  - rewrite Hne; [exact Ht | discriminate].
Qed.

(** Property X13.  [append] keeps every row tagged with the name of its catalog, whether
    it succeeds or raises. *)
Theorem append_keeps_tagged st catalog_name object_identifier cls lookup_type0
        bucket_name sha1_0 s3_key stimulus_set_identifier0 :
  tagged (_catalogs st) ->
  tagged (_catalogs (snd (append entrypoints catalog_name object_identifier cls
                            lookup_type0 bucket_name sha1_0 s3_key
                            stimulus_set_identifier0 st))).
Proof.
  intros Ht.
  destruct (append entrypoints catalog_name object_identifier cls lookup_type0
              bucket_name sha1_0 s3_key stimulus_set_identifier0 st)
    as [r st'] eqn:H.
  cbn [snd].
  destruct (append_inv _ _ _ _ _ _ _ _ _ _ _ _ H) as (catalogs & Hg & Hcase).
  pose proof (get_catalogs_tagged _ _ _ Ht Hg) as Htc.
  destruct r as [[]|e].
  - destruct (append_ok_state _ _ _ _ _ _ _ _ _ _ _ H)
      as (catalogs' & c & p & Hg' & Hc & Hp & Hst).
    assert (catalogs' = catalogs) by congruence. subst catalogs' st'.
    cbn [_catalogs]. apply tagged_dict_set; [exact Htc|].
    cbn [rows]. intros r Hr. apply in_app_or in Hr. destruct Hr as [Hr|[<-|[]]].
    + exact (Htc _ _ (dict_get_In _ _ _ Hc) _ Hr).
    + reflexivity.
  - destruct Hcase as [(e' & _ & Hst)|(c & p & Hr & _)]; [|discriminate].
    subst st'. exact Htc.
Qed.

Lemma data_coherent st :
  cache_coherent st -> cache_coherent (snd (data entrypoints st)).
Proof.
  unfold cache_coherent, data. destruct (_concat_catalogs st) as [c|] eqn:Ec.
  - intros H. cbn [snd]. rewrite Ec. exact H.
  - intros _. unfold bind, get_catalogs, lift.
    destruct (_catalogs st) as [|kv cs] eqn:Es.
    + destruct (get_lookups entrypoints) as [|kv' cs'] eqn:El; simpl;
        intros d Hd; rewrite ?Ec in Hd; try discriminate.
      inversion Hd. split; [discriminate | reflexivity].
    + simpl. intros d Hd. inversion Hd. rewrite Es.
      split; [discriminate | reflexivity].
Qed.

(** Property X14.  The cached merged view is never stale: every operation leaves it
    either empty or equal to the concatenation of the catalogs. *)
Theorem cache_never_stale st identifier0 catalog_name object_identifier cls
        lookup_type0 bucket_name sha1_0 s3_key stimulus_set_identifier0 :
  cache_coherent st ->
  cache_coherent (snd (data entrypoints st)) /\
  cache_coherent (snd (lookup_assembly entrypoints identifier0 st)) /\
  cache_coherent (snd (lookup_stimulus_set entrypoints identifier0 st)) /\
  cache_coherent (snd (list_assemblies entrypoints st)) /\
  cache_coherent (snd (list_stimulus_sets entrypoints st)) /\
  cache_coherent (snd (append entrypoints catalog_name object_identifier cls
                         lookup_type0 bucket_name sha1_0 s3_key
                         stimulus_set_identifier0 st)).
Proof.
  intros Hcoh.
  pose proof (data_coherent _ Hcoh) as Hd.
  destruct (data entrypoints st) as [r0 st0] eqn:H0.
  destruct (reads_after_data entrypoints _ _ _ H0) as (Hl & Ha & Hs).
  destruct (Hl identifier0) as [H1 H2].
  rewrite H1, H2, Ha, Hs. cbn [snd] in Hd.
  repeat (split; [exact Hd|]).
  destruct (append entrypoints catalog_name object_identifier cls lookup_type0
              bucket_name sha1_0 s3_key stimulus_set_identifier0 st)
    as [r st'] eqn:H.
  cbn [snd]. destruct r as [[]|e].
  - destruct (append_ok_state _ _ _ _ _ _ _ _ _ _ _ H)
      as (catalogs & c & p & _ & _ & _ & Hst).
    subst st'. intros d Hdd. discriminate Hdd.
  - destruct (append_inv _ _ _ _ _ _ _ _ _ _ _ _ H)
      as (catalogs & Hg & [(e' & _ & Hst)|(c & p & Hr & _)]); [|discriminate].
    subst st'. destruct (get_catalogs_spec entrypoints st) as (cs & E & Hne & _).
    assert (cs = catalogs) by congruence. subst cs.
    intros d Hdd. cbn [_concat_catalogs _catalogs] in *.
    destruct (Hcoh d Hdd) as [Hn Hd'].
    rewrite (Hne Hn). split; assumption.
Qed.


End LookupInvariants.

Section LookupComposition.
Import Lookup.

Lemma pair_resolves t z lookup :
  _is_csv_lookup t = true -> _is_zip_lookup z = true ->
  lookup = [t; z] \/ lookup = [z; t] ->
  _lookup_stimulus_set_filtered lookup _is_csv_lookup "CSV" = Ok t /\
  _lookup_stimulus_set_filtered lookup _is_zip_lookup "zip" = Ok z.
Proof.
  intros Ht Hz Hlk.
  pose proof (csv_zip_exclusive t Ht) as Htz.
  assert (Hzc : _is_csv_lookup z = false).
  { destruct (_is_csv_lookup z) eqn:E; [|reflexivity].
    apply csv_zip_exclusive in E. congruence. }
  unfold _lookup_stimulus_set_filtered. rewrite !boolean_index_map.
  destruct Hlk as [-> | ->]; cbn [filter]; rewrite Ht, Hz, Htz, Hzc;
    split; reflexivity.
Qed.

Lemma catalog_consistent_single r p : catalog_consistent (mkCatalog [r] p).
Proof.
  intros id. cbn [rows]. rewrite !candidates_single.
  split.
  - destruct ((identifier r =? id) && (lookup_type r =? TYPE_ASSEMBLY)); simpl; lia.
  - destruct ((identifier r =? id) && (lookup_type r =? TYPE_STIMULUS_SET));
      reflexivity.
Qed.

Variable entrypoints : dict Catalog.

(** Property X16.  With a single consistent catalog loaded, a lookup either returns the
    rows of the catalog for the identifier or raises the not-found error of
    its kind: the consistency error is never raised. *)
Theorem single_catalog_lookups st k c identifier0 :
  _catalogs st = [(k, c)] ->
  _concat_catalogs st = None ->
  catalog_consistent c ->
  match fst (lookup_assembly entrypoints identifier0 st) with
  | Ok r => candidates identifier0 TYPE_ASSEMBLY (rows c) = [r]
  | Raise e =>
      e = AssemblyLookupError ("assembly " ++ identifier0 ++ " not found") /\
      candidates identifier0 TYPE_ASSEMBLY (rows c) = []
  end /\
  match fst (lookup_stimulus_set entrypoints identifier0 st) with
  | Ok (t, z) =>
      _is_csv_lookup t = true /\ _is_zip_lookup z = true /\
      (candidates identifier0 TYPE_STIMULUS_SET (rows c) = [t; z] \/
       candidates identifier0 TYPE_STIMULUS_SET (rows c) = [z; t])
  | Raise (StimulusSetLookupError _) =>
      (length (candidates identifier0 TYPE_STIMULUS_SET (rows c)) <= 1)%nat
  | Raise _ => False
  end.
Proof.
  intros Hc Hn Hcons.
  destruct st as [cs cache fs]. cbn [_catalogs _concat_catalogs] in Hc, Hn.
  subst cs cache.
  assert (Hne : [(k, c)] <> []) by discriminate.
  pose proof (data_recomputed entrypoints [(k, c)] fs Hne) as Hd.
  cbn [dict_values map snd concat] in Hd. rewrite app_nil_r in Hd.
  rewrite (lookup_assembly_eq entrypoints _ identifier0 _ _ Hd),
          (lookup_stimulus_set_eq entrypoints _ identifier0 _ _ Hd).
  cbn [fst].
  destruct (Hcons identifier0) as [Ha Hs].
  split.
  - destruct (candidates identifier0 TYPE_ASSEMBLY (rows c)) as [|r [|r' l]].
    + auto.
    + reflexivity.
    + simpl in Ha. lia.
  - destruct (candidates identifier0 TYPE_STIMULUS_SET (rows c)) as [|a [|b [|x l]]].
    + simpl. lia.
    + unfold _lookup_stimulus_set_filtered. rewrite !boolean_index_map. cbn [filter].
      destruct (_is_csv_lookup a) eqn:Ea.
      * rewrite (csv_zip_exclusive _ Ea). simpl. lia.
      * simpl. lia.
    + cbn [stimulus_rows_ok] in Hs. apply orb_true_iff in Hs.
      destruct Hs as [Hs|Hs]; apply andb_true_iff in Hs; destruct Hs as [H1 H2].
      * destruct (pair_resolves a b [a; b] H1 H2 (or_introl eq_refl)) as [E1 E2].
        rewrite E1, E2. auto.
      * destruct (pair_resolves b a [a; b] H2 H1 (or_intror eq_refl)) as [E1 E2].
        rewrite E1, E2. auto.
    + discriminate Hs.
Qed.

(** Property X17.  After a successful [append] the identifier is listed: among the
    assemblies when an assembly was appended, among the stimulus sets when
    a stimulus set was. *)
Theorem append_then_listed st catalog_name object_identifier cls lookup_type0
        bucket_name sha1_0 s3_key stimulus_set_identifier0 st' :
  append entrypoints catalog_name object_identifier cls lookup_type0 bucket_name
         sha1_0 s3_key stimulus_set_identifier0 st = (Ok tt, st') ->
  exists la ls st'',
    list_assemblies entrypoints st' = (Ok la, st'') /\
    list_stimulus_sets entrypoints st' = (Ok ls, st'') /\
    (lookup_type0 = TYPE_ASSEMBLY -> In object_identifier la) /\
    (lookup_type0 = TYPE_STIMULUS_SET -> In object_identifier ls) /\
    (In object_identifier la \/ In object_identifier ls).
Proof.
  intros H.
  assert (Ht : lookup_type0 = TYPE_ASSEMBLY \/ lookup_type0 = TYPE_STIMULUS_SET).
  { destruct (append_inv _ _ _ _ _ _ _ _ _ _ _ _ H)
      as (? & _ & [(e' & He & _)|(? & ? & _ & _ & _ & Ht)]);
      [discriminate | exact Ht]. }
  destruct (append_ok_state _ _ _ _ _ _ _ _ _ _ _ H)
    as (catalogs & c & p & Hg & Hc & Hp & Hst).
  set (obj := object_lookup_of catalog_name object_identifier cls lookup_type0
                bucket_name sha1_0 s3_key stimulus_set_identifier0) in *.
  set (c' := mkCatalog (rows c ++ [obj])%list (attrs_catalog_path c)) in *.
  assert (Hne : dict_set catalog_name c' catalogs <> []) by apply dict_set_nonempty.
  pose proof (data_recomputed entrypoints _
                (dict_set p (to_csv columns (rows c ++ [obj])%list) (files st)) Hne)
    as Hd.
  rewrite <- Hst in Hd.
  destruct (list_eq entrypoints TYPE_ASSEMBLY _ _ _ Hd) as [Ha _].
  destruct (list_eq entrypoints TYPE_STIMULUS_SET _ _ _ Hd) as [_ Hs].
  assert (Hin : In obj (concat (map rows (dict_values (dict_set catalog_name c' catalogs))))).
  { apply in_concat. exists (rows c'). split.
    - apply in_map. apply dict_set_values_In.
    - subst c'. cbn [rows]. apply in_or_app. right. now left. }
  assert (Hl : forall t, lookup_type0 = t ->
             In object_identifier
                (sorted (py_set (map identifier
                   (rows_of_type t
                      (concat (map rows (dict_values (dict_set catalog_name c' catalogs))))))))).
  { intros t Et. apply listing_In. exists obj. split; [exact Hin|].
    split; [exact Et | reflexivity]. }
  eexists. eexists. eexists.
  split; [exact (Ha eq_refl)|]. split; [exact (Hs eq_refl)|].
  split; [exact (Hl _)|]. split; [exact (Hl _)|].
  destruct Ht as [Ht|Ht]; [left | right]; exact (Hl _ Ht).
Qed.

End LookupComposition.

Section StimulusSetParts.
Import Lookup.

Lemma string_length_app (s1 s2 : string) :
  String.length (s1 ++ s2) = (String.length s1 + String.length s2)%nat.
Proof. induction s1 as [|a s1 IH]; simpl; congruence. Qed.

Lemma substring_skip (p s : string) (n m : nat) :
  substring (String.length p + n) m (p ++ s) = substring n m s.
Proof. induction p as [|a p IH]; simpl; [reflexivity | exact IH]. Qed.

(** A key that ends with a suffix still does behind any prefix. *)
Lemma endswith_app (p s suffix : string) :
  endswith s suffix = true -> endswith (p ++ s) suffix = true.
Proof.
  unfold endswith. rewrite !andb_true_iff, !Nat.leb_le, string_length_app.
  intros [Hl He]. split; [lia|].
  replace (String.length p + String.length s - String.length suffix)%nat
    with (String.length p + (String.length s - String.length suffix))%nat by lia.
  now rewrite substring_skip.
Qed.

Lemma dict_set_set {V} (k : string) (v1 v2 : V) (d : dict V) :
  dict_set k v2 (dict_set k v1 d) = dict_set k v2 d.
Proof.
  induction d as [|[k0 v0] d IH]; simpl.
  - now rewrite String.eqb_refl.
  - destruct (k0 =? k) eqn:E; simpl; rewrite E; [reflexivity | now rewrite IH].
Qed.

Lemma candidates_all_nil identifier0 t (d : dict Catalog) :
  (forall k c, In (k, c) d -> candidates identifier0 t (rows c) = []) ->
  candidates identifier0 t (concat (map rows (dict_values d))) = [].
Proof.
  unfold dict_values.
  induction d as [|[k0 v0] d IH]; intros Hall; [reflexivity|].
  cbn [map snd concat]. rewrite candidates_app, (Hall k0 v0 (or_introl eq_refl)).
  apply IH. intros k c Hin. apply (Hall k c). now right.
Qed.

Lemma candidates_dict_set identifier0 t k v (d : dict Catalog) c :
  dict_get k d = Some c ->
  (forall k' c', In (k', c') d -> candidates identifier0 t (rows c') = []) ->
  candidates identifier0 t (concat (map rows (dict_values (dict_set k v d)))) =
  candidates identifier0 t (rows v).
Proof.
  induction d as [|[k0 v0] d IH]; [discriminate|].
  intros Hg Hall. cbn [dict_get] in Hg. cbn [dict_set].
  destruct (k0 =? k) eqn:E.
  - unfold dict_values. cbn [map snd concat]. rewrite candidates_app.
    fold (dict_values d).
    rewrite candidates_all_nil; [apply app_nil_r|].
    intros k' c' Hin. apply (Hall k' c'). now right.
  - unfold dict_values. cbn [map snd concat]. rewrite candidates_app.
    rewrite (Hall k0 v0 (or_introl eq_refl)). fold (dict_values (dict_set k v d)).
    apply IH; [exact Hg|].
    intros k' c' Hin. apply (Hall k' c'). now right.
Qed.

Lemma _is_csv_lookup_object catalog_name object_identifier cls bucket_name sha1_0
      s3_key stimulus_set_identifier0 :
  endswith s3_key ".csv" = true ->
  _is_csv_lookup (object_lookup_of catalog_name object_identifier (ClassName cls)
                    TYPE_STIMULUS_SET bucket_name sha1_0 s3_key
                    stimulus_set_identifier0) = true.
Proof.
  intros H. unfold _is_csv_lookup. cbn [lookup_type location class object_lookup_of].
  rewrite (endswith_app _ _ _ (endswith_app _ _ _ (endswith_app _ _ _ H))).
  reflexivity.
Qed.

Lemma _is_zip_lookup_object catalog_name object_identifier bucket_name sha1_0
      s3_key stimulus_set_identifier0 :
  endswith s3_key ".zip" = true ->
  _is_zip_lookup (object_lookup_of catalog_name object_identifier ClassNone
                    TYPE_STIMULUS_SET bucket_name sha1_0 s3_key
                    stimulus_set_identifier0) = true.
Proof.
  intros H. unfold _is_zip_lookup. cbn [lookup_type location class object_lookup_of].
  rewrite (endswith_app _ _ _ (endswith_app _ _ _ (endswith_app _ _ _ H))).
  reflexivity.
Qed.

Variable entrypoints : dict Catalog.

(** Two records of one new stimulus set, appended one after the other to
    the same catalog, when the pair passes the duplicate check. *)
Lemma two_parts_registered st catalog_name object_identifier
      clsA bucketA shaA keyA ssiA clsB bucketB shaB keyB ssiB catalogs st1 c p :
  get_catalogs entrypoints st = (Ok catalogs, st1) ->
  dict_get catalog_name catalogs = Some c ->
  attrs_catalog_path c = Some p ->
  (forall k c', In (k, c') catalogs ->
     candidates object_identifier TYPE_STIMULUS_SET (rows c') = []) ->
  let oA := object_lookup_of catalog_name object_identifier clsA TYPE_STIMULUS_SET
              bucketA shaA keyA ssiA in
  let oB := object_lookup_of catalog_name object_identifier clsB TYPE_STIMULUS_SET
              bucketB shaB keyB ssiB in
  (_is_csv_lookup oA && _is_zip_lookup oB) || (_is_zip_lookup oA && _is_csv_lookup oB)
    = true ->
  exists st2 st3 d st4,
    append entrypoints catalog_name object_identifier clsA TYPE_STIMULUS_SET
           bucketA shaA keyA ssiA st = (Ok tt, st2) /\
    append entrypoints catalog_name object_identifier clsB TYPE_STIMULUS_SET
           bucketB shaB keyB ssiB st2 = (Ok tt, st3) /\
    data entrypoints st3 = (Ok d, st4) /\
    candidates object_identifier TYPE_STIMULUS_SET d = [oA; oB].
Proof.
  intros Hg Hc Hp Hnone oA oB Hpair.
  assert (Ht : TYPE_STIMULUS_SET = TYPE_ASSEMBLY \/ TYPE_STIMULUS_SET = TYPE_STIMULUS_SET)
    by now right.
  pose proof (Hnone _ _ (dict_get_In _ _ _ Hc)) as Hnil.
  (* first record *)
  pose proof (append_eq entrypoints st catalog_name object_identifier clsA
                TYPE_STIMULUS_SET bucketA shaA keyA ssiA catalogs st1 c p
                Hg Hc Hp Ht) as HA.
  cbv zeta in HA. fold oA in HA. rewrite Hnil in HA.
  change (check_duplicates [] oA) with (@Ok unit tt) in HA. cbv iota in HA.
  set (cA := mkCatalog (rows c ++ [oA])%list (attrs_catalog_path c)) in *.
  set (csA := dict_set catalog_name cA catalogs) in *.
  set (fsA := dict_set p (to_csv columns (rows c ++ [oA])%list) (files st)) in *.
  (* second record *)
  assert (HgA : get_catalogs entrypoints (mkState csA None fsA) =
                (Ok csA, mkState csA None fsA)).
  { unfold get_catalogs. cbn [_catalogs _concat_catalogs files].
    destruct csA eqn:E; [|reflexivity].
    subst csA. now apply dict_set_nonempty in E. }
  assert (HcA : dict_get catalog_name csA = Some cA) by apply dict_get_set_same.
  assert (HpA : attrs_catalog_path cA = Some p) by exact Hp.
  pose proof (append_eq entrypoints (mkState csA None fsA) catalog_name
                object_identifier clsB TYPE_STIMULUS_SET bucketB shaB keyB ssiB
                csA _ cA p HgA HcA HpA Ht) as HB.
  cbv zeta in HB. fold oB in HB.
  assert (EA : candidates object_identifier TYPE_STIMULUS_SET (rows cA) = [oA]).
  { subst cA. cbn [rows]. rewrite candidates_app, Hnil. subst oA.
    rewrite candidates_object, !String.eqb_refl. reflexivity. }
  rewrite EA in HB. rewrite check_duplicates_spec in HB.
  2:{ now right. }
  2:{ intros x [<-|[]]. reflexivity. }
  rewrite Hpair in HB.
  set (cB := mkCatalog (rows cA ++ [oB])%list (attrs_catalog_path cA)) in *.
  set (fsB := dict_set p (to_csv columns (rows cA ++ [oB])%list)
                (files (mkState csA None fsA))) in *.
  assert (Hne : dict_set catalog_name cB csA <> []) by apply dict_set_nonempty.
  pose proof (data_recomputed entrypoints _ fsB Hne) as Hd.
  exists (mkState csA None fsA). eexists. eexists. eexists.
  split; [exact HA|]. split; [exact HB|]. split; [exact Hd|].
  subst csA. rewrite dict_set_set.
  rewrite (candidates_dict_set _ _ _ _ _ _ Hc Hnone).
  subst cB. cbn [rows]. rewrite candidates_app, EA. subst oB.
  rewrite candidates_object, !String.eqb_refl. reflexivity.
Qed.

(** Property X18.  A new stimulus set is registered in two steps, in either order: the
    table under a key ending in .csv with a class, and the archive under a
    key ending in .zip without one.  Both appends succeed and the
    identifier then resolves to the pair of the two records. *)
Theorem stimulus_set_two_steps st catalog_name object_identifier cls
        bucket_csv sha1_csv csv_key ssi_csv bucket_zip sha1_zip zip_key ssi_zip
        catalogs st1 c p :
  get_catalogs entrypoints st = (Ok catalogs, st1) ->
  dict_get catalog_name catalogs = Some c ->
  attrs_catalog_path c = Some p ->
  (forall k c', In (k, c') catalogs ->
     candidates object_identifier TYPE_STIMULUS_SET (rows c') = []) ->
  endswith csv_key ".csv" = true ->
  endswith zip_key ".zip" = true ->
  let table := object_lookup_of catalog_name object_identifier (ClassName cls)
                 TYPE_STIMULUS_SET bucket_csv sha1_csv csv_key ssi_csv in
  let archive := object_lookup_of catalog_name object_identifier ClassNone
                   TYPE_STIMULUS_SET bucket_zip sha1_zip zip_key ssi_zip in
  let add_table := append entrypoints catalog_name object_identifier (ClassName cls)
                     TYPE_STIMULUS_SET bucket_csv sha1_csv csv_key ssi_csv in
  let add_archive := append entrypoints catalog_name object_identifier ClassNone
                       TYPE_STIMULUS_SET bucket_zip sha1_zip zip_key ssi_zip in
  (exists st2 st3 st4,
     add_table st = (Ok tt, st2) /\ add_archive st2 = (Ok tt, st3) /\
     lookup_stimulus_set entrypoints object_identifier st3 =
       (Ok (table, archive), st4)) /\
  (exists st2 st3 st4,
     add_archive st = (Ok tt, st2) /\ add_table st2 = (Ok tt, st3) /\
     lookup_stimulus_set entrypoints object_identifier st3 =
       (Ok (table, archive), st4)).
Proof.
  intros Hg Hc Hp Hnone Hcsv Hzip table archive add_table add_archive.
  assert (Ht : _is_csv_lookup table = true) by now apply _is_csv_lookup_object.
  assert (Hz : _is_zip_lookup archive = true) by now apply _is_zip_lookup_object.
  split.
  - destruct (two_parts_registered st catalog_name object_identifier
                (ClassName cls) bucket_csv sha1_csv csv_key ssi_csv
                ClassNone bucket_zip sha1_zip zip_key ssi_zip
                catalogs st1 c p Hg Hc Hp Hnone)
      as (st2 & st3 & d & st4 & H1 & H2 & Hd & Hcand).
    { fold table archive. now rewrite Ht, Hz. }
    exists st2, st3, st4. split; [exact H1|]. split; [exact H2|].
    rewrite (lookup_stimulus_set_eq entrypoints _ object_identifier _ _ Hd), Hcand.
    destruct (pair_resolves table archive [table; archive] Ht Hz (or_introl eq_refl))
      as [E1 E2].
    fold table archive. rewrite E1, E2. reflexivity.
  - destruct (two_parts_registered st catalog_name object_identifier
                ClassNone bucket_zip sha1_zip zip_key ssi_zip
                (ClassName cls) bucket_csv sha1_csv csv_key ssi_csv
                catalogs st1 c p Hg Hc Hp Hnone)
      as (st2 & st3 & d & st4 & H1 & H2 & Hd & Hcand).
    { fold table archive. rewrite Ht, Hz. apply orb_true_r. }
    exists st2, st3, st4. split; [exact H1|]. split; [exact H2|].
    rewrite (lookup_stimulus_set_eq entrypoints _ object_identifier _ _ Hd), Hcand.
    destruct (pair_resolves table archive [archive; table] Ht Hz (or_intror eq_refl))
      as [E1 E2].
    fold table archive. rewrite E1, E2. reflexivity.
Qed.

End StimulusSetParts.

Section LookupMoreExamples.
Import Lookup Examples.


(** The two catalogs of [two_entrypoints] are loaded in their order. *)
Lemma get_lookups_distinct_names_witness :
  map fst (get_lookups two_entrypoints) = ["brainio_dicarlo"; "brainio_contrib"].
Proof.
  assert (Hnd : NoDup (map fst two_entrypoints)).
  { repeat constructor; simpl; intuition discriminate. }
  destruct (get_lookups_distinct_names two_entrypoints Hnd) as (_ & H & _).
  rewrite H. reflexivity.
Defined.

Lemma reads_without_catalogs_witness :
  fst (list_assemblies [] initial) = Raise (ValueError "No objects to concatenate").
Proof.
  destruct (reads_without_catalogs [] initial hvm_identifier eq_refl eq_refl eq_refl)
    as (_ & _ & _ & H & _).
  exact H.
Defined.

Lemma lookup_assembly_sound_witness :
  exists r,
    fst (lookup_assembly shared_entrypoints hvm_identifier initial) = Ok r /\
    identifier r = hvm_identifier /\ lookup_type r = TYPE_ASSEMBLY.
Proof.
  destruct (lookup_assembly_sound shared_entrypoints initial hvm_identifier _ _ eq_refl)
    as (Hi & Ht & _).
  eexists. split; [reflexivity|]. split; [exact Hi | exact Ht].
Defined.

Lemma lookup_stimulus_set_sound_witness :
  exists t z,
    fst (lookup_stimulus_set shared_entrypoints "dicarlo.hvm-public" initial) = Ok (t, z) /\
    _is_csv_lookup t = true /\ _is_zip_lookup z = true.
Proof.
  destruct (lookup_stimulus_set_sound shared_entrypoints initial "dicarlo.hvm-public"
              _ _ _ eq_refl) as (Hc & Hz & _).
  eexists. eexists. split; [reflexivity|]. split; [exact Hc | exact Hz].
Defined.

Lemma listings_sorted_distinct_witness :
  exists l, fst (list_stimulus_sets shared_entrypoints initial) = Ok l /\ NoDup l.
Proof.
  destruct (listings_sorted_distinct shared_entrypoints initial _ _ eq_refl)
    as [_ (l & Hl & _ & Hn & _)].
  exists l. rewrite Hl. split; [reflexivity | exact Hn].
Defined.

Lemma listed_iff_found_witness :
  exists la, fst (list_assemblies shared_entrypoints initial) = Ok la /\
             In hvm_identifier la.
Proof.
  destruct (listed_iff_found shared_entrypoints initial _ _ hvm_identifier eq_refl)
    as (la & ls & Ha & _ & Hin & _).
  exists la. rewrite Ha. split; [reflexivity|].
  apply Hin. vm_compute. discriminate.
Defined.

Lemma append_exceptions_witness :
  fst (append_unknown initial) = Raise (KeyError "brainio_missing") /\
  dict_get "brainio_missing" (get_lookups two_entrypoints) = None.
Proof.
  split; [reflexivity|].
  destruct (append_exceptions two_entrypoints initial "brainio_missing"
              "contrib.Recording2020" (ClassName "NeuronRecordingAssembly") TYPE_ASSEMBLY
              "brainio.contrib" "abcdefabcdefabcdefabcdefabcdefabcdefabcd"
              "assy_contrib_Recording2020.nc" None
              (get_lookups two_entrypoints) _ (KeyError "brainio_missing")
              (snd (append_unknown initial)) eq_refl eq_refl)
    as [[_ H]|[[He _]|[[He _]|[He _]]]];
    [exact H | discriminate He | discriminate He | discriminate He].
Defined.

Lemma append_frame_witness :
  map fst (_catalogs (snd (append_new_assembly initial))) =
  ["brainio_dicarlo"; "brainio_contrib"].
Proof.
  destruct (append_frame two_entrypoints initial "brainio_contrib"
              "contrib.Recording2020" (ClassName "NeuronRecordingAssembly") TYPE_ASSEMBLY
              "brainio.contrib" "abcdefabcdefabcdefabcdefabcdefabcdefabcd"
              "assy_contrib_Recording2020.nc" (Some "contrib.images")
              (get_lookups two_entrypoints) _ (snd (append_new_assembly initial))
              eq_refl eq_refl) as (H & _).
  exact H.
Defined.

Lemma append_assembly_twice_witness :
  fst (append_new_assembly (snd (append_new_assembly initial))) =
  Raise (ValueError (duplicate_msg "contrib.Recording2020")).
Proof.
  exact (f_equal fst
           (append_assembly_twice two_entrypoints initial "brainio_contrib"
              "contrib.Recording2020" (ClassName "NeuronRecordingAssembly")
              "brainio.contrib" "abcdefabcdefabcdefabcdefabcdefabcdefabcd"
              "assy_contrib_Recording2020.nc" (Some "contrib.images")
              (snd (append_new_assembly initial))
              (ClassName "NeuronRecordingAssembly")
              "brainio.contrib" "abcdefabcdefabcdefabcdefabcdefabcdefabcd"
              "assy_contrib_Recording2020.nc" (Some "contrib.images") eq_refl)).
Defined.

Lemma append_keeps_tagged_witness :
  tagged (_catalogs (snd (append_new_assembly initial))).
Proof.
  exact (append_keeps_tagged two_entrypoints initial "brainio_contrib"
           "contrib.Recording2020" (ClassName "NeuronRecordingAssembly") TYPE_ASSEMBLY
           "brainio.contrib" "abcdefabcdefabcdefabcdefabcdefabcdefabcd"
           "assy_contrib_Recording2020.nc" (Some "contrib.images")
           (fun k c H => match H with end)).
Defined.

Lemma cache_never_stale_witness :
  cache_coherent (snd (lookup_assembly two_entrypoints hvm_identifier initial)) /\
  cache_coherent (snd (append_new_assembly initial)).
Proof.
  assert (H0 : cache_coherent initial) by (intros d Hd; discriminate Hd).
  destruct (cache_never_stale two_entrypoints initial hvm_identifier "brainio_contrib"
              "contrib.Recording2020" (ClassName "NeuronRecordingAssembly") TYPE_ASSEMBLY
              "brainio.contrib" "abcdefabcdefabcdefabcdefabcdefabcdefabcd"
              "assy_contrib_Recording2020.nc" (Some "contrib.images") H0)
    as (_ & H1 & _ & _ & _ & H2).
  split; [exact H1 | exact H2].
Defined.


Lemma single_catalog_lookups_witness :
  exists r,
    fst (lookup_assembly two_entrypoints hvm_identifier
           (mkState [("brainio_dicarlo",
                      mkCatalog [hvm_row "13d28ca0ce88ee550b54db3004374ae19096e9b9"]
                                (Some "/lookups/dicarlo.csv"))] None [])) = Ok r /\
    candidates hvm_identifier TYPE_ASSEMBLY
      [hvm_row "13d28ca0ce88ee550b54db3004374ae19096e9b9"] = [r].
Proof.
  destruct (single_catalog_lookups two_entrypoints
              (mkState [("brainio_dicarlo",
                         mkCatalog [hvm_row "13d28ca0ce88ee550b54db3004374ae19096e9b9"]
                                   (Some "/lookups/dicarlo.csv"))] None [])
              "brainio_dicarlo" _ hvm_identifier eq_refl eq_refl
              (catalog_consistent_single _ _)) as [H _].
  eexists. split; [reflexivity | exact H].
Defined.

Lemma append_then_listed_witness :
  exists la,
    fst (list_assemblies two_entrypoints (snd (append_new_assembly initial))) = Ok la /\
    In "contrib.Recording2020" la.
Proof.
  destruct (append_then_listed two_entrypoints initial "brainio_contrib"
              "contrib.Recording2020" (ClassName "NeuronRecordingAssembly") TYPE_ASSEMBLY
              "brainio.contrib" "abcdefabcdefabcdefabcdefabcdefabcdefabcd"
              "assy_contrib_Recording2020.nc" (Some "contrib.images")
              (snd (append_new_assembly initial)) eq_refl)
    as (la & ls & st'' & Ha & _ & Hin & _).
  exists la. rewrite Ha. split; [reflexivity | exact (Hin eq_refl)].
Defined.

Lemma stimulus_set_two_steps_witness :
  exists st2 st3 t z,
    append_table initial = (Ok tt, st2) /\
    append two_entrypoints "brainio_contrib" "contrib.images" ClassNone TYPE_STIMULUS_SET
           "brainio.contrib" "9876543210987654321098765432109876543210"
           "image_contrib_images.zip" None st2 = (Ok tt, st3) /\
    fst (lookup_stimulus_set two_entrypoints "contrib.images" st3) = Ok (t, z).
Proof.
  assert (Hnone : forall k c', In (k, c') (get_lookups two_entrypoints) ->
            candidates "contrib.images" TYPE_STIMULUS_SET (rows c') = []).
  { intros k c' Hin. vm_compute in Hin. destruct Hin as [E|[E|[]]]; inversion E;
      reflexivity. }
  destruct (stimulus_set_two_steps two_entrypoints initial "brainio_contrib"
              "contrib.images" "StimulusSet"
              "brainio.contrib" "0123456789012345678901234567890123456789"
              "image_contrib_images.csv" None
              "brainio.contrib" "9876543210987654321098765432109876543210"
              "image_contrib_images.zip" None
              (get_lookups two_entrypoints) _ _ _ eq_refl eq_refl eq_refl Hnone
              eq_refl eq_refl)
    as [(st2 & st3 & st4 & H1 & H2 & H3) _].
  exists st2, st3. eexists. eexists.
  split; [exact H1|]. split; [exact H2|]. rewrite H3. reflexivity.
Defined.

End LookupMoreExamples.

(** * Properties of the file hash *)

Section HashlibFacts.
Import Lookup.

Variable sha1_state : Type.
Variable sha1_new : sha1_state.
Variable sha1_update : sha1_state -> list byte -> sha1_state.
Variable sha1_hexdigest : sha1_state -> string.
Variable alloc_limit : Z.

(** hashlib: repeated calls of [update] are equivalent to a single call
    with the concatenation of all the arguments. *)
Hypothesis sha1_update_concat :
  forall h a b, sha1_update (sha1_update h a) b = sha1_update h (a ++ b)%list.

Lemma skipn_shorter (k : nat) (l : list byte) :
  (length (skipn k l) <= length l)%nat.
Proof.
  revert l. induction k as [|k IH]; intros [|x l]; simpl; auto.
Qed.

(** A read that returns splits the bytes left; it returns no bytes for
    size 0, and for another size only at the end of the file. *)
Lemma read_inv (n : Z) (rest b r : list byte) :
  read alloc_limit n rest = inl (b, r) ->
  (b ++ r)%list = rest /\
  (n = 0%Z -> b = []) /\
  (n <> 0%Z ->
   (rest = [] -> b = [] /\ r = []) /\
   (rest <> [] -> b <> [] /\ (length r < length rest)%nat)).
Proof.
  unfold read.
  destruct ((n <? - PY_SSIZE_T_MAX - 1) || (PY_SSIZE_T_MAX <? n))%Z; [discriminate|].
  destruct (n <? -1)%Z eqn:E1; [discriminate|].
  destruct (n =? -1)%Z eqn:E2.
  - destruct (alloc_limit <? Z.of_nat (length rest))%Z; [discriminate|].
    intros H. inversion H; subst b r. apply Z.eqb_eq in E2.
    split; [apply app_nil_r|]. split; [lia|]. intros _.
    split; [auto|]. intros Hne. split; [exact Hne|].
    destruct rest; [congruence | simpl; lia].
  - destruct (n =? 0)%Z eqn:E3.
    + intros H. inversion H; subst b r. apply Z.eqb_eq in E3.
      split; [reflexivity|]. split; [auto|]. intros Hn. congruence.
    + destruct (alloc_limit <? n)%Z; [discriminate|].
      intros H. inversion H; subst b r.
      apply Z.ltb_ge in E1. apply Z.eqb_neq in E2, E3.
      split; [apply firstn_skipn|]. split; [congruence|]. intros _. split.
      * intros ->. now rewrite firstn_nil, skipn_nil.
      * intros Hne. destruct (Z.to_nat n) as [|k] eqn:Ek; [lia|].
        destruct rest as [|x rest]; [congruence|].
        split; [discriminate|]. simpl.
        pose proof (skipn_shorter k rest). lia.
Qed.

(** The sizes with which every read of the file returns. *)
Lemma read_ok (n : Z) (rest : list byte) :
  (n = (-1)%Z /\ (Z.of_nat (length rest) <= alloc_limit)%Z) \/
  ((0 < n <= PY_SSIZE_T_MAX)%Z /\ (n <= alloc_limit)%Z) ->
  exists b r, read alloc_limit n rest = inl (b, r).
Proof.
  unfold read. intros [[-> Hl]|[[H0 Hmax] Hl]].
  - replace ((-1 <? - PY_SSIZE_T_MAX - 1) || (PY_SSIZE_T_MAX <? -1))%Z with false
      by reflexivity.
    replace (-1 <? -1)%Z with false by reflexivity.
    replace (-1 =? -1)%Z with true by reflexivity.
    replace (alloc_limit <? Z.of_nat (length rest))%Z with false
      by (symmetry; apply Z.ltb_ge; lia).
    eauto.
  - replace ((n <? - PY_SSIZE_T_MAX - 1) || (PY_SSIZE_T_MAX <? n))%Z with false.
    2:{ symmetry. apply orb_false_iff. unfold PY_SSIZE_T_MAX in *.
        split; apply Z.ltb_ge; lia. }
    replace (n <? -1)%Z with false by (symmetry; apply Z.ltb_ge; lia).
    replace (n =? -1)%Z with false by (symmetry; apply Z.eqb_neq; lia).
    replace (n =? 0)%Z with false by (symmetry; apply Z.eqb_neq; lia).
    replace (alloc_limit <? n)%Z with false by (symmetry; apply Z.ltb_ge; lia).
    eauto.
Qed.

(** With such a size the loop hashes the buffer and all the bytes left. *)
Lemma sha1_loop_chunks (buffer_size : Z) :
  buffer_size = (-1)%Z \/
  ((0 < buffer_size <= PY_SSIZE_T_MAX)%Z /\ (buffer_size <= alloc_limit)%Z) ->
  forall fuel h buffer rest,
    (buffer_size = (-1)%Z -> (Z.of_nat (length rest) <= alloc_limit)%Z) ->
    buffer <> [] ->
    (length rest + 2 <= fuel)%nat ->
    sha1_loop sha1_state sha1_update alloc_limit fuel h buffer rest buffer_size =
    Some (inl (sha1_update h (buffer ++ rest)%list)).
Proof.
  intros Hbs. induction fuel as [|fuel IH]; intros h buffer rest Hal Hb Hf; [lia|].
  destruct buffer as [|x buffer]; [congruence|].
  cbn [sha1_loop length Nat.ltb Nat.leb].
  destruct (read_ok buffer_size rest) as (b & r & Er).
  { destruct Hbs as [->|Hbs]; [left; split; [reflexivity | now apply Hal] | now right]. }
  rewrite Er. destruct (read_inv _ _ _ _ Er) as (Happ & _ & Hn).
  destruct Hn as [Hnil Hcons]; [lia|].
  destruct rest as [|y rest'].
  - destruct (Hnil eq_refl) as [-> ->].
    destruct fuel as [|fuel]; [simpl in Hf; lia|].
    cbn [sha1_loop length Nat.ltb Nat.leb]. now rewrite app_nil_r.
  - destruct (Hcons ltac:(discriminate)) as [Hbne Hlen].
    rewrite IH; [|intros E; specialize (Hal E); simpl in *; lia
                 |exact Hbne | simpl in *; lia].
    now rewrite sha1_update_concat, Happ.
Qed.

(** Whatever the size, the loop ends within the iterations it is allowed,
    with a state or with the exception of a read. *)
Lemma sha1_loop_ends (buffer_size : Z) :
  forall fuel h buffer rest,
    (buffer_size = 0%Z -> buffer = []) ->
    (length rest + 2 <= fuel)%nat ->
    sha1_loop sha1_state sha1_update alloc_limit fuel h buffer rest buffer_size
    <> None.
Proof.
  induction fuel as [|fuel IH]; intros h buffer rest H0 Hf; [lia|].
  cbn [sha1_loop]. destruct (0 <? length buffer)%nat eqn:El; [|discriminate].
  assert (Hn : buffer_size <> 0%Z).
  { intros E. rewrite (H0 E) in El. discriminate. }
  destruct (read alloc_limit buffer_size rest) as [[b r]|e] eqn:Er; [|discriminate].
  destruct (read_inv _ _ _ _ Er) as (_ & _ & Hinv).
  destruct (Hinv Hn) as [Hnil Hcons].
  destruct rest as [|y rest'].
  - destruct (Hnil eq_refl) as [-> ->].
    destruct fuel as [|fuel]; [simpl in Hf; lia|].
    cbn [sha1_loop length Nat.ltb Nat.leb]. discriminate.
  - destruct (Hcons ltac:(discriminate)) as [_ Hlen].
    apply IH; [congruence | simpl in *; lia].
Qed.

(** Property X19.  The digest does not depend on how the file is cut
    into buffers: with buffer size -1, or a positive buffer size that fits
    a C [ssize_t] and can be allocated, [sha1_hash] is the digest of one
    [update] with the whole content of the file, and for an empty file the
    digest of the fresh hash object.  With buffer size 0 no byte is ever
    read and every file hashes like the empty file.  A buffer size below
    -1 raises [ValueError], one that does not fit a C [ssize_t]
    [OverflowError], and a missing file [FileNotFoundError], before
    anything is hashed.  The loop always ends. *)
Theorem sha1_hash_whole_file (fs : dict (list byte)) (path : string) (buffer_size : Z) :
  let hash :=
    sha1_hash sha1_state sha1_new sha1_update sha1_hexdigest alloc_limit
              fs path buffer_size in
  hash <> OutOfFuel /\
  (dict_get path fs = None -> hash = FileNotFoundError) /\
  (forall content, dict_get path fs = Some content ->
   let whole :=
     Digest (sha1_hexdigest
               match content with
               | [] => sha1_new
               | _ :: _ => sha1_update sha1_new content
               end) in
   ((buffer_size < - PY_SSIZE_T_MAX - 1 \/ PY_SSIZE_T_MAX < buffer_size)%Z ->
    hash = ReadError ReadOverflowError) /\
   ((- PY_SSIZE_T_MAX - 1 <= buffer_size < -1)%Z ->
    hash = ReadError ReadValueError) /\
   (buffer_size = 0%Z -> hash = Digest (sha1_hexdigest sha1_new)) /\
   (buffer_size = (-1)%Z -> (Z.of_nat (length content) <= alloc_limit)%Z ->
    hash = whole) /\
   ((0 < buffer_size <= PY_SSIZE_T_MAX)%Z -> (buffer_size <= alloc_limit)%Z ->
    hash = whole)).
Proof.
  intros hash. subst hash. unfold sha1_hash.
  destruct (dict_get path fs) as [content|]; [|repeat split; discriminate].
  assert (Hwhole :
            (buffer_size = (-1)%Z /\ (Z.of_nat (length content) <= alloc_limit)%Z) \/
            ((0 < buffer_size <= PY_SSIZE_T_MAX)%Z /\ (buffer_size <= alloc_limit)%Z) ->
            match read alloc_limit buffer_size content with
            | inl (buffer, rest) =>
                match sha1_loop sha1_state sha1_update alloc_limit
                        (S (length content)) sha1_new buffer rest buffer_size with
                | Some (inl sha1) => Digest (sha1_hexdigest sha1)
                | Some (inr e) => ReadError e
                | None => OutOfFuel
                end
            | inr e => ReadError e
            end =
            Digest (sha1_hexdigest
                      match content with
                      | [] => sha1_new
                      | _ :: _ => sha1_update sha1_new content
                      end)).
  { intros Hc. destruct (read_ok buffer_size content Hc) as (b & r & Er).
    rewrite Er. destruct (read_inv _ _ _ _ Er) as (Happ & _ & Hn).
    destruct Hn as [Hnil Hcons]; [lia|].
    destruct content as [|x content'].
    - destruct (Hnil eq_refl) as [-> ->]. reflexivity.
    - destruct (Hcons ltac:(discriminate)) as [Hb Hlen].
      rewrite sha1_loop_chunks.
      + now rewrite Happ.
      + destruct Hc as [[E _]|Hc]; [now left | now right].
      + intros E. destruct Hc as [[_ Hl]|[[H0 _] _]]; [|lia].
        simpl in *. lia.
      + exact Hb.
      + simpl in *. lia. }
  split; [|split; [discriminate|]].
  - destruct (read alloc_limit buffer_size content) as [[b r]|e] eqn:Er;
      [|discriminate].
    destruct (read_inv _ _ _ _ Er) as (Happ & H0 & Hn).
    assert (Hend : sha1_loop sha1_state sha1_update alloc_limit
                     (S (length content)) sha1_new b r buffer_size <> None).
    { destruct b as [|x b].
      - cbn [sha1_loop length Nat.ltb Nat.leb]. discriminate.
      - apply sha1_loop_ends.
        + intros E. apply H0 in E. discriminate.
        + subst content. rewrite length_app. simpl. lia. }
    destruct (sha1_loop sha1_state sha1_update alloc_limit (S (length content))
                sha1_new b r buffer_size) as [[h|e]|];
      [discriminate | discriminate | congruence].
  - intros content' Hc. inversion Hc; subst content'. cbv zeta.
    split; [|split; [|split; [|split]]].
    + intros Hr. unfold read.
      replace ((buffer_size <? - PY_SSIZE_T_MAX - 1) || (PY_SSIZE_T_MAX <? buffer_size))%Z
        with true; [reflexivity|].
      symmetry. apply orb_true_iff. rewrite !Z.ltb_lt. exact Hr.
    + intros Hr. unfold read.
      replace ((buffer_size <? - PY_SSIZE_T_MAX - 1) || (PY_SSIZE_T_MAX <? buffer_size))%Z
        with false.
      2:{ symmetry. apply orb_false_iff. unfold PY_SSIZE_T_MAX in *.
          split; apply Z.ltb_ge; lia. }
      replace (buffer_size <? -1)%Z with true by (symmetry; apply Z.ltb_lt; lia).
      reflexivity.
    + intros ->. reflexivity.
    + intros E Hl. apply Hwhole. left. auto.
    + intros Hr Hl. apply Hwhole. right. auto.
Qed.

End HashlibFacts.

Section HashlibExamples.
Import Lookup.

(** A three-byte file read two bytes at a time, with a hash object that
    keeps the bytes it is given. *)
Lemma sha1_hash_whole_file_witness :
  sha1_hash (list byte) [] (@app byte) string_of_list_byte (2 ^ 31)%Z
    [("stimuli.zip", [x50; x4b; x03]%byte)] "stimuli.zip" 2%Z =
  Digest (string_of_list_byte [x50; x4b; x03]%byte).
Proof.
  destruct (sha1_hash_whole_file (list byte) [] (@app byte) string_of_list_byte
              (2 ^ 31)%Z (fun h a b => eq_sym (app_assoc h a b))
              [("stimuli.zip", [x50; x4b; x03]%byte)] "stimuli.zip" 2%Z)
    as (_ & _ & H).
  destruct (H _ eq_refl) as (_ & _ & _ & _ & Hw).
  rewrite Hw; [reflexivity | unfold PY_SSIZE_T_MAX; lia | lia].
Defined.

End HashlibExamples.

(** * The exceptions of the lookups *)

Section LookupErrors.
Import Lookup.

Variable entrypoints : dict Catalog.

(** The merged view fails in one way only: there is no catalog to
    concatenate. *)
Lemma data_raise st e st1 :
  data entrypoints st = (Raise e, st1) ->
  e = ValueError "No objects to concatenate".
Proof.
  unfold data. destruct (_concat_catalogs st); [discriminate|].
  unfold bind, get_catalogs, lift.
  destruct (_catalogs st) as [|kv cs].
  - destruct (get_lookups entrypoints) as [|kv' cs']; simpl; intros H;
      inversion H; reflexivity.
  - simpl. discriminate.
Qed.

(** Property X20.  The exceptions of the lookups.  [lookup_assembly]
    raises nothing but the [ValueError] of an empty set of catalogs, the
    not-found error and the consistency error; [lookup_stimulus_set]
    nothing but that [ValueError], the not-found error for the identifier
    or for one of its two representations, and the consistency error for
    one of them.  In particular [assert len(de_dupe) == 1],
    [assert len(filtered_rows) == 1] and [lookup.iloc[0]] never fail. *)
Theorem lookup_exceptions st identifier0 :
  match fst (lookup_assembly entrypoints identifier0 st) with
  | Ok _ => True
  | Raise e =>
      e = ValueError "No objects to concatenate" \/
      e = AssemblyLookupError ("assembly " ++ identifier0 ++ " not found") \/
      e = RuntimeError
            ("Internal data inconsistency: Found multiple lookup rows for identifier "
               ++ identifier0)
  end /\
  match fst (lookup_stimulus_set entrypoints identifier0 st) with
  | Ok _ => True
  | Raise e =>
      e = ValueError "No objects to concatenate" \/
      e = StimulusSetLookupError ("stimulus_set " ++ identifier0 ++ " not found") \/
      exists label,
        (label = "CSV" \/ label = "zip") /\
        (e = StimulusSetLookupError
               (label ++ " for stimulus set " ++ identifier0 ++ " not found") \/
         e = RuntimeError
               ("Internal data inconsistency: Found more than 2 lookup rows for stimulus_set "
                  ++ label ++ " for identifier " ++ identifier0))
  end.
Proof.
  destruct (data entrypoints st) as [[d|e] st1] eqn:Hd.
  - rewrite (lookup_assembly_eq entrypoints _ identifier0 _ _ Hd),
            (lookup_stimulus_set_eq entrypoints _ identifier0 _ _ Hd).
    cbn [fst]. split.
    + destruct (candidates identifier0 TYPE_ASSEMBLY d) as [|r rest];
        [right; left; reflexivity|].
      destruct (drop_duplicates (r :: rest)) as [|a [|b l]] eqn:Ed.
      * exfalso. apply (drop_duplicates_nonempty (r :: rest)); [discriminate | exact Ed].
      * exact I.
      * right. right. reflexivity.
    + destruct (candidates identifier0 TYPE_STIMULUS_SET d) as [|r rest] eqn:E;
        [right; left; reflexivity|].
      assert (Hid : forall x, In x (r :: rest) -> identifier x = identifier0).
      { intros x Hx. rewrite <- E in Hx. apply candidates_identifier in Hx. apply Hx. }
      assert (Hne : r :: rest <> []) by discriminate.
      rewrite (_lookup_stimulus_set_filtered_eq (r :: rest) _is_csv_lookup "CSV"
                 identifier0 Hid Hne),
              (_lookup_stimulus_set_filtered_eq (r :: rest) _is_zip_lookup "zip"
                 identifier0 Hid Hne).
      destruct (drop_duplicates (filter _is_csv_lookup (r :: rest))) as [|t [|t' tl]].
      * right. right. exists "CSV". split; [now left|]. left. reflexivity.
      * destruct (drop_duplicates (filter _is_zip_lookup (r :: rest))) as [|z [|z' zl]].
        -- right. right. exists "zip". split; [now right|]. left. reflexivity.
        -- exact I.
        -- right. right. exists "zip". split; [now right|]. right. reflexivity.
      * right. right. exists "CSV". split; [now left|]. right. reflexivity.
  - pose proof (data_raise _ _ _ Hd) as He.
    unfold lookup_assembly, lookup_stimulus_set, bind.
    rewrite !(select_lookup_raise entrypoints _ _ _ _ _ Hd). cbn [fst].
    split; left; exact He.
Qed.

End LookupErrors.
